(** * Flow catalog, endpoint presentation, provider-config registry and
    sync orchestrator of the integrations service: a shallow embedding

  Sources embedded here:
  - [packages/webapp/.../Endpoints/Show.tsx] (the [byGroup] memo, and the
    server handler [getIntegrationFlows] with [containsSameEndpoint] and
    [hasSimilarFlow]);
  - [packages/shared/lib/services/config.service.ts] ([ConfigService]);
  - [packages/shared/lib/services/sync/orchestrator.service.ts]
    ([Orchestrator]). *)

From Stdlib Require Import List String Ascii Bool ZArith Lia Permutation.
From Stdlib Require Import DecimalString DecimalNat.
Import ListNotations.

Local Open Scope string_scope.
Local Open Scope list_scope.

(** ** JavaScript values, as far as the embedded code needs them *)

Module Js.

(** An object literal with string keys and string values, such as the
    endpoint descriptor [{ GET: '/customers' }]: own enumerable properties
    in insertion order. *)
Definition Obj := list (string * string).

(** The values the endpoint comparison handles: a string, [undefined], or
    one [[key, value]] array as produced by [Object.entries]. *)
Inductive Value :=
| Undefined
| Str (s : string)
| Entry (k v : string).

(** [Object.entries(o)] *)
Definition entries (o : Obj) : list (string * string) := o.

(** [arr[i]] on the array returned by [Object.entries] *)
Definition index (arr : list (string * string)) (i : nat) : Value :=
  match nth_error arr i with
  | Some (k, v) => Entry k v
  | None => Undefined
  end.

(** The property key a value converts to when it is used between square
    brackets: an array joins its elements with a comma. *)
Definition toPropertyKey (x : Value) : string :=
  match x with
  | Undefined => "undefined"
  | Str s => s
  | Entry k v => k ++ "," ++ v
  end.

(** [o[key]]: the own property of that name, or [undefined]. The keys
    formed by the embedded code are the text of an entry, which holds a
    comma, or the word undefined; [Object.prototype] has neither. *)
Fixpoint get (o : Obj) (key : string) : Value :=
  match o with
  | [] => Undefined
  | (k, v) :: rest => if String.eqb k key then Str v else get rest key
  end.

(** Truthiness, as tested by [if], [&&] and [!]. *)
Definition truthy (x : Value) : bool :=
  match x with
  | Undefined => false
  | Str s => negb (String.eqb s "")
  | Entry _ _ => true
  end.

(** [x === y]. Two arrays are equal only when they are the same object;
    every array compared here is fresh from [Object.entries] and on the
    right-hand side only, so no two are the same. *)
Definition strictEq (x y : Value) : bool :=
  match x, y with
  | Undefined, Undefined => true
  | Str a, Str b => String.eqb a b
  | _, _ => false
  end.

(** Truthiness of a string or [undefined] held in an [option]. *)
Definition truthyStr (x : option string) : bool :=
  match x with
  | Some s => negb (String.eqb s "")
  | None => false
  end.

(** [s.split(sep)] for a one-character separator. *)
Fixpoint split (sep : ascii) (s : string) : list string :=
  match s with
  | EmptyString => [EmptyString]
  | String c s' =>
      if Ascii.eqb c sep then EmptyString :: split sep s'
      else match split sep s' with
           | [] => [String c EmptyString]
           | w :: ws => String c w :: ws
           end
  end.

(** [(s.match(/c/g) || []).length]: the number of occurrences of [c]. *)
Fixpoint countChar (c : ascii) (s : string) : nat :=
  match s with
  | EmptyString => 0
  | String d s' => (if Ascii.eqb d c then 1 else 0) + countChar c s'
  end.

(** [a > b] on strings: comparison by code units (paths are ASCII). *)
Definition gtStr (a b : string) : bool :=
  match String.compare a b with
  | Gt => true
  | _ => false
  end.

End Js.

(** ** Flow definitions *)

Inductive SyncConfigType := SYNC | ACTION.

Definition SyncConfigType_eqb (a b : SyncConfigType) : bool :=
  match a, b with
  | SYNC, SYNC | ACTION, ACTION => true
  | _, _ => false
  end.

(** [NangoSyncConfig], with the fields the embedded code reads. [id] is
    present on installed flows only. *)
Record NangoSyncConfig := {
  name : string;
  type : SyncConfigType;
  endpoints : list Js.Obj;
  returns : list string;
  enabled : bool;
  id : option Z
}.

Definition NangoSyncConfig_eq_dec (a b : NangoSyncConfig) : {a = b} + {a <> b}.
Proof.
  repeat decide equality; try apply Z.eq_dec; try apply Ascii.ascii_dec.
Defined.

(** ** The flow-resolution read path ([getIntegrationFlows]) *)

Module Flows.

(** The inner loop of [containsSameEndpoint]: [endpointA] is what
    [Object.entries(endpointObjA)] returned, the whole array of pairs. *)
Fixpoint containsSameEndpoint_inner
         (endpointA : list (string * string)) (endpointsB : list Js.Obj) : bool :=
  match endpointsB with
  | [] => false
  | endpointObjB :: rest =>
      let found := Js.get endpointObjB (Js.toPropertyKey (Js.index endpointA 0)) in
      if Js.truthy found && Js.strictEq found (Js.index endpointA 1)
      then true
      else containsSameEndpoint_inner endpointA rest
  end.

Fixpoint containsSameEndpoint_outer
         (endpointsA : list Js.Obj) (endpointsB : list Js.Obj) : bool :=
  match endpointsA with
  | [] => false
  | endpointObjA :: rest =>
      if containsSameEndpoint_inner (Js.entries endpointObjA) endpointsB
      then true
      else containsSameEndpoint_outer rest endpointsB
  end.

Definition containsSameEndpoint (flowA flowB : NangoSyncConfig) : bool :=
  containsSameEndpoint_outer (endpoints flowA) (endpoints flowB).

(** [modelsName.has(model)] for [modelsName = new Set(templateFlow.returns)] *)
Definition has (modelsName : list string) (model : string) : bool :=
  existsb (String.eqb model) modelsName.

Fixpoint hasSimilarFlow (templateFlow : NangoSyncConfig) (list : list NangoSyncConfig) : bool :=
  match list with
  | [] => false
  | flow :: rest =>
      if SyncConfigType_eqb (type flow) (type templateFlow)
         && String.eqb (name flow) (name templateFlow)
      then true
      else if SyncConfigType_eqb (type flow) SYNC
              && Js.truthyStr (find (has (returns templateFlow)) (returns flow))
      then true
      else if containsSameEndpoint flow templateFlow
      then true
      else hasSimilarFlow templateFlow rest
  end.

(** The loop that pushes the template flows onto [finalFlows]. *)
Fixpoint pushTemplates (finalFlows dbFlows templateFlows : list NangoSyncConfig)
  : list NangoSyncConfig :=
  match templateFlows with
  | [] => finalFlows
  | templateFlow :: rest =>
      if hasSimilarFlow templateFlow dbFlows
      then pushTemplates finalFlows dbFlows rest
      else pushTemplates (finalFlows ++ [templateFlow]) dbFlows rest
  end.

(** What [getSyncConfigsAsStandardConfig] returns for the installed flows,
    and an entry of [getAllAvailableFlowsAsStandardConfig] for a template. *)
Record StandardNangoConfig := {
  actions : list NangoSyncConfig;
  syncs : list NangoSyncConfig
}.

(** [[...(c?.actions || []), ...(c?.syncs || [])]] *)
Definition flowsOf (c : option StandardNangoConfig) : list NangoSyncConfig :=
  match c with
  | Some c => actions c ++ syncs c
  | None => []
  end.

(** The body of the handler once the integration is found: [allFlows] is
    the installed flows of the provider configuration, [template] the
    template entry of its provider, when there is one. The result is the
    [flows] of the response. *)
Definition getIntegrationFlows (allFlows template : option StandardNangoConfig)
  : list NangoSyncConfig :=
  let dbFlows := flowsOf allFlows in
  let templateFlows := flowsOf template in
  pushTemplates dbFlows dbFlows templateFlows.

End Flows.

(** ** The grouped endpoint presentation ([byGroup] of [EndpointsShow]) *)

Module Endpoints.

Record Endpoint := {
  verb : string;
  path : string
}.

(** [NangoSyncConfigWithEndpoint]: [{ ...flow, endpoint }] *)
Record NangoSyncConfigWithEndpoint := {
  flow : NangoSyncConfig;
  endpoint : Endpoint
}.

Record Group := {
  groupName : string;
  flows : list NangoSyncConfigWithEndpoint
}.

Inductive Outcome (A : Type) :=
| Returned (a : A)
| TypeError.
Arguments Returned {A} a.
Arguments TypeError {A}.

Definition allowedGroup : list string :=
  ["customers"; "invoices"; "payments"; "tickets"].

(** [allowedGroup.includes(path)] *)
Definition includes (l : list string) (s : string) : bool :=
  existsb (String.eqb s) l.

(** [tmp]: a record from group name to the array of the group, keys in
    insertion order. *)
Definition Tmp := list (string * list NangoSyncConfigWithEndpoint).

(** [tmp[groupName]], created empty when missing, then [group.push(x)]. *)
Fixpoint pushToGroup (tmp : Tmp) (name : string) (x : NangoSyncConfigWithEndpoint) : Tmp :=
  match tmp with
  | [] => [(name, [x])]
  | (g, group) :: rest =>
      if String.eqb g name then (g, group ++ [x]) :: rest
      else (g, group) :: pushToGroup rest name x
  end.

(** The loop over [flow.endpoints]. [Object.entries(endpoint)[0]] is
    [undefined] for an endpoint object without a property, and reading
    [entries[1]] of it raises. *)
Fixpoint groupEndpoints (f : NangoSyncConfig) (eps : list Js.Obj) (tmp : Tmp)
  : Outcome Tmp :=
  match eps with
  | [] => Returned tmp
  | endpoint :: rest =>
      match Js.entries endpoint with
      | [] => TypeError
      | entries :: _ =>
          let paths := Js.split "/" (snd entries) in
          let path := nth_error paths 1 in
          if negb (Js.truthyStr path) then groupEndpoints f rest tmp
          else
            let p := match path with Some p => p | None => "" end in
            let groupName := if includes allowedGroup p then p else "others" in
            groupEndpoints f rest
              (pushToGroup tmp groupName
                 {| flow := f;
                    endpoint := {| verb := fst entries; path := snd entries |} |})
      end
  end.

(** The loop over [data.flows]. *)
Fixpoint createGroups (flows : list NangoSyncConfig) (tmp : Tmp) : Outcome Tmp :=
  match flows with
  | [] => Returned tmp
  | f :: rest =>
      match groupEndpoints f (endpoints f) tmp with
      | Returned tmp' => createGroups rest tmp'
      | TypeError => TypeError
      end
  end.

(** The comparator handed to [sort]. *)
Definition compareFlows (a b : NangoSyncConfigWithEndpoint) : Z :=
  let lenA := Js.countChar "/" (path (endpoint a)) in
  let lenB := Js.countChar "/" (path (endpoint b)) in
  if Nat.ltb lenB lenA then 1
  else if Nat.ltb lenA lenB then (-1)
  else if String.eqb (verb (endpoint a)) "GET" && negb (String.eqb (verb (endpoint b)) "GET")
  then (-1)
  else if String.eqb (verb (endpoint a)) "POST" && String.eqb (verb (endpoint b)) "PUT"
  then (-1)
  else if String.eqb (verb (endpoint a)) "PUT" && String.eqb (verb (endpoint b)) "PATCH"
  then (-1)
  else if String.eqb (verb (endpoint a)) "PATCH" && String.eqb (verb (endpoint b)) "DELETE"
  then (-1)
  else if Js.gtStr (path (endpoint a)) (path (endpoint b)) then 1 else (-1).

Section ByGroup.

(** [Array.prototype.sort] of the engine. The language leaves the order it
    produces open when the comparator is not consistent; the result holds
    the elements of the array all the same. *)
Variable sort :
  (NangoSyncConfigWithEndpoint -> NangoSyncConfigWithEndpoint -> Z) ->
  list NangoSyncConfigWithEndpoint -> list NangoSyncConfigWithEndpoint.

(** The second loop: one group per entry of [tmp], its flows sorted. *)
Definition sortGroups (tmp : Tmp) : list Group :=
  map (fun g => {| groupName := fst g; flows := sort compareFlows (snd g) |}) tmp.

(** The [byGroup] memo; [data] is absent while the flows are loading. *)
Definition byGroup (data : option (list NangoSyncConfig)) : Outcome (list Group) :=
  match data with
  | None => Returned []
  | Some flows =>
      match createGroups flows [] with
      | Returned tmp => Returned (sortGroups tmp)
      | TypeError => TypeError
      end
  end.

End ByGroup.

(** One admissible engine: an insertion sort that hands the comparator the
    element to place and an element already placed. *)
Fixpoint insertSorted (cmp : NangoSyncConfigWithEndpoint -> NangoSyncConfigWithEndpoint -> Z)
         (x : NangoSyncConfigWithEndpoint) (l : list NangoSyncConfigWithEndpoint)
  : list NangoSyncConfigWithEndpoint :=
  match l with
  | [] => [x]
  | y :: rest => if Z.ltb (cmp x y) 0 then x :: y :: rest else y :: insertSorted cmp x rest
  end.

Definition insertionSort (cmp : NangoSyncConfigWithEndpoint -> NangoSyncConfigWithEndpoint -> Z)
           (l : list NangoSyncConfigWithEndpoint) : list NangoSyncConfigWithEndpoint :=
  fold_left (fun acc x => insertSorted cmp x acc) l [].

End Endpoints.

(** ** Persisted rows *)

Module Provider.

(** A row of [_nango_configs] ([Config] of [models/Provider]). [id] is
    absent until the store assigns it; a secret may be absent. *)
Record Config := {
  id : option Z;
  unique_key : string;
  provider : string;
  environment_id : Z;
  oauth_client_secret : option string;
  oauth_client_secret_iv : option string;
  oauth_client_secret_tag : option string;
  deleted : bool;
  deleted_at : option Z
}.

Definition eq_dec (a b : Config) : {a = b} + {a <> b}.
Proof.
  repeat decide equality; try apply Z.eq_dec; try apply Ascii.ascii_dec.
Defined.

End Provider.

Module Connection.

(** A row of [_nango_connections]. *)
Record t := {
  id : option Z;
  connection_id : string;
  provider_config_key : string;
  environment_id : Z;
  deleted : bool;
  deleted_at : option Z
}.

End Connection.

(** A row of [_nango_syncs]: a flow bound to one connection. *)
Record Sync := {
  nango_connection_id : option Z;
  sync_name : string
}.

(** [IncomingSyncConfig], with the fields the orchestrator touches. *)
Record IncomingSyncConfig := {
  runs : string;
  models : list string
}.

(** What the orchestrator hands to the sync client: the flow spec with
    [returns] set to its models. *)
Record SyncClientConfig := {
  spec : IncomingSyncConfig;
  client_returns : list string
}.

(** An accepted [startContinuous] command. *)
Record StartedSync := {
  started_connection : Connection.t;
  started_sync : Sync;
  started_config : option Provider.Config;
  started_name : string;
  started_spec : SyncClientConfig;
  started_debug : bool
}.

Inductive Error :=
| NangoError (code : string)
| ClientError (connection : Connection.t) (syncName : string).

Inductive Level := LevelDebug | LevelError.

(** The [content] of an activity log message, before it is rendered to text:
    the flow name, the number of connections and, for an error, the failure. *)
Inductive Content :=
| BeginningIteration (syncName : string) (connections : nat)
| FinishedIteration (syncName : string) (connections : nat)
| ErrorStartingSyncs (syncName : string) (connections : nat) (e : Error).

Record ActivityLogMessage := {
  level : Level;
  activity_log_id : option Z;
  content : Content
}.

(** A call of the encryption manager, kept as a ghost trace so that the
    number of encryptions and decryptions of an operation can be stated. *)
Inductive CryptoCall :=
| Encrypt (config : Provider.Config)
| Decrypt (config : Provider.Config).

(** ** The store and the collaborators' observable state *)

Record World := {
  configs : list Provider.Config;
  nextConfigId : Z;
  connections : list Connection.t;
  syncs : list Sync;
  schedules : list Sync;
  syncConfigs : list (Z * string);
  syncFiles : list Z;
  started : list StartedSync;
  activity : list ActivityLogMessage;
  cryptoCalls : list CryptoCall
}.

Definition setConfigs (w : World) (cs : list Provider.Config) (next : Z) : World :=
  {| configs := cs; nextConfigId := next; connections := connections w;
     syncs := syncs w; schedules := schedules w; syncConfigs := syncConfigs w;
     syncFiles := syncFiles w; started := started w; activity := activity w;
     cryptoCalls := cryptoCalls w |}.

Definition setConnections (w : World) (cs : list Connection.t) : World :=
  {| configs := configs w; nextConfigId := nextConfigId w; connections := cs;
     syncs := syncs w; schedules := schedules w; syncConfigs := syncConfigs w;
     syncFiles := syncFiles w; started := started w; activity := activity w;
     cryptoCalls := cryptoCalls w |}.

Definition setSyncs (w : World) (ss sch : list Sync) : World :=
  {| configs := configs w; nextConfigId := nextConfigId w; connections := connections w;
     syncs := ss; schedules := sch; syncConfigs := syncConfigs w;
     syncFiles := syncFiles w; started := started w; activity := activity w;
     cryptoCalls := cryptoCalls w |}.

Definition setSyncConfigs (w : World) (sc : list (Z * string)) : World :=
  {| configs := configs w; nextConfigId := nextConfigId w; connections := connections w;
     syncs := syncs w; schedules := schedules w; syncConfigs := sc;
     syncFiles := syncFiles w; started := started w; activity := activity w;
     cryptoCalls := cryptoCalls w |}.

Definition setSyncFiles (w : World) (fs : list Z) : World :=
  {| configs := configs w; nextConfigId := nextConfigId w; connections := connections w;
     syncs := syncs w; schedules := schedules w; syncConfigs := syncConfigs w;
     syncFiles := fs; started := started w; activity := activity w;
     cryptoCalls := cryptoCalls w |}.

Definition setStarted (w : World) (st : list StartedSync) : World :=
  {| configs := configs w; nextConfigId := nextConfigId w; connections := connections w;
     syncs := syncs w; schedules := schedules w; syncConfigs := syncConfigs w;
     syncFiles := syncFiles w; started := st; activity := activity w;
     cryptoCalls := cryptoCalls w |}.

Definition setActivity (w : World) (a : list ActivityLogMessage) : World :=
  {| configs := configs w; nextConfigId := nextConfigId w; connections := connections w;
     syncs := syncs w; schedules := schedules w; syncConfigs := syncConfigs w;
     syncFiles := syncFiles w; started := started w; activity := a;
     cryptoCalls := cryptoCalls w |}.

Definition setCryptoCalls (w : World) (c : list CryptoCall) : World :=
  {| configs := configs w; nextConfigId := nextConfigId w; connections := connections w;
     syncs := syncs w; schedules := schedules w; syncConfigs := syncConfigs w;
     syncFiles := syncFiles w; started := started w; activity := activity w;
     cryptoCalls := c |}.

(** ** Awaited operations: state passing with exceptions

    An operation runs on the world and either returns a value or throws;
    what it wrote before throwing stays written. *)

Inductive Result (A : Type) :=
| Ok (a : A)
| Throw (e : Error).
Arguments Ok {A} a.
Arguments Throw {A} e.

Definition M (A : Type) : Type := World -> Result A * World.

Definition ret {A} (a : A) : M A := fun w => (Ok a, w).

Definition throw {A} (e : Error) : M A := fun w => (Throw e, w).

Definition bind {A B} (m : M A) (k : A -> M B) : M B :=
  fun w =>
    match m w with
    | (Ok a, w') => k a w'
    | (Throw e, w') => (Throw e, w')
    end.

(** [try { m } catch (e) { handler }] *)
Definition tryCatch {A} (m : M A) (handler : Error -> M A) : M A :=
  fun w =>
    match m w with
    | (Ok a, w') => (Ok a, w')
    | (Throw e, w') => handler e w'
    end.

Notation "x <- m ;; k" := (bind m (fun x => k))
  (at level 61, m at next level, right associativity).
Notation "m ;;; k" := (bind m (fun _ => k))
  (at level 61, right associativity).

Definition when (b : bool) (m : M unit) : M unit :=
  if b then m else ret tt.

(** [for (const x of xs) { body }] *)
Fixpoint forEach {A} (xs : list A) (body : A -> M unit) : M unit :=
  match xs with
  | [] => ret tt
  | x :: rest => body x ;;; forEach rest body
  end.

Definition gets {A} (f : World -> A) : M A := fun w => (Ok (f w), w).

Definition modify (f : World -> World) : M unit := fun w => (Ok tt, f w).

(** Unfolds the plumbing of an operation so that it runs on its world. *)
Ltac run :=
  unfold bind, ret, gets, modify, throw, when, tryCatch; simpl.

(** [a === b] where [a] is a column that may be absent and [b] a number. *)
Definition optZ_eqb (a : option Z) (b : Z) : bool :=
  match a with
  | Some x => Z.eqb x b
  | None => false
  end.

(** Equality of two ids, neither of which matches when absent. *)
Definition optZ_match (a b : option Z) : bool :=
  match a, b with
  | Some x, Some y => Z.eqb x y
  | _, _ => false
  end.

(** [c.toLocaleLowerCase()] on the letters A to Z. *)
Definition lowerChar (c : ascii) : ascii :=
  let n := nat_of_ascii c in
  if Nat.leb 65 n && Nat.leb n 90 then ascii_of_nat (n + 32) else c.

Fixpoint toLocaleLowerCase (s : string) : string :=
  match s with
  | EmptyString => EmptyString
  | String c s' => String (lowerChar c) (toLocaleLowerCase s')
  end.

(** The decimal text of a row count, which is how the store returns
    [count('*')]. *)
Definition countText (n : nat) : string :=
  NilEmpty.string_of_uint (Nat.to_uint n).

(** ** The provider-config registry ([ConfigService]) *)

Module ConfigService.

Section Service.

(** The encryption manager, an opaque collaborator. *)
Variable encryptProviderConfig : Provider.Config -> Provider.Config.
Variable decryptProviderConfig : Provider.Config -> option Provider.Config.

(** [isCloud] of the deployment. *)
Variable isCloud : bool.

(** [nanoid(size)]: the identifier the generator hands out. *)
Variable nanoid : nat -> string.

Definition encrypt (config : Provider.Config) : M Provider.Config :=
  fun w => (Ok (encryptProviderConfig config),
            setCryptoCalls w (cryptoCalls w ++ [Encrypt config])).

Definition decrypt (config : Provider.Config) : M (option Provider.Config) :=
  fun w => (Ok (decryptProviderConfig config),
            setCryptoCalls w (cryptoCalls w ++ [Decrypt config])).

(** [from(_nango_configs).where(cond)] *)
Definition selectConfigs (cond : Provider.Config -> bool) : M (list Provider.Config) :=
  gets (fun w => filter cond (configs w)).

(** [from(_nango_configs).where(cond).update(set)]: the number of rows
    written. *)
Definition updateConfigs (cond : Provider.Config -> bool)
           (set : Provider.Config -> Provider.Config) : M Z :=
  fun w =>
    (Ok (Z.of_nat (List.length (filter cond (configs w)))),
     setConfigs w (map (fun c => if cond c then set c else c) (configs w))
                (nextConfigId w)).

Definition updateConnections (cond : Connection.t -> bool)
           (set : Connection.t -> Connection.t) : M Z :=
  fun w =>
    (Ok (Z.of_nat (List.length (filter cond (connections w)))),
     setConnections w (map (fun c => if cond c then set c else c) (connections w))).

(** The row as stored: the store assigns the id of a row that has none. *)
Definition assignId (next : Z) (config : Provider.Config) : Provider.Config :=
  match Provider.id config with
  | Some _ => config
  | None =>
      {| Provider.id := Some next;
         Provider.unique_key := Provider.unique_key config;
         Provider.provider := Provider.provider config;
         Provider.environment_id := Provider.environment_id config;
         Provider.oauth_client_secret := Provider.oauth_client_secret config;
         Provider.oauth_client_secret_iv := Provider.oauth_client_secret_iv config;
         Provider.oauth_client_secret_tag := Provider.oauth_client_secret_tag config;
         Provider.deleted := Provider.deleted config;
         Provider.deleted_at := Provider.deleted_at config |}
  end.

(** [from(_nango_configs).insert(config).returning('*')], for a row the
    store takes: one without id, or with an id no row of the table has. What
    the store does with an id already in the table is not in the sources and
    is not modelled. *)
Definition insertConfig (config : Provider.Config) : M (list Provider.Config) :=
  fun w =>
    let row := assignId (nextConfigId w) config in
    (Ok [row], setConfigs w (configs w ++ [row]) (nextConfigId w + 1)).

Definition getById (id : Z) : M (option Provider.Config) :=
  result <- selectConfigs (fun c => optZ_eqb (Provider.id c) id
                                    && negb (Provider.deleted c)) ;;
  match result with
  | [] => ret None
  | row :: _ => decrypt row
  end.

Definition getProviderName (providerConfigKey : string) : M (option string) :=
  result <- selectConfigs (fun c => String.eqb (Provider.unique_key c) providerConfigKey
                                    && negb (Provider.deleted c)) ;;
  match result with
  | [] => ret None
  | row :: _ => ret (Some (Provider.provider row))
  end.

Definition getIdByProviderConfigKey (environment_id : Z) (providerConfigKey : string)
  : M (option Z) :=
  result <- selectConfigs (fun c => String.eqb (Provider.unique_key c) providerConfigKey
                                    && Z.eqb (Provider.environment_id c) environment_id
                                    && negb (Provider.deleted c)) ;;
  match result with
  | [] => ret None
  | row :: _ => ret (Provider.id row)
  end.

Definition getProviderConfig (providerConfigKey : string) (environment_id : Z)
  : M (option Provider.Config) :=
  result <- selectConfigs (fun c => String.eqb (Provider.unique_key c) providerConfigKey
                                    && Z.eqb (Provider.environment_id c) environment_id
                                    && negb (Provider.deleted c)) ;;
  match result with
  | [] => ret None
  | row :: _ => decrypt row
  end.

(** [rows.map(decrypt).filter(Boolean)] *)
Fixpoint decryptAll (rows : list Provider.Config) : M (list Provider.Config) :=
  match rows with
  | [] => ret []
  | row :: rest =>
      d <- decrypt row ;;
      ds <- decryptAll rest ;;
      ret (match d with Some c => c :: ds | None => ds end)
  end.

Definition listProviderConfigs (environment_id : Z) : M (list Provider.Config) :=
  rows <- selectConfigs (fun c => Z.eqb (Provider.environment_id c) environment_id
                                  && negb (Provider.deleted c)) ;;
  decryptAll rows.

Definition listProviderConfigsByProvider (environment_id : Z) (provider : string)
  : M (list Provider.Config) :=
  rows <- selectConfigs (fun c => Z.eqb (Provider.environment_id c) environment_id
                                  && String.eqb (Provider.provider c) provider
                                  && negb (Provider.deleted c)) ;;
  decryptAll rows.

Definition createProviderConfig (config : Provider.Config) : M (option Provider.Config) :=
  configToInsert <- (if Js.truthyStr (Provider.oauth_client_secret config)
                     then encrypt config
                     else ret config) ;;
  res <- insertConfig configToInsert ;;
  ret (hd_error res).

(** The object literal [{ environment_id, unique_key, provider }]: every
    other column is left to the store, which defaults [deleted] to false. *)
Definition emptyConfig (environment_id : Z) (unique_key provider : string) : Provider.Config :=
  {| Provider.id := None;
     Provider.unique_key := unique_key;
     Provider.provider := provider;
     Provider.environment_id := environment_id;
     Provider.oauth_client_secret := None;
     Provider.oauth_client_secret_iv := None;
     Provider.oauth_client_secret_tag := None;
     Provider.deleted := false;
     Provider.deleted_at := None |}.

Definition createEmptyProviderConfig (provider : string) (environment_id : Z)
  : M Provider.Config :=
  rows <- selectConfigs (fun c => String.eqb (Provider.provider c) provider
                                  && Z.eqb (Provider.environment_id c) environment_id
                                  && negb (Provider.deleted c)) ;;
  let exists_count := countText (List.length rows) in
  config <- createProviderConfig
              (emptyConfig environment_id
                 (if String.eqb exists_count "0" then provider
                  else provider ++ "-" ++ toLocaleLowerCase (nanoid 4))
                 provider) ;;
  match config with
  | None => throw (NangoError "unknown_provider_config")
  | Some config => ret config
  end.

(** Whether a sync belongs to one of the connections of a provider
    configuration. *)
Definition syncUnder (environmentId : Z) (providerConfigKey : string)
           (conns : list Connection.t) (s : Sync) : bool :=
  existsb (fun c => String.eqb (Connection.provider_config_key c) providerConfigKey
                    && Z.eqb (Connection.environment_id c) environmentId
                    && optZ_match (Connection.id c) (nango_connection_id s)) conns.

(** Modelled from the spec: [syncManager.deleteSyncsByProviderConfig] is
    not part of the sources; it deletes every sync under the provider
    configuration for every connection, schedules included. *)
Definition deleteSyncsByProviderConfig (environmentId : Z) (providerConfigKey : string)
  : M unit :=
  modify (fun w =>
    let keep s := negb (syncUnder environmentId providerConfigKey (connections w) s) in
    setSyncs w (filter keep (syncs w)) (filter keep (schedules w))).

(** Modelled from the spec: [deleteSyncFilesForConfig] is not part of the
    sources; it deletes the on-disk sync files of the configuration. *)
Definition deleteSyncFilesForConfig (id : Z) (environmentId : Z) : M unit :=
  modify (fun w => setSyncFiles w (filter (fun f => negb (Z.eqb f id)) (syncFiles w))).

(** Modelled from the spec: [deleteByConfigId] of the sync-config service is
    not part of the sources; it deletes the flow config rows of the
    configuration. *)
Definition deleteSyncConfigByConfigId (id : Z) : M unit :=
  modify (fun w => setSyncConfigs w (filter (fun r => negb (Z.eqb (fst r) id)) (syncConfigs w))).

Definition deleteConfigRow (now : Z) (c : Provider.Config) : Provider.Config :=
  {| Provider.id := Provider.id c;
     Provider.unique_key := Provider.unique_key c;
     Provider.provider := Provider.provider c;
     Provider.environment_id := Provider.environment_id c;
     Provider.oauth_client_secret := Provider.oauth_client_secret c;
     Provider.oauth_client_secret_iv := Provider.oauth_client_secret_iv c;
     Provider.oauth_client_secret_tag := Provider.oauth_client_secret_tag c;
     Provider.deleted := true;
     Provider.deleted_at := Some now |}.

Definition deleteConnectionRow (now : Z) (c : Connection.t) : Connection.t :=
  {| Connection.id := Connection.id c;
     Connection.connection_id := Connection.connection_id c;
     Connection.provider_config_key := Connection.provider_config_key c;
     Connection.environment_id := Connection.environment_id c;
     Connection.deleted := true;
     Connection.deleted_at := Some now |}.

(** [now] is what [new Date()] reads. *)
Definition deleteProviderConfig (id environmentId : Z) (providerConfigKey : string) (now : Z)
  : M bool :=
  deleteSyncsByProviderConfig environmentId providerConfigKey ;;;
  when isCloud (deleteSyncFilesForConfig id environmentId) ;;;
  deleteSyncConfigByConfigId id ;;;
  updated <- updateConfigs (fun c => optZ_eqb (Provider.id c) id
                                     && negb (Provider.deleted c))
                           (deleteConfigRow now) ;;
  if Z.leb updated 0 then ret false
  else
    updateConnections
      (fun c => String.eqb (Connection.provider_config_key c) providerConfigKey
                && Z.eqb (Connection.environment_id c) environmentId
                && negb (Connection.deleted c))
      (deleteConnectionRow now) ;;;
    ret true.


End Service.

End ConfigService.

(** ** The sync lifecycle orchestrator ([Orchestrator]) *)

Module Orchestrator.

Record CreateSyncArgs := {
  connections : list Connection.t;
  providerConfigKey : string;
  environmentId : Z;
  sync : IncomingSyncConfig;
  syncName : string
}.

(** The sync client, a black box: [startContinuous] either accepts the
    command or raises, as [raises] tells for the connection and flow. *)
Record SyncClient := {
  raises : Connection.t -> string -> bool
}.

Section Service.

Variable decryptProviderConfig : Provider.Config -> option Provider.Config.

(** What [SyncClient.getInstance()] resolves to: a client, or [null]. *)
Variable syncClient : option SyncClient.

(** Modelled from the spec: [createSync] of the sync service is not part of
    the sources; it creates a persisted Sync record for the connection and
    the flow name. *)
Definition createSync (nangoConnectionId : option Z) (name : string) : M Sync :=
  fun w =>
    let s := {| nango_connection_id := nangoConnectionId; sync_name := name |} in
    (Ok s, setSyncs w (syncs w ++ [s]) (schedules w)).

Definition getInstance : M (option SyncClient) := ret syncClient.

Definition startContinuous (client : SyncClient) (connection : Connection.t) (s : Sync)
           (syncConfig : option Provider.Config) (name : string)
           (syncData : SyncClientConfig) (debug : bool) : M unit :=
  if raises client connection name
  then throw (ClientError connection name)
  else modify (fun w =>
         setStarted w (started w ++
           [{| started_connection := connection; started_sync := s;
               started_config := syncConfig; started_name := name;
               started_spec := syncData; started_debug := debug |}])).

(** Modelled from the spec: [createActivityLogMessage] is not part of the
    sources; it records a structured activity entry. *)
Definition createActivityLogMessage (msg : ActivityLogMessage) : M unit :=
  modify (fun w => setActivity w (activity w ++ [msg])).

(** Truthiness of the optional [activityLogId]. *)
Definition truthyId (activityLogId : option Z) : bool :=
  match activityLogId with
  | Some n => negb (Z.eqb n 0)
  | None => false
  end.

(** The body of the loop over the connections. *)
Definition startFor (name : string) (syncConfig : option Provider.Config)
           (syncSpec : IncomingSyncConfig) (debug : bool) (connection : Connection.t)
  : M unit :=
  createdSync <- createSync (Connection.id connection) name ;;
  client <- getInstance ;;
  match client with
  | Some client =>
      startContinuous client connection createdSync syncConfig name
        {| spec := syncSpec; client_returns := models syncSpec |} debug
  | None => ret tt
  end.

Definition create (conns : list Connection.t) (name : string)
           (key : string) (env : Z) (syncSpec : IncomingSyncConfig)
           (debug : bool) (activityLogId : option Z) : M bool :=
  tryCatch
    (syncConfig <- ConfigService.getProviderConfig decryptProviderConfig key env ;;
     when (debug && truthyId activityLogId)
       (createActivityLogMessage
          {| level := LevelDebug; activity_log_id := activityLogId;
             content := BeginningIteration name (List.length conns) |}) ;;;
     forEach conns (startFor name syncConfig syncSpec debug) ;;;
     when (debug && truthyId activityLogId)
       (createActivityLogMessage
          {| level := LevelDebug; activity_log_id := activityLogId;
             content := FinishedIteration name (List.length conns) |}) ;;;
     ret true)
    (fun e =>
       createActivityLogMessage
         {| level := LevelError; activity_log_id := activityLogId;
            content := ErrorStartingSyncs name (List.length conns) e |} ;;;
       ret false).

(** The loop of [createSyncs], [success] being the variable of that name. *)
Fixpoint createSyncs_loop (syncArgs : list CreateSyncArgs) (debug : bool)
         (activityLogId : option Z) (success : bool) : M bool :=
  match syncArgs with
  | [] => ret success
  | syncToCreate :: rest =>
      result <- create (connections syncToCreate) (syncName syncToCreate)
                       (providerConfigKey syncToCreate) (environmentId syncToCreate)
                       (sync syncToCreate) debug activityLogId ;;
      createSyncs_loop rest debug activityLogId (if negb result then false else success)
  end.

Definition createSyncs (syncArgs : list CreateSyncArgs) (debug : bool)
           (activityLogId : option Z) : M bool :=
  createSyncs_loop syncArgs debug activityLogId true.

End Service.

End Orchestrator.

(** ** The equivalence of a template and an installed flow, in the words of
    the specification *)

Module FlowSpec.

Definition sameTypeAndName (I T : NangoSyncConfig) : Prop :=
  type I = type T /\ name I = name T.

(** The return-type-name sets of the two flows intersect. *)
Definition sharesReturnType (I T : NangoSyncConfig) : Prop :=
  exists model, In model (returns I) /\ In model (returns T).

(** The two flows share one identical (method, path) endpoint pair. *)
Definition sharesEndpoint (I T : NangoSyncConfig) : Prop :=
  exists endpointI endpointT method path,
    In endpointI (endpoints I) /\ In endpointT (endpoints T) /\
    In (method, path) endpointI /\ In (method, path) endpointT.

(** The three criteria as the specification words them. *)
Definition equivalent (T I : NangoSyncConfig) : Prop :=
  sameTypeAndName I T
  \/ (type T = SYNC /\ type I = SYNC /\ sharesReturnType I T)
  \/ sharesEndpoint I T.

(** The decision the loop of [hasSimilarFlow] takes on one installed flow,
    its endpoint comparison set aside. *)
Definition similar (T I : NangoSyncConfig) : bool :=
  (SyncConfigType_eqb (type I) (type T) && String.eqb (name I) (name T))
  || (SyncConfigType_eqb (type I) SYNC
      && Js.truthyStr (find (Flows.has (returns T)) (returns I))).

(** The criteria under which the handler leaves a template out: the same
    type and name, or an installed sync-type flow, whatever the type of the
    template, sharing a return-type name with it, no shared name being
    empty. *)
Definition suppresses (I T : NangoSyncConfig) : Prop :=
  sameTypeAndName I T
  \/ (type I = SYNC /\ sharesReturnType I T
      /\ ~ (In "" (returns I) /\ In "" (returns T))).

(** No installed flow comes near the template under any criterion. *)
Definition unrelated (I T : NangoSyncConfig) : Prop :=
  ~ sameTypeAndName I T
  /\ ~ (type I = SYNC /\ sharesReturnType I T)
  /\ ~ sharesEndpoint I T.

End FlowSpec.

(** ** Sample flows *)

Module Samples.

Definition contactsSync : NangoSyncConfig :=
  {| name := "contacts"; type := SYNC;
     endpoints := [[("GET", "/contacts")]];
     returns := ["Contact"]; enabled := true; id := Some 1%Z |}.

Definition createContactAction : NangoSyncConfig :=
  {| name := "create-contact"; type := ACTION;
     endpoints := [[("POST", "/contacts")]];
     returns := ["Contact"]; enabled := false; id := None |}.

Definition listCustomers : NangoSyncConfig :=
  {| name := "list-customers"; type := ACTION;
     endpoints := [[("GET", "/customers")]];
     returns := ["Customer"]; enabled := true; id := Some 2%Z |}.

Definition fetchCustomers : NangoSyncConfig :=
  {| name := "fetch-customers"; type := ACTION;
     endpoints := [[("GET", "/customers")]];
     returns := ["CustomerList"]; enabled := false; id := None |}.

Definition createCustomer : NangoSyncConfig :=
  {| name := "create-customer"; type := ACTION;
     endpoints := [[("POST", "/customers")]];
     returns := ["CustomerCreated"]; enabled := false; id := None |}.

Definition rootOnly : NangoSyncConfig :=
  {| name := "root"; type := ACTION;
     endpoints := [[("GET", "/")]];
     returns := []; enabled := false; id := None |}.

Definition installed : Flows.StandardNangoConfig :=
  {| Flows.actions := []; Flows.syncs := [contactsSync] |}.

Definition templates : Flows.StandardNangoConfig :=
  {| Flows.actions := [createContactAction; createCustomer]; Flows.syncs := [] |}.

End Samples.

(** ** Vocabulary for the properties of the endpoint presentation *)

Module EndpointSpec.

Import Endpoints.

(** The path of the endpoint has an empty first segment: there is nothing,
    or the empty string, after its first separator. *)
Definition emptyFirstSegment (endpoint : Js.Obj) : bool :=
  match Js.entries endpoint with
  | [] => false
  | entries :: _ => negb (Js.truthyStr (nth_error (Js.split "/" (snd entries)) 1))
  end.

(** An entry stems from an endpoint of its flow whose first segment is not
    empty. *)
Definition stemsFromKeptEndpoint (x : NangoSyncConfigWithEndpoint) : Prop :=
  exists e, In e (endpoints (flow x)) /\ emptyFirstSegment e = false.

(** Every entry of every group satisfies [P]. *)
Definition allEntries (P : NangoSyncConfigWithEndpoint -> Prop) (tmp : Tmp) : Prop :=
  forall g x, In g tmp -> In x (snd g) -> P x.

(** The flow is in the grouped presentation. *)
Definition presented (groups : list Group) (f : NangoSyncConfig) : Prop :=
  exists g x, In g groups /\ In x (flows g) /\ flow x = f.

(** The comparator places [a] before [b] whichever of the two it is handed
    first. *)
Definition ordersBefore (a b : NangoSyncConfigWithEndpoint) : Prop :=
  (compareFlows a b < 0)%Z /\ (compareFlows b a > 0)%Z.

Definition getCustomers : NangoSyncConfigWithEndpoint :=
  {| flow := Samples.listCustomers;
     endpoint := {| verb := "GET"; path := "/customers" |} |}.

Definition postCustomers : NangoSyncConfigWithEndpoint :=
  {| flow := Samples.createCustomer;
     endpoint := {| verb := "POST"; path := "/customers" |} |}.

End EndpointSpec.

(** ** Vocabulary for the properties of the services *)

Module ServiceSpec.

(** The configuration row is live: not soft-deleted. *)
Definition live (c : Provider.Config) : Prop := Provider.deleted c = false.

(** The soft-delete update of the configuration finds no row: none has the
    id and is live. *)
Definition noLiveConfig (id : Z) (w : World) : Prop :=
  forall c, In c (configs w) -> Provider.id c = Some id -> Provider.deleted c = true.

(** A secret is present in the configuration. *)
Definition hasSecret (c : Provider.Config) : bool :=
  Js.truthyStr (Provider.oauth_client_secret c).


(** Whether the sync-start call raises for the connection. *)
Definition raisesFor (client : option Orchestrator.SyncClient)
           (name : string) (c : Connection.t) : bool :=
  match client with
  | Some client => Orchestrator.raises client c name
  | None => false
  end.

(** The connections a request gets to: all of them up to and including the
    first for which the sync-start call raises. *)
Fixpoint attempted (client : option Orchestrator.SyncClient) (name : string)
         (conns : list Connection.t) : list Connection.t :=
  match conns with
  | [] => []
  | c :: rest => if raisesFor client name c then [c] else c :: attempted client name rest
  end.

(** The request succeeds: the sync-start call raises for none of its
    connections. *)
Definition requestSucceeds (client : option Orchestrator.SyncClient)
           (r : Orchestrator.CreateSyncArgs) : bool :=
  forallb (fun c => negb (raisesFor client (Orchestrator.syncName r) c))
          (Orchestrator.connections r).

(** The Sync record of a connection for a flow. *)
Definition syncOf (name : string) (c : Connection.t) : Sync :=
  {| nango_connection_id := Connection.id c; sync_name := name |}.

(** The Sync records a request creates. *)
Definition syncsOf (client : option Orchestrator.SyncClient)
           (r : Orchestrator.CreateSyncArgs) : list Sync :=
  map (syncOf (Orchestrator.syncName r))
      (attempted client (Orchestrator.syncName r) (Orchestrator.connections r)).

(** The error entry a failed request leaves in the activity log. *)
Definition errorEntry (activityLogId : option Z) (r : Orchestrator.CreateSyncArgs)
           (k : Connection.t) : ActivityLogMessage :=
  {| level := LevelError; activity_log_id := activityLogId;
     content := ErrorStartingSyncs (Orchestrator.syncName r)
                  (List.length (Orchestrator.connections r))
                  (ClientError k (Orchestrator.syncName r)) |}.

(** The entries a request leaves in the activity log. *)
Definition entriesOf (client : option Orchestrator.SyncClient) (debug : bool)
           (activityLogId : option Z) (r : Orchestrator.CreateSyncArgs)
  : list ActivityLogMessage :=
  let name := Orchestrator.syncName r in
  let n := List.length (Orchestrator.connections r) in
  let traced := debug && Orchestrator.truthyId activityLogId in
  (if traced
   then [{| level := LevelDebug; activity_log_id := activityLogId;
            content := BeginningIteration name n |}]
   else [])
  ++ match find (raisesFor client name) (Orchestrator.connections r) with
     | Some k => [errorEntry activityLogId r k]
     | None =>
         if traced
         then [{| level := LevelDebug; activity_log_id := activityLogId;
                  content := FinishedIteration name n |}]
         else []
     end.

End ServiceSpec.

(** ** Sample rows and a stand-in encryption manager *)

Module ServiceSamples.

Definition github : Provider.Config :=
  {| Provider.id := Some 1%Z; Provider.unique_key := "github";
     Provider.provider := "github"; Provider.environment_id := 1%Z;
     Provider.oauth_client_secret := Some "s3cret";
     Provider.oauth_client_secret_iv := None;
     Provider.oauth_client_secret_tag := None;
     Provider.deleted := false; Provider.deleted_at := None |}.

Definition unauthenticated : Provider.Config :=
  {| Provider.id := Some 2%Z; Provider.unique_key := "private-api";
     Provider.provider := "unauthenticated"; Provider.environment_id := 1%Z;
     Provider.oauth_client_secret := None;
     Provider.oauth_client_secret_iv := None;
     Provider.oauth_client_secret_tag := None;
     Provider.deleted := false; Provider.deleted_at := None |}.

Definition removed : Provider.Config :=
  {| Provider.id := Some 3%Z; Provider.unique_key := "slack";
     Provider.provider := "slack"; Provider.environment_id := 1%Z;
     Provider.oauth_client_secret := None;
     Provider.oauth_client_secret_iv := None;
     Provider.oauth_client_secret_tag := None;
     Provider.deleted := true; Provider.deleted_at := Some 10%Z |}.

Definition connection (n : Z) (key : string) : Connection.t :=
  {| Connection.id := Some n; Connection.connection_id := "account";
     Connection.provider_config_key := key; Connection.environment_id := 1%Z;
     Connection.deleted := false; Connection.deleted_at := None |}.

Definition world : World :=
  {| configs := [github; unauthenticated; removed]; nextConfigId := 4%Z;
     connections := [connection 1 "github"; connection 2 "github"; connection 3 "slack"];
     syncs := []; schedules := []; syncConfigs := []; syncFiles := [];
     started := []; activity := []; cryptoCalls := [] |}.

(** A stand-in for the encryption manager: it seals the secret of a
    configuration that holds one, stamping the initialisation vector and
    tag, and hands a configuration without secret back as it is. *)
Definition seal (c : Provider.Config) : Provider.Config :=
  if Js.truthyStr (Provider.oauth_client_secret c) then
    {| Provider.id := Provider.id c;
       Provider.unique_key := Provider.unique_key c;
       Provider.provider := Provider.provider c;
       Provider.environment_id := Provider.environment_id c;
       Provider.oauth_client_secret :=
         option_map (fun s => ("sealed:" ++ s)%string) (Provider.oauth_client_secret c);
       Provider.oauth_client_secret_iv := Some "iv";
       Provider.oauth_client_secret_tag := Some "tag";
       Provider.deleted := Provider.deleted c;
       Provider.deleted_at := Provider.deleted_at c |}
  else c.

Definition unseal (c : Provider.Config) : option Provider.Config := Some c.

Definition fixedId (size : nat) : string := "Xk3Q".

(** A client whose [startContinuous] raises for the connection with id 1. *)
Definition firstFails : Orchestrator.SyncClient :=
  {| Orchestrator.raises := fun c _ => optZ_eqb (Connection.id c) 1 |}.

Definition contactsSpec : IncomingSyncConfig :=
  {| runs := "every hour"; models := ["Contact"] |}.

Definition request : Orchestrator.CreateSyncArgs :=
  {| Orchestrator.connections := [connection 1 "github"; connection 2 "github"];
     Orchestrator.providerConfigKey := "github";
     Orchestrator.environmentId := 1%Z;
     Orchestrator.sync := contactsSpec;
     Orchestrator.syncName := "contacts" |}.

End ServiceSamples.

(** ** The selected flow ([currentFlow] of [EndpointsShow]) *)

Module CurrentFlow.

Import Endpoints.

(** [URLSearchParams]: the pairs of the query string, in order. *)
Definition SearchParams := list (string * string).

(** [searchParams.get(name)]: the first value under the name, or [null]. *)
Fixpoint getParam (searchParams : SearchParams) (name : string) : option string :=
  match searchParams with
  | [] => None
  | (k, v) :: rest => if String.eqb k name then Some v else getParam rest name
  end.

(** The loop over [flow.endpoints]; [endpoint[0]] raises on an endpoint
    object without a property. *)
Fixpoint findEndpoint (f : NangoSyncConfig) (eps : list Js.Obj) (v p : string)
  : Outcome (option NangoSyncConfigWithEndpoint) :=
  match eps with
  | [] => Returned None
  | endpointObj :: rest =>
      match Js.entries endpointObj with
      | [] => TypeError
      | endpoint :: _ =>
          if String.eqb (fst endpoint) v && String.eqb (snd endpoint) p
          then Returned (Some {| flow := f; endpoint := {| verb := v; path := p |} |})
          else findEndpoint f rest v p
      end
  end.

(** The loop over [data.flows]. *)
Fixpoint findFlow (fs : list NangoSyncConfig) (v p : string)
  : Outcome (option NangoSyncConfigWithEndpoint) :=
  match fs with
  | [] => Returned None
  | f :: rest =>
      match findEndpoint f (endpoints f) v p with
      | Returned (Some x) => Returned (Some x)
      | Returned None => findFlow rest v p
      | TypeError => TypeError
      end
  end.

(** The [currentFlow] memo; [None] is [undefined]. *)
Definition currentFlow (searchParams : SearchParams) (data : option (list NangoSyncConfig))
  : Outcome (option NangoSyncConfigWithEndpoint) :=
  match data with
  | None => Returned None
  | Some fs =>
      if Nat.leb (List.length searchParams) 0 then Returned None
      else
        let v := getParam searchParams "verb" in
        let p := getParam searchParams "path" in
        if negb (Js.truthyStr v) || negb (Js.truthyStr p) then Returned None
        else findFlow fs (match v with Some v => v | None => "" end)
                         (match p with Some p => p | None => "" end)
  end.

(** The endpoint object declares the pair first. *)
Definition declares (e : Js.Obj) (v p : string) : Prop :=
  exists rest, Js.entries e = (v, p) :: rest.

End CurrentFlow.

(** ** The provider templates ([getTemplatesFromFile]) *)

Module Templates.

Section Loader.

(** The values of a template, which the loader copies and never inspects. *)
Context {V : Type}.

(** An entry of the providers document: its [alias], when it has one, and
    its other properties in order. *)
Record Template := {
  alias : option string;
  fields : list (string * V)
}.

(** The document: provider name to entry, [None] being a [null] entry. *)
Definition Entries := list (string * option Template).

(** [fileEntries[key]], a missing key and a [null] entry reading alike. *)
Fixpoint lookup (entries : Entries) (key : string) : option Template :=
  match entries with
  | [] => None
  | (k, e) :: rest => if String.eqb k key then e else lookup rest key
  end.

(** [fileEntries[key] = value] on a key of the document. *)
Fixpoint setEntry (entries : Entries) (key : string) (value : Template) : Entries :=
  match entries with
  | [] => []
  | (k, e) :: rest =>
      if String.eqb k key then (k, Some value) :: rest
      else (k, e) :: setEntry rest key value
  end.

Fixpoint assoc (l : list (string * V)) (key : string) : option V :=
  match l with
  | [] => None
  | (k, v) :: rest => if String.eqb k key then Some v else assoc rest key
  end.

(** [{ ...a, ...b }]: the properties of [a] in their order, each with the
    value [b] gives it when [b] has it, then the properties only [b] has. *)
Definition spread (a b : list (string * V)) : list (string * V) :=
  map (fun kv => (fst kv, match assoc b (fst kv) with
                          | Some v => v
                          | None => snd kv
                          end)) a
  ++ filter (fun kv => match assoc a (fst kv) with
                       | Some _ => false
                       | None => true
                       end) b.

(** The body of the loop for one key. [aliasData] is read from the
    document as it stands; spreading a missing or [null] one adds
    nothing. *)
Definition resolveOne (fileEntries : Entries) (key : string) : Entries :=
  match lookup fileEntries key with
  | Some entry =>
      if Js.truthyStr (alias entry) then
        let aliasData :=
          lookup fileEntries (match alias entry with Some a => a | None => "" end) in
        setEntry fileEntries key
          {| alias := match aliasData with Some d => alias d | None => None end;
             fields := spread (match aliasData with Some d => fields d | None => [] end)
                              (fields entry) |}
      else fileEntries
  | None => fileEntries
  end.

(** [for (const key in fileEntries)]: the keys of the document in order,
    the document being updated in place. *)
Definition resolveAliases (fileEntries : Entries) : Entries :=
  fold_left resolveOne (map fst fileEntries) fileEntries.

(** What reading and parsing the providers file gave: an exception, or the
    document, [None] for an empty one. *)
Inductive Loaded :=
| LoadFailed
| Document (doc : option Entries).

Definition getTemplatesFromFile (loaded : Loaded) : option Entries :=
  match loaded with
  | LoadFailed => None
  | Document None => None
  | Document (Some fileEntries) => Some (resolveAliases fileEntries)
  end.

(** The entry is not an alias: it has no [alias], or an empty one. *)
Definition plain (t : Template) : Prop := Js.truthyStr (alias t) = false.

(** The target of an alias is settled, that is, stays what it is while the
    loop runs: an entry that is not an alias, or nothing. *)
Definition settled (target : option Template) : Prop :=
  match target with
  | Some t => plain t
  | None => True
  end.

(** What the loop makes of an alias entry whose target is settled. *)
Definition resolved (entry : Template) (target : option Template) : Template :=
  {| alias := match target with Some d => alias d | None => None end;
     fields := spread (match target with Some d => fields d | None => [] end)
                      (fields entry) |}.

End Loader.

Arguments Template V : clear implicits.
Arguments Entries V : clear implicits.
Arguments Loaded V : clear implicits.

End Templates.

(** ** The rest of the provider-config registry *)

Module ConfigServiceRest.

Import ConfigService.

Record CopyResult := {
  copiedToId : option Z;
  copiedFromId : Z
}.

(** Truthiness of a number that may be absent. *)
Definition truthyNumber (n : option Z) : bool :=
  match n with
  | Some n => negb (Z.eqb n 0)
  | None => false
  end.

Definition renameConfigRow (newUniqueKey : string) (c : Provider.Config) : Provider.Config :=
  {| Provider.id := Provider.id c;
     Provider.unique_key := newUniqueKey;
     Provider.provider := Provider.provider c;
     Provider.environment_id := Provider.environment_id c;
     Provider.oauth_client_secret := Provider.oauth_client_secret c;
     Provider.oauth_client_secret_iv := Provider.oauth_client_secret_iv c;
     Provider.oauth_client_secret_tag := Provider.oauth_client_secret_tag c;
     Provider.deleted := Provider.deleted c;
     Provider.deleted_at := Provider.deleted_at c |}.

(** [{ ...configWithoutId, environment_id, unique_key }] *)
Definition copyOf (fromConfig : Provider.Config) (toEnvironmentId : Z) : Provider.Config :=
  {| Provider.id := None;
     Provider.unique_key := Provider.unique_key fromConfig;
     Provider.provider := Provider.provider fromConfig;
     Provider.environment_id := toEnvironmentId;
     Provider.oauth_client_secret := Provider.oauth_client_secret fromConfig;
     Provider.oauth_client_secret_iv := Provider.oauth_client_secret_iv fromConfig;
     Provider.oauth_client_secret_tag := Provider.oauth_client_secret_tag fromConfig;
     Provider.deleted := Provider.deleted fromConfig;
     Provider.deleted_at := Provider.deleted_at fromConfig |}.

Section Service.

Variable encryptProviderConfig : Provider.Config -> Provider.Config.
Variable decryptProviderConfig : Provider.Config -> option Provider.Config.

(** [environmentService.getIdByUuid], a collaborator. *)
Variable getIdByUuid : string -> option Z.

Definition getProviderConfigByUuid (providerConfigKey environment_uuid : string)
  : M (option Provider.Config) :=
  if String.eqb providerConfigKey "" then throw (NangoError "missing_provider_config")
  else if String.eqb environment_uuid "" then throw (NangoError "missing_environment_uuid")
  else
    environment_id <- ret (getIdByUuid environment_uuid) ;;
    match environment_id with
    | Some env =>
        if negb (truthyNumber environment_id) then ret None
        else getProviderConfig decryptProviderConfig providerConfigKey env
    | None => ret None
    end.

Definition getAllNames (environment_id : Z) : M (list string) :=
  configs <- listProviderConfigs decryptProviderConfig environment_id ;;
  ret (map Provider.unique_key configs).

Definition editProviderConfigName (providerConfigKey newUniqueKey : string)
           (environment_id : Z) : M Z :=
  updateConfigs (fun c => String.eqb (Provider.unique_key c) providerConfigKey
                          && Z.eqb (Provider.environment_id c) environment_id
                          && negb (Provider.deleted c))
                (renameConfigRow newUniqueKey).

Definition getConfigIdByProvider (provider : string) (environment_id : Z)
  : M (option (option Z * string)) :=
  result <- selectConfigs (fun c => String.eqb (Provider.provider c) provider
                                    && Z.eqb (Provider.environment_id c) environment_id
                                    && negb (Provider.deleted c)) ;;
  match result with
  | [] => ret None
  | row :: _ => ret (Some (Provider.id row, Provider.unique_key row))
  end.

Definition getConfigIdByProviderConfigKey (providerConfigKey : string) (environment_id : Z)
  : M (option Z) :=
  result <- selectConfigs (fun c => String.eqb (Provider.unique_key c) providerConfigKey
                                    && Z.eqb (Provider.environment_id c) environment_id
                                    && negb (Provider.deleted c)) ;;
  match result with
  | [] => ret None
  | row :: _ => ret (Provider.id row)
  end.

Definition copyProviderConfigCreds (fromEnvironmentId toEnvironmentId : Z)
           (providerConfigKey : string) : M (option CopyResult) :=
  fromConfig <- getProviderConfig decryptProviderConfig providerConfigKey fromEnvironmentId ;;
  match fromConfig with
  | None => ret None
  | Some fromConfig =>
      match Provider.id fromConfig with
      | None => ret None
      | Some foundConfigId =>
          if negb (truthyNumber (Some foundConfigId)) then ret None
          else
            providerConfigResponse <-
              createProviderConfig encryptProviderConfig
                (copyOf fromConfig toEnvironmentId) ;;
            match providerConfigResponse with
            | None => ret None
            | Some response =>
                ret (Some {| copiedToId := Provider.id response;
                             copiedFromId := foundConfigId |})
            end
      end
  end.

End Service.

End ConfigServiceRest.

(** ** Vocabulary for the further properties *)

Module MoreSpec.

(** The store with the soft-deleted configuration rows taken out. *)
Definition liveOnly (w : World) : World :=
  setConfigs w (filter (fun c => negb (Provider.deleted c)) (configs w)) (nextConfigId w).

(** The connection row is under the provider configuration. *)
Definition under (providerConfigKey : string) (environmentId : Z) (c : Connection.t) : bool :=
  String.eqb (Connection.provider_config_key c) providerConfigKey
  && Z.eqb (Connection.environment_id c) environmentId.

(** The configuration row is a live row of the key in the environment. *)
Definition keyed (providerConfigKey : string) (environment_id : Z) (c : Provider.Config)
  : bool :=
  String.eqb (Provider.unique_key c) providerConfigKey
  && Z.eqb (Provider.environment_id c) environment_id
  && negb (Provider.deleted c).

(** The connections whose continuous sync a request starts: with a
    client, those before the first for which the sync-start call raises;
    without one, none. *)
Fixpoint startedBefore (client : Orchestrator.SyncClient) (name : string)
         (conns : list Connection.t) : list Connection.t :=
  match conns with
  | [] => []
  | c :: rest =>
      if Orchestrator.raises client c name then []
      else c :: startedBefore client name rest
  end.

Definition startedOf (client : option Orchestrator.SyncClient) (name : string)
           (conns : list Connection.t) : list Connection.t :=
  match client with
  | Some client => startedBefore client name conns
  | None => []
  end.

(** The command the sync client accepts for a connection. *)
Definition commandOf (name : string) (syncConfig : option Provider.Config)
           (syncSpec : IncomingSyncConfig) (debug : bool) (c : Connection.t) : StartedSync :=
  {| started_connection := c;
     started_sync := ServiceSpec.syncOf name c;
     started_config := syncConfig;
     started_name := name;
     started_spec := {| spec := syncSpec; client_returns := models syncSpec |};
     started_debug := debug |}.

(** What the lookup of the provider configuration gives the orchestrator:
    the first live row of the key in the environment, decrypted, or
    nothing. *)
Definition lookedUp (decryptProviderConfig : Provider.Config -> option Provider.Config)
           (providerConfigKey : string) (environmentId : Z) (w : World)
  : option Provider.Config :=
  match filter (keyed providerConfigKey environmentId) (configs w) with
  | row :: _ => decryptProviderConfig row
  | [] => None
  end.

(** The name of the group an entry of the presentation belongs in. *)
Definition groupOf (x : Endpoints.NangoSyncConfigWithEndpoint) : string :=
  match nth_error (Js.split "/" (Endpoints.path (Endpoints.endpoint x))) 1 with
  | Some p => if Endpoints.includes Endpoints.allowedGroup p then p else "others"
  | None => "others"
  end.

(** What the grouping loops keep true of [tmp]: [R] relates each group
    name to each of its entries, and no group is empty. *)
Definition grouped (R : string -> Endpoints.NangoSyncConfigWithEndpoint -> Prop)
           (tmp : Endpoints.Tmp) : Prop :=
  forall g, In g tmp -> snd g <> [] /\ forall x, In x (snd g) -> R (fst g) x.

(** The names the grouping may use. *)
Definition groupNames : list string := Endpoints.allowedGroup ++ ["others"].

(** The group names of [tmp] are distinct and among the names the grouping
    may use. *)
Definition keysOk (tmp : Endpoints.Tmp) : Prop :=
  NoDup (map fst tmp) /\ incl (map fst tmp) groupNames.

(** An entry stems from a flow of the data [fs] and an endpoint object of
    that flow which declares its verb and path first, and sits in the group
    of its first path segment. *)
Definition placed (fs : list NangoSyncConfig) (g : string)
           (x : Endpoints.NangoSyncConfigWithEndpoint) : Prop :=
  g = groupOf x
  /\ In (Endpoints.flow x) fs
  /\ exists e, In e (endpoints (Endpoints.flow x))
               /\ CurrentFlow.declares e (Endpoints.verb (Endpoints.endpoint x))
                                         (Endpoints.path (Endpoints.endpoint x)).

(** The entry the grouping makes of a flow and one of its endpoint
    objects: the flow with the verb and path the object declares first. *)
Definition entryOf (f : NangoSyncConfig) (e : Js.Obj)
  : Endpoints.NangoSyncConfigWithEndpoint :=
  {| Endpoints.flow := f;
     Endpoints.endpoint :=
       {| Endpoints.verb := match Js.entries e with p :: _ => fst p | [] => "" end;
          Endpoints.path := match Js.entries e with p :: _ => snd p | [] => "" end |} |}.

(** Some group of [tmp] holds the entry. *)
Definition present (tmp : Endpoints.Tmp) (x : Endpoints.NangoSyncConfigWithEndpoint) : Prop :=
  exists g, In g tmp /\ In x (snd g).

End MoreSpec.

(** ** A sample providers document *)

Module TemplateSamples.

Definition document : Templates.Entries string :=
  [ ("github",
     Some {| Templates.alias := None;
             Templates.fields := [("auth_mode", "OAUTH2");
                                  ("proxy", "https://api.github.com")] |});
    ("github-app",
     Some {| Templates.alias := Some "github";
             Templates.fields := [("auth_mode", "APP"); ("docs", "/github-app")] |});
    ("ghost",
     Some {| Templates.alias := Some "nowhere";
             Templates.fields := [("auth_mode", "NONE")] |}) ].

End TemplateSamples.

(** ** Further vocabulary and samples *)

Module StoreSpec.

(** The store takes the row: it has no id, or an id no row of the table
    has. *)
Definition idFree (c : Provider.Config) (w : World) : Prop :=
  forall i, Provider.id c = Some i ->
            forall row, In row (configs w) -> Provider.id row <> Some i.

End StoreSpec.

Module MoreSamples.

Definition invoicesSync : NangoSyncConfig :=
  {| name := "invoices"; type := SYNC;
     endpoints := [[("GET", "/invoices")]];
     returns := ["Invoice"]; enabled := false; id := None |}.

Definition installedBoth : Flows.StandardNangoConfig :=
  {| Flows.actions := [Samples.listCustomers]; Flows.syncs := [Samples.contactsSync] |}.

Definition templatesBoth : Flows.StandardNangoConfig :=
  {| Flows.actions := [Samples.createContactAction; Samples.createCustomer];
     Flows.syncs := [invoicesSync] |}.

Definition gitlab : Provider.Config :=
  {| Provider.id := None; Provider.unique_key := "gitlab";
     Provider.provider := "gitlab"; Provider.environment_id := 1%Z;
     Provider.oauth_client_secret := Some "t0ken";
     Provider.oauth_client_secret_iv := None;
     Provider.oauth_client_secret_tag := None;
     Provider.deleted := false; Provider.deleted_at := None |}.

Definition internalApi : Provider.Config :=
  {| Provider.id := None; Provider.unique_key := "internal-api";
     Provider.provider := "unauthenticated"; Provider.environment_id := 1%Z;
     Provider.oauth_client_secret := None;
     Provider.oauth_client_secret_iv := None;
     Provider.oauth_client_secret_tag := None;
     Provider.deleted := false; Provider.deleted_at := None |}.

Definition crmHubspot : Provider.Config :=
  {| Provider.id := Some 1%Z; Provider.unique_key := "crm";
     Provider.provider := "hubspot"; Provider.environment_id := 1%Z;
     Provider.oauth_client_secret := None;
     Provider.oauth_client_secret_iv := None;
     Provider.oauth_client_secret_tag := None;
     Provider.deleted := false; Provider.deleted_at := None |}.

Definition crmSalesforce : Provider.Config :=
  {| Provider.id := Some 2%Z; Provider.unique_key := "crm";
     Provider.provider := "salesforce"; Provider.environment_id := 2%Z;
     Provider.oauth_client_secret := None;
     Provider.oauth_client_secret_iv := None;
     Provider.oauth_client_secret_tag := None;
     Provider.deleted := false; Provider.deleted_at := None |}.

(** A store with the key "crm" live in two environments, under two
    providers. *)
Definition crmWorld : World :=
  {| configs := [crmHubspot; crmSalesforce]; nextConfigId := 3%Z;
     connections := []; syncs := []; schedules := []; syncConfigs := [];
     syncFiles := []; started := []; activity := []; cryptoCalls := [] |}.

End MoreSamples.

(** * Properties *)

(** ** Facts about the JavaScript fragments *)

Lemma SyncConfigType_eqb_eq a b : SyncConfigType_eqb a b = true <-> a = b.
Proof. destruct a, b; simpl; split; congruence. Qed.

Lemma Js_get_string_or_undefined o key :
  Js.get o key = Js.Undefined \/ exists v, Js.get o key = Js.Str v.
Proof.
  induction o as [|[k v] rest IH]; simpl; [now left|].
  destruct (String.eqb k key); [right; now exists v | exact IH].
Qed.

Lemma Js_index_never_string arr i v : Js.index arr i <> Js.Str v.
Proof.
  unfold Js.index. destruct (nth_error arr i) as [[k x]|]; discriminate.
Qed.

(** A string read from an object is never strictly equal to an element of
    the array of entries. *)
Lemma Js_lookup_never_equals_entry o key arr i :
  Js.truthy (Js.get o key) && Js.strictEq (Js.get o key) (Js.index arr i) = false.
Proof.
  destruct (Js_get_string_or_undefined o key) as [E|[v E]]; rewrite E; simpl.
  - reflexivity.
  - destruct (Js.index arr i) eqn:Ei.
    + apply andb_false_r.
    + now apply Js_index_never_string in Ei.
    + apply andb_false_r.
Qed.

(** ** The flow-resolution read path *)

Module FlowsFacts.

Import Flows FlowSpec.

Lemma containsSameEndpoint_inner_false endpointA endpointsB :
  containsSameEndpoint_inner endpointA endpointsB = false.
Proof.
  induction endpointsB as [|b rest IH]; simpl; [reflexivity|].
  now rewrite Js_lookup_never_equals_entry.
Qed.

(** The endpoint comparison of the handler finds no pair, whatever the two
    flows: it indexes the array of entries where one entry is meant. *)
Lemma containsSameEndpoint_false flowA flowB :
  containsSameEndpoint flowA flowB = false.
Proof.
  unfold containsSameEndpoint.
  induction (endpoints flowA) as [|a rest IH]; simpl; [reflexivity|].
  now rewrite containsSameEndpoint_inner_false.
Qed.

Lemma pushTemplates_filter finalFlows dbFlows templateFlows :
  pushTemplates finalFlows dbFlows templateFlows =
  finalFlows ++ filter (fun T => negb (hasSimilarFlow T dbFlows)) templateFlows.
Proof.
  revert finalFlows.
  induction templateFlows as [|T rest IH]; intros finalFlows; simpl.
  - now rewrite app_nil_r.
  - destruct (hasSimilarFlow T dbFlows); simpl; rewrite IH; [reflexivity|].
    now rewrite <- app_assoc.
Qed.

Lemma has_In modelsName model : has modelsName model = true <-> In model modelsName.
Proof.
  unfold has. rewrite existsb_exists. split.
  - intros (x & Hx & E). apply String.eqb_eq in E. now subst.
  - intros H. exists model. split; [exact H | apply String.eqb_refl].
Qed.

Lemma hasSimilarFlow_existsb T dbFlows :
  hasSimilarFlow T dbFlows = existsb (similar T) dbFlows.
Proof.
  induction dbFlows as [|I rest IH]; simpl; [reflexivity|].
  unfold similar at 1. rewrite containsSameEndpoint_false, IH.
  destruct (SyncConfigType_eqb (type I) (type T) && String.eqb (name I) (name T));
    simpl; [reflexivity|].
  now destruct (SyncConfigType_eqb (type I) SYNC
                && Js.truthyStr (find (has (returns T)) (returns I))).
Qed.

Lemma sameTypeAndName_similar I T : sameTypeAndName I T -> similar T I = true.
Proof.
  intros [Ht Hn]. unfold similar.
  apply (proj2 (SyncConfigType_eqb_eq _ _)) in Ht. apply String.eqb_eq in Hn.
  now rewrite Ht, Hn.
Qed.

Lemma find_shared_name I T :
  sharesReturnType I T ->
  exists model, find (has (returns T)) (returns I) = Some model
                /\ In model (returns I) /\ In model (returns T).
Proof.
  intros (m & HI & HT).
  destruct (find (has (returns T)) (returns I)) as [model|] eqn:E.
  - exists model. split; [reflexivity|].
    apply find_some in E. destruct E as [H1 H2]. split; [exact H1 | now apply has_In].
  - exfalso. apply (find_none _ _ E) in HI.
    apply has_In in HT. congruence.
Qed.

Lemma suppresses_similar I T : suppresses I T -> similar T I = true.
Proof.
  intros [H | (Hsync & Hshare & Hne)].
  - now apply sameTypeAndName_similar.
  - unfold similar. apply orb_true_iff. right.
    apply (proj2 (SyncConfigType_eqb_eq _ _)) in Hsync. rewrite Hsync. simpl.
    destruct (find_shared_name I T Hshare) as (model & E & HI & HT).
    rewrite E. simpl. apply negb_true_iff. apply String.eqb_neq.
    intros ->. apply Hne. now split.
Qed.

Lemma unrelated_not_similar I T : unrelated I T -> similar T I = false.
Proof.
  intros (Hn & Hs & _). unfold similar. apply orb_false_iff. split.
  - apply not_true_is_false. intros H. apply andb_true_iff in H. destruct H as [H1 H2].
    apply Hn. split; [now apply SyncConfigType_eqb_eq | now apply String.eqb_eq].
  - apply not_true_is_false. intros H. apply andb_true_iff in H. destruct H as [H1 H2].
    apply Hs. split; [now apply SyncConfigType_eqb_eq|].
    destruct (find (has (returns T)) (returns I)) as [model|] eqn:E; [|discriminate].
    apply find_some in E. destruct E as [HI HT]. exists model.
    split; [exact HI | now apply has_In].
Qed.

Lemma hasSimilarFlow_installed I dbFlows :
  In I dbFlows -> hasSimilarFlow I dbFlows = true.
Proof.
  intros H. rewrite hasSimilarFlow_existsb. apply existsb_exists.
  exists I. split; [exact H|]. apply sameTypeAndName_similar. now split.
Qed.

(** C1, as the handler has it: the catalog is the installed flows followed
    by the template flows that are kept, in their order. A template is left
    out when an installed flow has its type and name, or when a sync-type
    installed flow (whatever the type of the template) shares a return-type
    name with it, no shared name being empty. A template is kept when no
    installed flow has its type and name, no sync-type installed flow shares
    a return-type name with it, and no installed flow shares a
    (method, path) endpoint pair with it. *)
Theorem catalog_installed_then_unsuppressed_templates
        (allFlows template : option StandardNangoConfig) :
  exists keep : NangoSyncConfig -> bool,
    getIntegrationFlows allFlows template =
      flowsOf allFlows ++ filter keep (flowsOf template)
    /\ (forall T I, In I (flowsOf allFlows) -> suppresses I T -> keep T = false)
    /\ (forall T, (forall I, In I (flowsOf allFlows) -> unrelated I T) -> keep T = true).
Proof.
  exists (fun T => negb (hasSimilarFlow T (flowsOf allFlows))).
  split; [|split].
  - unfold getIntegrationFlows. apply pushTemplates_filter.
  - intros T I HI Hs. apply negb_false_iff. rewrite hasSimilarFlow_existsb.
    apply existsb_exists. exists I. split; [exact HI | now apply suppresses_similar].
  - intros T Hall. apply negb_true_iff. rewrite hasSimilarFlow_existsb.
    apply not_true_is_false. intros H. apply existsb_exists in H.
    destruct H as (I & HI & Hsim). rewrite (unrelated_not_similar I T (Hall I HI)) in Hsim.
    discriminate.
Qed.

(** C1 as worded fails: an action template that shares a return-type name
    with an installed sync is equivalent to no installed flow under the
    three criteria (it is not sync-type), and the catalog leaves it out. *)
Lemma action_template_suppressed_by_installed_sync :
  In Samples.createContactAction (flowsOf (Some Samples.templates))
  /\ (forall I, In I (flowsOf (Some Samples.installed)) ->
                ~ equivalent Samples.createContactAction I)
  /\ getIntegrationFlows (Some Samples.installed) (Some Samples.templates)
     = [Samples.contactsSync; Samples.createCustomer]
  /\ ~ In Samples.createContactAction
          (getIntegrationFlows (Some Samples.installed) (Some Samples.templates)).
Proof.
  split; [|split; [|split]]; [| |reflexivity|].
  - simpl. now left.
  - intros I [<-|[]] [[Ht _] | [(Ht & _) | (eI & eT & m & p & HI & HT & HmI & HmT)]].
    + discriminate Ht.
    + discriminate Ht.
    + simpl in HI, HT. destruct HI as [<-|[]]. destruct HT as [<-|[]].
      simpl in HmI, HmT. destruct HmI as [E1|[]]. destruct HmT as [E2|[]].
      congruence.
  - vm_compute. intros [H|[H|[]]]; discriminate H.
Qed.

(** The endpoint criterion is without effect in the handler: a template
    whose only tie to an installed flow is a shared (method, path) pair
    stays in the catalog. *)
Lemma shared_endpoint_template_not_suppressed :
  sharesEndpoint Samples.listCustomers Samples.fetchCustomers
  /\ getIntegrationFlows
       (Some {| actions := [Samples.listCustomers]; syncs := [] |})
       (Some {| actions := [Samples.fetchCustomers]; syncs := [] |})
     = [Samples.listCustomers; Samples.fetchCustomers].
Proof.
  split; [|reflexivity].
  exists [("GET", "/customers")], [("GET", "/customers")], "GET", "/customers".
  simpl. repeat split; now left.
Qed.

(** C5: whatever the templates, each installed flow, action or sync, is
    in the catalog exactly once. *)
Theorem installed_flow_appears_exactly_once
        (installed : StandardNangoConfig) (template : option StandardNangoConfig)
        (I : NangoSyncConfig) :
  NoDup (actions installed ++ syncs installed) ->
  In I (actions installed) \/ In I (syncs installed) ->
  count_occ NangoSyncConfig_eq_dec (getIntegrationFlows (Some installed) template) I = 1.
Proof.
  intros Hnd HI. apply in_or_app in HI. unfold getIntegrationFlows.
  rewrite pushTemplates_filter, count_occ_app. cbn [flowsOf].
  rewrite (proj1 (NoDup_count_occ' NangoSyncConfig_eq_dec _) Hnd I HI).
  enough (count_occ NangoSyncConfig_eq_dec
            (filter (fun T => negb (hasSimilarFlow T (actions installed ++ syncs installed)))
                    (flowsOf template)) I = 0) as -> by reflexivity.
  apply count_occ_not_In. intros H. apply filter_In in H. destruct H as [_ H].
  rewrite (hasSimilarFlow_installed I _ HI) in H. discriminate.
Qed.

Lemma installed_flow_appears_exactly_once_witness :
  getIntegrationFlows (Some MoreSamples.installedBoth) (Some MoreSamples.templatesBoth)
  = [Samples.listCustomers; Samples.contactsSync;
     Samples.createCustomer; MoreSamples.invoicesSync]
  /\ count_occ NangoSyncConfig_eq_dec
       (getIntegrationFlows (Some MoreSamples.installedBoth) (Some MoreSamples.templatesBoth))
       Samples.listCustomers = 1
  /\ count_occ NangoSyncConfig_eq_dec
       (getIntegrationFlows (Some MoreSamples.installedBoth) (Some MoreSamples.templatesBoth))
       Samples.contactsSync = 1.
Proof.
  assert (Hnd : NoDup (actions MoreSamples.installedBoth ++ syncs MoreSamples.installedBoth)).
  { simpl. constructor.
    - intros [H|[]]. discriminate H.
    - constructor; [intros [] | constructor]. }
  split; [reflexivity|]. split.
  - apply (installed_flow_appears_exactly_once MoreSamples.installedBoth
             (Some MoreSamples.templatesBoth) Samples.listCustomers Hnd).
    left. simpl. now left.
  - apply (installed_flow_appears_exactly_once MoreSamples.installedBoth
             (Some MoreSamples.templatesBoth) Samples.contactsSync Hnd).
    right. simpl. now left.
Defined.

End FlowsFacts.

(** ** The grouped endpoint presentation *)

Module EndpointsFacts.

Import Endpoints EndpointSpec.

Lemma pushToGroup_allEntries P tmp name x :
  allEntries P tmp -> P x -> allEntries P (pushToGroup tmp name x).
Proof.
  intros Htmp Hx. induction tmp as [|[g group] rest IH]; simpl.
  - intros g' y [<-|[]] [<-|[]]. exact Hx.
  - assert (Hrest : allEntries P rest).
    { intros g' y Hg Hy. apply (Htmp g' y); [now right | exact Hy]. }
    destruct (String.eqb g name).
    + intros g' y [<-|Hg] Hy.
      * simpl in Hy. apply in_app_or in Hy. destruct Hy as [Hy|[<-|[]]].
        -- apply (Htmp (g, group) y); [now left | exact Hy].
        -- exact Hx.
      * now apply (Hrest g' y).
    + intros g' y [<-|Hg] Hy.
      * apply (Htmp (g, group) y); [now left | exact Hy].
      * now apply (IH Hrest g' y).
Qed.

Lemma groupEndpoints_step f e rest tmp :
  groupEndpoints f (e :: rest) tmp =
  match Js.entries e with
  | [] => TypeError
  | entries :: _ =>
      if negb (Js.truthyStr (nth_error (Js.split "/" (snd entries)) 1))
      then groupEndpoints f rest tmp
      else groupEndpoints f rest
             (pushToGroup tmp
                (let p := match nth_error (Js.split "/" (snd entries)) 1 with
                          | Some p => p
                          | None => ""
                          end in
                 if includes allowedGroup p then p else "others")
                {| flow := f;
                   endpoint := {| verb := fst entries; path := snd entries |} |})
  end.
Proof. reflexivity. Qed.

Lemma groupEndpoints_kept f eps tmp tmp' :
  (forall e, In e eps -> In e (endpoints f)) ->
  allEntries stemsFromKeptEndpoint tmp ->
  groupEndpoints f eps tmp = Returned tmp' ->
  allEntries stemsFromKeptEndpoint tmp'.
Proof.
  revert tmp. induction eps as [|e rest IH]; intros tmp Hsub Htmp Hrun.
  - simpl in Hrun. injection Hrun as <-. exact Htmp.
  - rewrite groupEndpoints_step in Hrun.
    assert (Hrest : forall e', In e' rest -> In e' (endpoints f)).
    { intros e' He'. apply Hsub. now right. }
    destruct (Js.entries e) as [|entries others] eqn:Ee; [discriminate|].
    destruct (negb (Js.truthyStr (nth_error (Js.split "/" (snd entries)) 1))) eqn:Et.
    + now apply (IH tmp).
    + apply (IH _ Hrest) in Hrun; [exact Hrun|].
      apply pushToGroup_allEntries; [exact Htmp|].
      exists e. simpl. split; [apply Hsub; now left|].
      unfold emptyFirstSegment. now rewrite Ee.
Qed.

Lemma createGroups_kept fs tmp tmp' :
  allEntries stemsFromKeptEndpoint tmp ->
  createGroups fs tmp = Returned tmp' ->
  allEntries stemsFromKeptEndpoint tmp'.
Proof.
  revert tmp. induction fs as [|f rest IH]; intros tmp Htmp Hrun; simpl in Hrun.
  - injection Hrun as <-. exact Htmp.
  - destruct (groupEndpoints f (endpoints f) tmp) as [tmp1|] eqn:E1; [|discriminate].
    apply (IH tmp1); [|exact Hrun].
    now apply (groupEndpoints_kept f (endpoints f) tmp tmp1).
Qed.

Lemma insertSorted_perm cmp x l : Permutation (insertSorted cmp x l) (x :: l).
Proof.
  induction l as [|y rest IH]; simpl; [reflexivity|].
  destruct (Z.ltb (cmp x y) 0); [reflexivity|].
  rewrite IH. apply perm_swap.
Qed.

Lemma insertionSort_perm cmp l : Permutation (insertionSort cmp l) l.
Proof.
  unfold insertionSort.
  enough (H : forall acc, Permutation (fold_left (fun acc x => insertSorted cmp x acc) l acc)
                                      (acc ++ l)) by apply (H []).
  induction l as [|x rest IH]; intros acc; simpl.
  - now rewrite app_nil_r.
  - rewrite IH, insertSorted_perm. simpl. apply Permutation_middle.
Qed.

Section Presentation.

Variable sort :
  (NangoSyncConfigWithEndpoint -> NangoSyncConfigWithEndpoint -> Z) ->
  list NangoSyncConfigWithEndpoint -> list NangoSyncConfigWithEndpoint.

Hypothesis sort_permutes : forall cmp l, Permutation (sort cmp l) l.

Lemma byGroup_entries_kept fs groups g x :
  byGroup sort (Some fs) = Returned groups ->
  In g groups -> In x (flows g) -> stemsFromKeptEndpoint x.
Proof.
  unfold byGroup. intros Hrun Hg Hx.
  destruct (createGroups fs []) as [tmp|] eqn:E; [|discriminate].
  inversion Hrun; subst groups. unfold sortGroups in Hg.
  apply in_map_iff in Hg. destruct Hg as (g0 & <- & Hg0). simpl in Hx.
  apply (Permutation_in _ (sort_permutes compareFlows (snd g0))) in Hx.
  apply (createGroups_kept fs [] tmp) with (g := g0); try assumption.
  intros g' y [].
Qed.

(** C10: an endpoint whose path has an empty first segment is pushed to no
    group, the "others" group included, and a flow that has only such
    endpoints is in no group of the presentation; the paths "/" and the
    empty string are of that kind. *)
Theorem empty_first_segment_endpoint_dropped :
  (forall f e rest tmp,
      emptyFirstSegment e = true ->
      groupEndpoints f (e :: rest) tmp = groupEndpoints f rest tmp)
  /\ (forall fs groups f,
         byGroup sort (Some fs) = Returned groups ->
         (forall e, In e (endpoints f) -> emptyFirstSegment e = true) ->
         ~ presented groups f)
  /\ (forall v, emptyFirstSegment [(v, "/")] = true /\ emptyFirstSegment [(v, "")] = true).
Proof.
  split; [|split].
  - intros f e rest tmp He. rewrite groupEndpoints_step.
    unfold emptyFirstSegment in He.
    destruct (Js.entries e) as [|entries others]; [discriminate|].
    now rewrite He.
  - intros fs groups f Hrun Hall (g & x & Hg & Hx & Hf).
    destruct (byGroup_entries_kept fs groups g x Hrun Hg Hx) as (e & He & Hk).
    rewrite Hf in He. rewrite (Hall e He) in Hk. discriminate.
  - intros v. split; reflexivity.
Qed.

End Presentation.

Lemma empty_first_segment_endpoint_dropped_witness :
  byGroup insertionSort (Some [Samples.rootOnly; Samples.listCustomers])
  = Returned [ {| groupName := "customers"; flows := [getCustomers] |} ]
  /\ ~ presented [ {| groupName := "customers"; flows := [getCustomers] |} ]
                 Samples.rootOnly.
Proof.
  split; [reflexivity|].
  apply (proj1 (proj2 (empty_first_segment_endpoint_dropped insertionSort insertionSort_perm))
           [Samples.rootOnly; Samples.listCustomers]).
  - reflexivity.
  - intros e [<-|[]]. reflexivity.
Defined.

(** The first rule of the comparator is consistent: of two entries the one
    with fewer separators is placed first, whichever is handed first and
    whatever the verbs. *)
Lemma compareFlows_fewer_separators_first a b :
  Js.countChar "/" (path (endpoint a)) < Js.countChar "/" (path (endpoint b)) ->
  ordersBefore a b.
Proof.
  intros H. unfold ordersBefore, compareFlows.
  destruct (Nat.ltb_spec (Js.countChar "/" (path (endpoint b)))
                         (Js.countChar "/" (path (endpoint a)))); [lia|].
  destruct (Nat.ltb_spec (Js.countChar "/" (path (endpoint a)))
                         (Js.countChar "/" (path (endpoint b)))); [|lia].
  lia.
Qed.

(** C6 at GET /customers and POST /customers: the two flows land in the
    group "customers"; handed (GET, POST) the comparator answers -1, and
    handed (POST, GET) it answers -1 as well, so it does not place the GET
    entry first whatever the order of the input. *)
Theorem compareFlows_get_post_not_ordered :
  createGroups [Samples.listCustomers; Samples.createCustomer] []
  = Returned [("customers", [getCustomers; postCustomers])]
  /\ compareFlows getCustomers postCustomers = (-1)%Z
  /\ compareFlows postCustomers getCustomers = (-1)%Z
  /\ ~ ordersBefore getCustomers postCustomers.
Proof.
  split; [reflexivity|]. split; [reflexivity|]. split; [reflexivity|].
  intros [_ H]. vm_compute in H. discriminate H.
Qed.

(** With the insertion-sort engine the two entries come out in the reverse
    of the order they went in, POST first when GET was first. *)
Lemma insertionSort_get_post_follows_input :
  insertionSort compareFlows [getCustomers; postCustomers] = [postCustomers; getCustomers]
  /\ insertionSort compareFlows [postCustomers; getCustomers] = [getCustomers; postCustomers].
Proof. split; reflexivity. Qed.

End EndpointsFacts.

(** ** Facts about queries on the store *)

Lemma filter_first_In {A} (f : A -> bool) l y rest :
  filter f l = y :: rest -> In y l /\ f y = true.
Proof.
  intros E. apply filter_In. rewrite E. now left.
Qed.

Lemma filter_nil_none {A} (f : A -> bool) l x :
  filter f l = [] -> In x l -> f x = false.
Proof.
  intros E Hx. destruct (f x) eqn:Ef; [|reflexivity].
  assert (H : In x (filter f l)) by (apply filter_In; now split).
  rewrite E in H. destruct H.
Qed.

Lemma hd_filter_find {A} (f : A -> bool) l : hd_error (filter f l) = find f l.
Proof.
  induction l as [|x rest IH]; simpl; [reflexivity|].
  now destruct (f x).
Qed.

Lemma update_no_match {A} (cond : A -> bool) (set : A -> A) l :
  filter cond l = [] -> map (fun c => if cond c then set c else c) l = l.
Proof.
  induction l as [|x rest IH]; simpl; [reflexivity|].
  destruct (cond x); [discriminate|]. intros E. now rewrite IH.
Qed.

Lemma countText_zero n : String.eqb (countText n) "0" = Nat.eqb n 0.
Proof.
  destruct n as [|n]; [reflexivity|].
  simpl Nat.eqb. apply String.eqb_neq. intros E.
  assert (H : NilEmpty.uint_of_string (countText (S n)) = Some (Nat.to_uint (S n)))
    by apply NilEmpty.usu.
  rewrite E in H. simpl in H. injection H as H.
  change (Decimal.D0 Decimal.Nil) with (Nat.to_uint 0) in H.
  apply Unsigned.to_uint_inj in H. discriminate H.
Qed.

(** ** The provider-config registry *)

Module ConfigServiceFacts.

Import ConfigService ServiceSpec.

Lemma filter_first_split {A} (f : A -> bool) l x rest :
  filter f l = x :: rest ->
  exists before after,
    l = before ++ x :: after
    /\ (forall c, In c before -> f c = false)
    /\ f x = true.
Proof.
  induction l as [|y more IH]; simpl; [discriminate|].
  destruct (f y) eqn:Ey.
  - intros E. injection E as -> _. exists [], more.
    split; [reflexivity|]. split; [intros c []|exact Ey].
  - intros E. destruct (IH E) as (before & after & -> & Hb & Hx).
    exists (y :: before), after. split; [reflexivity|]. split; [|exact Hx].
    intros c [<-|Hc]; [exact Ey | now apply Hb].
Qed.

(** C9: [getProviderName] matches on [unique_key] and the deleted flag
    alone. For a key that a live row of any environment has, it answers the
    provider of the first live row with that key in the order of the
    store, whatever the environment of that row; this is the provider of
    the row asked about when the live rows with the key agree on it. The
    lookup of the same key scoped to an environment that has no such row
    finds nothing. *)
Theorem getProviderName_ignores_environment (w : World) (row : Provider.Config) :
  In row (configs w) ->
  live row ->
  (exists before first after,
      configs w = before ++ first :: after
      /\ (forall c, In c before ->
                    ~ (Provider.unique_key c = Provider.unique_key row /\ live c))
      /\ Provider.unique_key first = Provider.unique_key row
      /\ live first
      /\ getProviderName (Provider.unique_key row) w
         = (Ok (Some (Provider.provider first)), w))
  /\ ((forall row', In row' (configs w) -> live row' ->
                    Provider.unique_key row' = Provider.unique_key row ->
                    Provider.provider row' = Provider.provider row) ->
      getProviderName (Provider.unique_key row) w = (Ok (Some (Provider.provider row)), w))
  /\ (forall decryptProviderConfig environment_id,
         (forall c, In c (configs w) -> live c ->
                    Provider.unique_key c = Provider.unique_key row ->
                    Provider.environment_id c <> environment_id) ->
         getProviderConfig decryptProviderConfig (Provider.unique_key row) environment_id w
         = (Ok None, w)).
Proof.
  intros Hin Hlive. unfold live in *.
  set (cond := fun c => String.eqb (Provider.unique_key c) (Provider.unique_key row)
                        && negb (Provider.deleted c)).
  assert (Hrow : cond row = true).
  { unfold cond. now rewrite String.eqb_refl, Hlive. }
  assert (Hrun : exists row' rest, filter cond (configs w) = row' :: rest).
  { destruct (filter cond (configs w)) as [|row' rest] eqn:E.
    - rewrite (filter_nil_none cond _ row E Hin) in Hrow. discriminate.
    - now exists row', rest. }
  destruct Hrun as (row' & rest & E).
  destruct (filter_first_In cond _ _ _ E) as [Hin' Hc].
  unfold cond in Hc. apply andb_true_iff in Hc. destruct Hc as [Hk Hd].
  apply String.eqb_eq in Hk. apply negb_true_iff in Hd.
  assert (Hname : getProviderName (Provider.unique_key row) w
                  = (Ok (Some (Provider.provider row')), w)).
  { unfold getProviderName, selectConfigs. run. fold cond. now rewrite E. }
  split; [|split].
  - destruct (filter_first_split cond _ _ _ E) as (before & after & Hsplit & Hb & _).
    exists before, row', after. split; [exact Hsplit|]. split; [|now repeat split].
    intros c Hc [Hck Hcl]. specialize (Hb c Hc). unfold cond in Hb.
    rewrite Hck, String.eqb_refl, Hcl in Hb. discriminate Hb.
  - intros Hagree. rewrite Hname. now rewrite (Hagree row' Hin' Hd Hk).
  - intros dec env Hnone. unfold getProviderConfig, selectConfigs. run.
    match goal with
    | |- context [filter ?f (configs w)] =>
        destruct (filter f (configs w)) as [|c others] eqn:Ec; [reflexivity|]
    end.
    exfalso. apply filter_first_In in Ec. destruct Ec as [Hc1 Hc2].
    apply andb_true_iff in Hc2. destruct Hc2 as [Hc2 Hc3].
    apply andb_true_iff in Hc2. destruct Hc2 as [Hc2 Hc4].
    apply String.eqb_eq in Hc2. apply Z.eqb_eq in Hc4. apply negb_true_iff in Hc3.
    now apply (Hnone c Hc1 Hc3 Hc2).
Qed.

(** C9 as worded fails when the key is live in two environments under two
    providers: the row of environment 2 is live and has the key, and the
    name returned for the key is the provider of the row of environment 1,
    not its own. *)
Lemma getProviderName_answers_for_another_environment :
  In MoreSamples.crmSalesforce (configs MoreSamples.crmWorld)
  /\ live MoreSamples.crmSalesforce
  /\ Provider.unique_key MoreSamples.crmSalesforce = "crm"
  /\ Provider.environment_id MoreSamples.crmSalesforce = 2%Z
  /\ Provider.provider MoreSamples.crmSalesforce = "salesforce"
  /\ getProviderName "crm" MoreSamples.crmWorld
     = (Ok (Some "hubspot"), MoreSamples.crmWorld)
  /\ getProviderName (Provider.unique_key MoreSamples.crmSalesforce) MoreSamples.crmWorld
     <> (Ok (Some (Provider.provider MoreSamples.crmSalesforce)), MoreSamples.crmWorld).
Proof.
  split; [right; now left|]. repeat (split; [reflexivity|]).
  vm_compute. discriminate.
Qed.

Lemma getProviderName_ignores_environment_witness :
  getProviderName "github" ServiceSamples.world = (Ok (Some "github"), ServiceSamples.world)
  /\ getProviderConfig ServiceSamples.unseal "github" 2%Z ServiceSamples.world
     = (Ok None, ServiceSamples.world).
Proof.
  assert (Hin : In ServiceSamples.github (configs ServiceSamples.world)) by (now left).
  assert (Hlive : live ServiceSamples.github) by reflexivity.
  destruct (getProviderName_ignores_environment _ _ Hin Hlive) as (_ & Hown & Hscoped).
  split.
  - apply Hown. intros row' [<-|[<-|[<-|[]]]] _ Hk; try reflexivity; discriminate Hk.
  - apply Hscoped. intros c [<-|[<-|[<-|[]]]] _ Hk; try discriminate Hk.
    simpl. lia.
Defined.

(** C8: the row created for provider [provider] in environment
    [environment_id] has the bare provider name as [unique_key] when the
    environment holds no live row of that provider, and otherwise the
    provider name, a dash and the lower-cased four-character identifier of
    the generator. *)
Theorem createEmptyProviderConfig_unique_key
        (encryptProviderConfig : Provider.Config -> Provider.Config)
        (nanoid : nat -> string) (provider : string) (environment_id : Z) (w : World) :
  exists row w',
    createEmptyProviderConfig encryptProviderConfig nanoid provider environment_id w
    = (Ok row, w')
    /\ configs w' = configs w ++ [row]
    /\ Provider.provider row = provider
    /\ Provider.environment_id row = environment_id
    /\ live row
    /\ ((forall c, In c (configs w) -> Provider.provider c = provider ->
                   Provider.environment_id c = environment_id ->
                   Provider.deleted c = true) ->
        Provider.unique_key row = provider)
    /\ ((exists c, In c (configs w) /\ Provider.provider c = provider
                   /\ Provider.environment_id c = environment_id /\ live c) ->
        Provider.unique_key row
        = (provider ++ "-" ++ toLocaleLowerCase (nanoid 4))%string).
Proof.
  unfold createEmptyProviderConfig, createProviderConfig, selectConfigs, insertConfig. run.
  rewrite countText_zero.
  set (cond := fun c => String.eqb (Provider.provider c) provider
                        && Z.eqb (Provider.environment_id c) environment_id
                        && negb (Provider.deleted c)).
  eexists. eexists. split; [reflexivity|]. simpl.
  split; [reflexivity|]. split; [reflexivity|]. split; [reflexivity|].
  split; [reflexivity|]. split.
  - intros Hnone. destruct (filter cond (configs w)) as [|c rest] eqn:E; [reflexivity|].
    exfalso. apply filter_first_In in E. destruct E as [Hc1 Hc2]. unfold cond in Hc2.
    apply andb_true_iff in Hc2. destruct Hc2 as [Hc2 Hc3].
    apply andb_true_iff in Hc2. destruct Hc2 as [Hc2 Hc4].
    apply String.eqb_eq in Hc2. apply Z.eqb_eq in Hc4. apply negb_true_iff in Hc3.
    rewrite (Hnone c Hc1 Hc2 Hc4) in Hc3. discriminate.
  - intros (c & Hc1 & Hc2 & Hc3 & Hc4). unfold live in Hc4.
    destruct (filter cond (configs w)) as [|c' rest] eqn:E; [|reflexivity].
    exfalso. apply (filter_nil_none cond _ c E) in Hc1. unfold cond in Hc1.
    rewrite Hc2, Hc3, Hc4, String.eqb_refl, Z.eqb_refl in Hc1. discriminate.
Qed.

(** The two cases on the sample store: no live row of "hubspot", one live
    row of "github". *)
Lemma createEmptyProviderConfig_examples :
  option_map Provider.unique_key
    (match fst (createEmptyProviderConfig ServiceSamples.seal ServiceSamples.fixedId
                  "hubspot" 1%Z ServiceSamples.world) with
     | Ok row => Some row
     | Throw _ => None
     end) = Some "hubspot"
  /\ option_map Provider.unique_key
       (match fst (createEmptyProviderConfig ServiceSamples.seal ServiceSamples.fixedId
                     "github" 1%Z ServiceSamples.world) with
        | Ok row => Some row
        | Throw _ => None
        end) = Some "github-xk3q"
  /\ option_map Provider.unique_key
       (match fst (createEmptyProviderConfig ServiceSamples.seal ServiceSamples.fixedId
                     "slack" 1%Z ServiceSamples.world) with
        | Ok row => Some row
        | Throw _ => None
        end) = Some "slack".
Proof. repeat split; reflexivity. Qed.

(** The teardown steps that come before the commit point leave both the
    configuration rows and the connection rows as they are. *)
Lemma teardown_frame (isCloud : bool) (id environmentId : Z) (providerConfigKey : string)
      (w : World) :
  exists w3,
    (deleteSyncsByProviderConfig environmentId providerConfigKey ;;;
     when isCloud (deleteSyncFilesForConfig id environmentId) ;;;
     deleteSyncConfigByConfigId id) w = (Ok tt, w3)
    /\ configs w3 = configs w /\ connections w3 = connections w.
Proof.
  unfold deleteSyncsByProviderConfig, deleteSyncFilesForConfig, deleteSyncConfigByConfigId.
  destruct isCloud; run; eexists; (split; [reflexivity|]); split; reflexivity.
Qed.

Lemma deleteProviderConfig_run (isCloud : bool) (id environmentId : Z)
      (providerConfigKey : string) (now : Z) (w : World) :
  let target := fun c => optZ_eqb (Provider.id c) id && negb (Provider.deleted c) in
  let under := fun c => String.eqb (Connection.provider_config_key c) providerConfigKey
                        && Z.eqb (Connection.environment_id c) environmentId
                        && negb (Connection.deleted c) in
  exists w',
    deleteProviderConfig isCloud id environmentId providerConfigKey now w
    = (Ok (negb (Z.leb (Z.of_nat (List.length (filter target (configs w)))) 0)), w')
    /\ configs w' = map (fun c => if target c then deleteConfigRow now c else c) (configs w)
    /\ connections w' =
       if Z.leb (Z.of_nat (List.length (filter target (configs w)))) 0
       then connections w
       else map (fun c => if under c then deleteConnectionRow now c else c) (connections w).
Proof.
  intros target under.
  unfold deleteProviderConfig, deleteSyncsByProviderConfig, deleteSyncFilesForConfig,
    deleteSyncConfigByConfigId, updateConfigs, updateConnections.
  destruct isCloud; run; fold target;
    destruct (Z.leb (Z.of_nat (List.length (filter target (configs w)))) 0);
    simpl; eexists; (split; [reflexivity|]); split; reflexivity.
Qed.

(** C3: when the update of the configuration row finds no live row with the
    id, the deletion answers false and leaves every connection row (and
    every configuration row) as it was; connection rows change only in a
    run that answers true, in which a live configuration row with the id was
    there and none is left. *)
Theorem deleteProviderConfig_commit_point
        (isCloud : bool) (id environmentId : Z) (providerConfigKey : string) (now : Z)
        (w w' : World) (r : Result bool) :
  deleteProviderConfig isCloud id environmentId providerConfigKey now w = (r, w') ->
  (noLiveConfig id w ->
     r = Ok false /\ connections w' = connections w /\ configs w' = configs w)
  /\ (connections w' <> connections w ->
        r = Ok true
        /\ (exists c, In c (configs w) /\ Provider.id c = Some id /\ live c)
        /\ noLiveConfig id w').
Proof.
  intros Hrun.
  destruct (deleteProviderConfig_run isCloud id environmentId providerConfigKey now w)
    as (w1 & E & Hcfg & Hconn).
  rewrite E in Hrun. injection Hrun as <- <-.
  set (target := fun c => optZ_eqb (Provider.id c) id && negb (Provider.deleted c)) in *.
  split.
  - intros Hnone.
    assert (Hempty : filter target (configs w) = []).
    { destruct (filter target (configs w)) as [|c rest] eqn:Ef; [reflexivity|].
      exfalso. apply filter_first_In in Ef. destruct Ef as [Hc1 Hc2]. unfold target in Hc2.
      apply andb_true_iff in Hc2. destruct Hc2 as [Hc2 Hc3].
      unfold optZ_eqb in Hc2. destruct (Provider.id c) as [x|] eqn:Eid; [|discriminate].
      apply Z.eqb_eq in Hc2. subst x. apply negb_true_iff in Hc3.
      rewrite (Hnone c Hc1 Eid) in Hc3. discriminate. }
    rewrite Hcfg, Hconn, Hempty. simpl.
    repeat split. now apply update_no_match.
  - intros Hchanged. rewrite Hconn in Hchanged.
    destruct (Z.leb (Z.of_nat (List.length (filter target (configs w)))) 0) eqn:El;
      [now elim Hchanged|].
    split; [reflexivity|]. split.
    + destruct (filter target (configs w)) as [|c rest] eqn:Ef; [discriminate El|].
      apply filter_first_In in Ef. destruct Ef as [Hc1 Hc2]. unfold target in Hc2.
      apply andb_true_iff in Hc2. destruct Hc2 as [Hc2 Hc3].
      unfold optZ_eqb in Hc2. destruct (Provider.id c) as [x|] eqn:Eid; [|discriminate].
      apply Z.eqb_eq in Hc2. subst x. apply negb_true_iff in Hc3.
      exists c. now repeat split.
    + intros c' Hin' Hid'. rewrite Hcfg in Hin'. apply in_map_iff in Hin'.
      destruct Hin' as (c & Hc & Hin).
      change ((if target c then deleteConfigRow now c else c) = c') in Hc.
      destruct (target c) eqn:Et.
      * now subst c'.
      * subst c'. unfold target in Et. rewrite Hid' in Et. simpl in Et.
        rewrite Z.eqb_refl in Et. simpl in Et. now apply negb_false_iff in Et.
Qed.

Lemma deleteProviderConfig_commit_point_witness :
  exists w',
    deleteProviderConfig true 3 1 "slack" 20 ServiceSamples.world = (Ok false, w')
    /\ connections w' = connections ServiceSamples.world.
Proof.
  destruct (deleteProviderConfig true 3 1 "slack" 20 ServiceSamples.world) as [r w'] eqn:E.
  destruct (deleteProviderConfig_commit_point _ _ _ _ _ _ _ _ E) as [H _].
  destruct H as (Hr & Hc & _).
  - intros c [<-|[<-|[<-|[]]]] Hid; try discriminate Hid. reflexivity.
  - exists w'. rewrite Hr. now split.
Defined.

Section Crypto.

Variable encryptProviderConfig : Provider.Config -> Provider.Config.
Variable decryptProviderConfig : Provider.Config -> option Provider.Config.

Lemma decryptAll_run rows w :
  exists ds w',
    decryptAll decryptProviderConfig rows w = (Ok ds, w')
    /\ cryptoCalls w' = cryptoCalls w ++ map Decrypt rows
    /\ configs w' = configs w.
Proof.
  revert w. induction rows as [|row rest IH]; intros w.
  - exists [], w. simpl. run. now rewrite app_nil_r.
  - simpl. unfold decrypt at 1. unfold bind at 1.
    destruct (IH (setCryptoCalls w (cryptoCalls w ++ [Decrypt row])))
      as (ds & w' & E & Hc & Hf).
    unfold bind at 1. rewrite E. unfold ret.
    eexists. exists w'. split; [reflexivity|]. split.
    + rewrite Hc. simpl. now rewrite <- app_assoc.
    + rewrite Hf. reflexivity.
Qed.


End Crypto.


End ConfigServiceFacts.

(** ** The sync lifecycle orchestrator *)

Module OrchestratorFacts.

Import Orchestrator ServiceSpec.

Lemma attempted_first_raising client name before k after :
  raisesFor client name k = true ->
  (forall c, In c before -> raisesFor client name c = false) ->
  attempted client name (before ++ k :: after) = before ++ [k]
  /\ find (raisesFor client name) (before ++ k :: after) = Some k.
Proof.
  intros Hk. induction before as [|c rest IH]; intros Hbefore; simpl.
  - now rewrite Hk.
  - rewrite (Hbefore c (or_introl eq_refl)).
    destruct IH as [IH1 IH2]; [intros c' Hc'; apply Hbefore; now right|].
    now rewrite IH1, IH2.
Qed.

Lemma requestSucceeds_find client r :
  requestSucceeds client r = true
  <-> find (raisesFor client (syncName r)) (connections r) = None.
Proof.
  unfold requestSucceeds. induction (connections r) as [|c rest IH]; simpl.
  - tauto.
  - destruct (raisesFor client (syncName r) c); simpl; [|exact IH].
    split; discriminate.
Qed.

Section Service.

Variable decryptProviderConfig : Provider.Config -> option Provider.Config.
Variable syncClient : option SyncClient.

(** The loop over the connections: it creates the Sync record of each
    connection it gets to, and stops at the first for which the sync-start
    call raises. *)
Lemma forEach_startFor name syncConfig syncSpec debug conns w :
  exists w',
    forEach conns (startFor syncClient name syncConfig syncSpec debug) w
    = (match find (raisesFor syncClient name) conns with
       | Some k => Throw (ClientError k name)
       | None => Ok tt
       end, w')
    /\ syncs w' = syncs w ++ map (syncOf name) (attempted syncClient name conns)
    /\ activity w' = activity w.
Proof.
  revert w. induction conns as [|c rest IH]; intros w.
  - exists w. simpl. run. now rewrite app_nil_r.
  - simpl. unfold bind at 1. unfold startFor, createSync, getInstance. run.
    unfold raisesFor at 1 3. destruct syncClient as [client|].
    + unfold startContinuous. destruct (raises client c name) eqn:Er; run.
      * eexists. split; [reflexivity|]. simpl. now split.
      * match goal with
        | |- context [forEach rest _ ?w1] => destruct (IH w1) as (w' & E & Hs & Ha)
        end.
        exists w'. split; [exact E|]. rewrite Hs, Ha. simpl.
        split; [now rewrite <- app_assoc | reflexivity].
    + match goal with
      | |- context [forEach rest _ ?w1] => destruct (IH w1) as (w' & E & Hs & Ha)
      end.
      exists w'. split; [exact E|]. rewrite Hs, Ha. simpl.
      split; [now rewrite <- app_assoc | reflexivity].
Qed.

Lemma getProviderConfig_frame key env w :
  exists syncConfig w1,
    ConfigService.getProviderConfig decryptProviderConfig key env w = (Ok syncConfig, w1)
    /\ syncs w1 = syncs w /\ activity w1 = activity w.
Proof.
  unfold ConfigService.getProviderConfig, ConfigService.selectConfigs. run.
  destruct (filter _ (configs w)) as [|row rest].
  - now exists None, w.
  - unfold ConfigService.decrypt. eexists. eexists. split; [reflexivity|]. now split.
Qed.

(** One request: [create] answers, never throws; it answers true exactly
    when the sync-start call raised for no connection. *)
Lemma create_run (r : CreateSyncArgs) debug activityLogId w :
  exists w',
    create decryptProviderConfig syncClient (connections r) (syncName r)
           (providerConfigKey r) (environmentId r) (sync r) debug activityLogId w
    = (Ok (requestSucceeds syncClient r), w')
    /\ syncs w' = syncs w ++ syncsOf syncClient r
    /\ activity w' = activity w ++ entriesOf syncClient debug activityLogId r.
Proof.
  unfold create, tryCatch, entriesOf, syncsOf.
  destruct (getProviderConfig_frame (providerConfigKey r) (environmentId r) w)
    as (syncConfig & w1 & E1 & Hs1 & Ha1).
  unfold bind at 1. rewrite E1.
  set (traced := debug && truthyId activityLogId).
  unfold bind at 1.
  assert (Hwhen : forall msg w0, exists w2,
             when traced (createActivityLogMessage msg) w0 = (Ok tt, w2)
             /\ syncs w2 = syncs w0
             /\ activity w2 = activity w0 ++ (if traced then [msg] else [])).
  { intros msg w0. destruct traced; unfold when, createActivityLogMessage; run.
    - eexists. split; [reflexivity|]. now split.
    - exists w0. split; [reflexivity|]. split; [reflexivity | now rewrite app_nil_r]. }
  destruct (Hwhen {| level := LevelDebug; activity_log_id := activityLogId;
                     content := BeginningIteration (syncName r)
                                  (List.length (connections r)) |} w1)
    as (w2 & E2 & Hs2 & Ha2).
  rewrite E2. unfold bind at 1.
  destruct (forEach_startFor (syncName r) syncConfig (sync r) debug (connections r) w2)
    as (w3 & E3 & Hs3 & Ha3).
  rewrite E3.
  destruct (find (raisesFor syncClient (syncName r)) (connections r)) as [k|] eqn:Ef.
  - assert (Hr : requestSucceeds syncClient r = false).
    { apply not_true_is_false. intros H. apply requestSucceeds_find in H. congruence. }
    rewrite Hr. unfold createActivityLogMessage. run.
    eexists. split; [reflexivity|]. simpl.
    rewrite Hs3, Hs2, Hs1, Ha3, Ha2, Ha1. split; [reflexivity|].
    unfold errorEntry. now rewrite <- app_assoc.
  - rewrite (proj2 (requestSucceeds_find syncClient r) Ef).
    unfold bind at 1.
    destruct (Hwhen {| level := LevelDebug; activity_log_id := activityLogId;
                       content := FinishedIteration (syncName r)
                                    (List.length (connections r)) |} w3)
      as (w4 & E4 & Hs4 & Ha4).
    rewrite E4. unfold ret. exists w4. split; [reflexivity|].
    rewrite Hs4, Hs3, Hs2, Hs1, Ha4, Ha3, Ha2, Ha1. split; [reflexivity|].
    now rewrite <- app_assoc.
Qed.

Lemma createSyncs_loop_run syncArgs debug activityLogId success w :
  exists w',
    createSyncs_loop decryptProviderConfig syncClient syncArgs debug activityLogId success w
    = (Ok (success && forallb (requestSucceeds syncClient) syncArgs), w')
    /\ syncs w' = syncs w ++ flat_map (syncsOf syncClient) syncArgs
    /\ activity w'
       = activity w ++ flat_map (entriesOf syncClient debug activityLogId) syncArgs.
Proof.
  revert success w. induction syncArgs as [|r rest IH]; intros success w.
  - exists w. simpl. run. now rewrite andb_true_r, !app_nil_r.
  - simpl. unfold bind at 1.
    destruct (create_run r debug activityLogId w) as (w1 & E1 & Hs1 & Ha1).
    rewrite E1.
    destruct (IH (if negb (requestSucceeds syncClient r) then false else success) w1)
      as (w' & E & Hs & Ha).
    exists w'. split.
    + rewrite E. f_equal. f_equal.
      destruct (requestSucceeds syncClient r), success; reflexivity.
    + rewrite Hs, Ha, Hs1, Ha1. now rewrite <- !app_assoc.
Qed.

(** C4: [createSyncs] runs [create] on every request of the list in turn,
    failed or not the ones before: the Sync records of each request are
    created, and the answer is true exactly when every request succeeded,
    the success of a request being what [create] answers for it. *)
Theorem createSyncs_attempts_every_request
        (syncArgs : list CreateSyncArgs) (debug : bool) (activityLogId : option Z)
        (w : World) :
  (exists w',
      createSyncs decryptProviderConfig syncClient syncArgs debug activityLogId w
      = (Ok (forallb (requestSucceeds syncClient) syncArgs), w')
      /\ syncs w' = syncs w ++ flat_map (syncsOf syncClient) syncArgs
      /\ activity w'
         = activity w ++ flat_map (entriesOf syncClient debug activityLogId) syncArgs)
  /\ (forall r w0,
         fst (create decryptProviderConfig syncClient (connections r) (syncName r)
                     (providerConfigKey r) (environmentId r) (sync r)
                     debug activityLogId w0)
         = Ok (requestSucceeds syncClient r)).
Proof.
  split.
  - unfold createSyncs. apply createSyncs_loop_run.
  - intros r w0. destruct (create_run r debug activityLogId w0) as (w' & E & _).
    now rewrite E.
Qed.

End Service.

(** Two requests, the first of which fails on its first connection: the
    second is gone through all the same, and the answer is false. *)
Lemma createSyncs_second_request_after_failure :
  let second :=
    {| connections := [ServiceSamples.connection 3 "slack"];
       providerConfigKey := "slack"; environmentId := 1%Z;
       sync := ServiceSamples.contactsSpec; syncName := "messages" |} in
  let run := createSyncs ServiceSamples.unseal (Some ServiceSamples.firstFails)
               [ServiceSamples.request; second] false None ServiceSamples.world in
  fst run = Ok false
  /\ syncs (snd run) = [syncOf "contacts" (ServiceSamples.connection 1 "github");
                        syncOf "messages" (ServiceSamples.connection 3 "slack")]
  /\ map started_name (started (snd run)) = ["messages"]
  /\ map level (activity (snd run)) = [LevelError].
Proof. repeat split; reflexivity. Qed.

(** C2, as the orchestrator has it: when the sync-start call raises for
    connection [k] of a request, and for none before it, [createSyncs]
    answers false without throwing and the error is logged with the flow
    name and the number of connections; the connections up to and including
    [k] have their Sync record created, those after [k] in that request are
    not gone through, and the requests after it are. *)
Theorem create_stops_at_first_failing_connection
        (decryptProviderConfig : Provider.Config -> option Provider.Config)
        (client : SyncClient) (earlier later : list CreateSyncArgs) (r : CreateSyncArgs)
        (before after : list Connection.t) (k : Connection.t)
        (debug : bool) (activityLogId : option Z) (w : World) :
  connections r = before ++ k :: after ->
  raises client k (syncName r) = true ->
  (forall c, In c before -> raises client c (syncName r) = false) ->
  exists w',
    createSyncs decryptProviderConfig (Some client) (earlier ++ r :: later)
                debug activityLogId w
    = (Ok false, w')
    /\ syncs w'
       = syncs w ++ flat_map (syncsOf (Some client)) earlier
           ++ map (syncOf (syncName r)) (before ++ [k])
           ++ flat_map (syncsOf (Some client)) later
    /\ In (errorEntry activityLogId r k) (activity w').
Proof.
  intros Hconns Hk Hbefore.
  destruct (attempted_first_raising (Some client) (syncName r) before k after Hk Hbefore)
    as [Hatt Hfind].
  destruct (createSyncs_loop_run decryptProviderConfig (Some client)
              (earlier ++ r :: later) debug activityLogId true w)
    as (w' & E & Hs & Ha).
  exists w'. split; [|split].
  - unfold createSyncs. rewrite E. f_equal. f_equal. rewrite forallb_app. simpl.
    assert (Hr : requestSucceeds (Some client) r = false).
    { apply not_true_is_false. intros H. apply requestSucceeds_find in H.
      rewrite Hconns in H. congruence. }
    rewrite Hr. apply andb_false_r.
  - rewrite Hs, flat_map_app. simpl. unfold syncsOf at 2. now rewrite Hconns, Hatt.
  - rewrite Ha, flat_map_app. simpl. apply in_or_app. right.
    apply in_or_app. right. apply in_or_app. left.
    unfold entriesOf. rewrite Hconns, Hfind. apply in_or_app. right. now left.
Qed.

Lemma create_stops_at_first_failing_connection_witness :
  exists w',
    createSyncs ServiceSamples.unseal (Some ServiceSamples.firstFails)
                [ServiceSamples.request] false None ServiceSamples.world
    = (Ok false, w')
    /\ syncs w' = [syncOf "contacts" (ServiceSamples.connection 1 "github")].
Proof.
  destruct (create_stops_at_first_failing_connection
              ServiceSamples.unseal ServiceSamples.firstFails [] []
              ServiceSamples.request []
              [ServiceSamples.connection 2 "github"]
              (ServiceSamples.connection 1 "github")
              false None ServiceSamples.world)
    as (w' & E & Hs & _).
  - reflexivity.
  - reflexivity.
  - intros c [].
  - exists w'. split; [exact E | exact Hs].
Defined.

(** C2 as worded fails: the sync-start call raises for the first of two
    connections, and the second, which comes after it, is left without a
    Sync record. *)
Lemma connection_after_failure_gets_no_sync :
  raises ServiceSamples.firstFails (ServiceSamples.connection 1 "github") "contacts" = true
  /\ raises ServiceSamples.firstFails (ServiceSamples.connection 2 "github") "contacts"
     = false
  /\ fst (createSyncs ServiceSamples.unseal (Some ServiceSamples.firstFails)
            [ServiceSamples.request] false None ServiceSamples.world)
     = Ok false
  /\ ~ In (syncOf "contacts" (ServiceSamples.connection 2 "github"))
          (syncs (snd (createSyncs ServiceSamples.unseal (Some ServiceSamples.firstFails)
                         [ServiceSamples.request] false None ServiceSamples.world))).
Proof.
  split; [reflexivity|]. split; [reflexivity|]. split; [reflexivity|].
  vm_compute. intros [H|[]]. discriminate H.
Qed.

End OrchestratorFacts.

(** * Further properties of the code *)

(** ** The flow-resolution read path, continued *)

Module FlowsMore.

Import Flows FlowSpec.

Lemma hasSimilarFlow_app T l1 l2 :
  hasSimilarFlow T (l1 ++ l2) = hasSimilarFlow T l1 || hasSimilarFlow T l2.
Proof.
  rewrite !FlowsFacts.hasSimilarFlow_existsb. apply existsb_app.
Qed.

Lemma existsb_Permutation {A} (f : A -> bool) l l' :
  Permutation l l' -> existsb f l = existsb f l'.
Proof.
  induction 1 as [|x l l' _ IH|x y l|l l' l'' _ IH1 _ IH2]; simpl.
  - reflexivity.
  - now rewrite IH.
  - destruct (f x), (f y); reflexivity.
  - now rewrite IH1.
Qed.

Lemma In_catalog allFlows template T :
  In T (getIntegrationFlows allFlows template)
  <-> In T (flowsOf allFlows)
      \/ (In T (flowsOf template) /\ hasSimilarFlow T (flowsOf allFlows) = false).
Proof.
  unfold getIntegrationFlows. rewrite FlowsFacts.pushTemplates_filter, in_app_iff, filter_In.
  now rewrite negb_true_iff.
Qed.

(** X1: the endpoint comparison answers false for every two flows, so
    that whether a template is similar to an installed flow is decided by
    types, names and return-type names alone. *)
Theorem endpoint_comparison_never_matches (flowA flowB T : NangoSyncConfig)
        (dbFlows : list NangoSyncConfig) :
  containsSameEndpoint flowA flowB = false
  /\ hasSimilarFlow T dbFlows = existsb (similar T) dbFlows.
Proof.
  split.
  - apply FlowsFacts.containsSameEndpoint_false.
  - apply FlowsFacts.hasSimilarFlow_existsb.
Qed.

(** X2: with no template for the provider the catalog is the installed
    actions followed by the installed syncs; with nothing installed it is
    the template's actions followed by the template's syncs, all of them. *)
Theorem catalog_of_one_side (installed tpl : StandardNangoConfig) :
  getIntegrationFlows (Some installed) None = actions installed ++ syncs installed
  /\ getIntegrationFlows None (Some tpl) = actions tpl ++ syncs tpl
  /\ (actions installed = [] -> syncs installed = [] ->
      getIntegrationFlows (Some installed) (Some tpl) = actions tpl ++ syncs tpl).
Proof.
  assert (Hnone : forall flows, pushTemplates [] [] flows = flows).
  { intros flows. rewrite FlowsFacts.pushTemplates_filter. simpl.
    induction flows as [|T rest IH]; simpl; [reflexivity | now rewrite IH]. }
  split; [|split].
  - unfold getIntegrationFlows. simpl. reflexivity.
  - unfold getIntegrationFlows. simpl. apply Hnone.
  - intros Ea Es. unfold getIntegrationFlows. cbn [flowsOf]. rewrite Ea, Es. apply Hnone.
Qed.

Lemma catalog_of_one_side_witness :
  getIntegrationFlows (Some MoreSamples.installedBoth) None
  = [Samples.listCustomers; Samples.contactsSync]
  /\ getIntegrationFlows None (Some MoreSamples.templatesBoth)
     = [Samples.createContactAction; Samples.createCustomer; MoreSamples.invoicesSync]
  /\ getIntegrationFlows (Some {| actions := []; syncs := [] |})
                         (Some MoreSamples.templatesBoth)
     = [Samples.createContactAction; Samples.createCustomer; MoreSamples.invoicesSync].
Proof.
  split; [|split].
  - apply (proj1 (catalog_of_one_side MoreSamples.installedBoth MoreSamples.templatesBoth)).
  - apply (proj1 (proj2 (catalog_of_one_side MoreSamples.installedBoth
                           MoreSamples.templatesBoth))).
  - apply (proj2 (proj2 (catalog_of_one_side {| actions := []; syncs := [] |}
                           MoreSamples.templatesBoth))); reflexivity.
Defined.

(** X3: whether a template is left out does not depend on the order of the
    installed flows, and installing more flows never brings a template
    back. *)
Theorem suppression_order_free_and_monotone (T : NangoSyncConfig)
        (dbFlows dbFlows' more : list NangoSyncConfig) :
  Permutation dbFlows dbFlows' ->
  hasSimilarFlow T dbFlows = hasSimilarFlow T dbFlows'
  /\ (hasSimilarFlow T dbFlows = true -> hasSimilarFlow T (dbFlows' ++ more) = true).
Proof.
  intros Hperm.
  assert (E : hasSimilarFlow T dbFlows = hasSimilarFlow T dbFlows').
  { rewrite !FlowsFacts.hasSimilarFlow_existsb. now apply existsb_Permutation. }
  split; [exact E|].
  intros H. rewrite hasSimilarFlow_app, <- E, H. reflexivity.
Qed.

Lemma suppression_order_free_and_monotone_witness :
  hasSimilarFlow Samples.createContactAction [Samples.listCustomers; Samples.contactsSync]
  = hasSimilarFlow Samples.createContactAction [Samples.contactsSync; Samples.listCustomers].
Proof.
  apply (proj1 (suppression_order_free_and_monotone Samples.createContactAction
                  [Samples.listCustomers; Samples.contactsSync]
                  [Samples.contactsSync; Samples.listCustomers] []
                  (perm_swap _ _ _))).
Defined.

Lemma count_occ_filter {A} (dec : forall x y : A, {x = y} + {x <> y})
      (f : A -> bool) l x :
  count_occ dec (filter f l) x = if f x then count_occ dec l x else 0.
Proof.
  induction l as [|y rest IH]; simpl.
  - now destruct (f x).
  - destruct (f y) eqn:Ey; simpl; destruct (dec y x) as [->|Hne]; rewrite IH.
    + now rewrite Ey.
    + reflexivity.
    + now rewrite Ey.
    + reflexivity.
Qed.

(** X4: a template flow is judged against the installed flows only, not
    against the templates it comes with. A template that no installed flow
    is similar to is not among the installed flows, and is in the catalog
    as many times as it is among the template's actions and syncs:
    duplicates among the templates are kept. *)
Theorem template_judged_on_its_own (installed tpl : StandardNangoConfig)
        (T : NangoSyncConfig) :
  hasSimilarFlow T (actions installed ++ syncs installed) = false ->
  ~ In T (actions installed ++ syncs installed)
  /\ count_occ NangoSyncConfig_eq_dec
       (getIntegrationFlows (Some installed) (Some tpl)) T
     = count_occ NangoSyncConfig_eq_dec (actions tpl ++ syncs tpl) T.
Proof.
  intros Hsim.
  assert (Hout : ~ In T (actions installed ++ syncs installed)).
  { intros HT. rewrite (FlowsFacts.hasSimilarFlow_installed T _ HT) in Hsim.
    discriminate Hsim. }
  split; [exact Hout|].
  unfold getIntegrationFlows. cbn [flowsOf].
  rewrite FlowsFacts.pushTemplates_filter, count_occ_app, count_occ_filter, Hsim.
  rewrite (proj1 (count_occ_not_In NangoSyncConfig_eq_dec _ T) Hout). reflexivity.
Qed.

Lemma template_judged_on_its_own_witness :
  count_occ NangoSyncConfig_eq_dec
    (getIntegrationFlows
       (Some MoreSamples.installedBoth)
       (Some {| actions := [Samples.createCustomer; Samples.createContactAction;
                            Samples.createCustomer];
                syncs := [MoreSamples.invoicesSync] |}))
    Samples.createCustomer
  = 2.
Proof.
  rewrite (proj2 (template_judged_on_its_own MoreSamples.installedBoth
                    {| actions := [Samples.createCustomer; Samples.createContactAction;
                                   Samples.createCustomer];
                       syncs := [MoreSamples.invoicesSync] |}
                    Samples.createCustomer eq_refl)).
  reflexivity.
Defined.

(** X5: an installed action hides a template only if the template is an
    action of the same name; when every installed flow is an action, every
    sync template is in the catalog. *)
Theorem installed_actions_hide_no_sync_template
        (allFlows template : option StandardNangoConfig) (T : NangoSyncConfig) :
  (forall I, In I (flowsOf allFlows) -> type I = ACTION) ->
  In T (flowsOf template) ->
  (type T = SYNC -> In T (getIntegrationFlows allFlows template))
  /\ (~ In T (getIntegrationFlows allFlows template) ->
      exists I, In I (flowsOf allFlows) /\ type T = ACTION /\ name I = name T).
Proof.
  intros Hactions HT.
  assert (Hsim : hasSimilarFlow T (flowsOf allFlows) = true ->
                 exists I, In I (flowsOf allFlows) /\ type T = ACTION /\ name I = name T).
  { rewrite FlowsFacts.hasSimilarFlow_existsb. intros H.
    apply existsb_exists in H. destruct H as (I & HI & Hs).
    pose proof (Hactions I HI) as Ha. unfold similar in Hs. rewrite Ha in Hs.
    simpl in Hs. rewrite orb_false_r in Hs. apply andb_true_iff in Hs.
    destruct Hs as [Ht Hn]. exists I. split; [exact HI|]. split.
    - destruct (type T); [discriminate Ht | reflexivity].
    - now apply String.eqb_eq. }
  split.
  - intros Hsync. apply In_catalog. right. split; [exact HT|].
    destruct (hasSimilarFlow T (flowsOf allFlows)) eqn:E; [|reflexivity].
    destruct (Hsim eq_refl) as (I & _ & Ht & _). congruence.
  - intros Hout. apply Hsim.
    destruct (hasSimilarFlow T (flowsOf allFlows)) eqn:E; [reflexivity|].
    exfalso. apply Hout. apply In_catalog. right. now split.
Qed.

Lemma installed_actions_hide_no_sync_template_witness :
  In Samples.contactsSync
     (getIntegrationFlows (Some {| actions := [Samples.listCustomers]; syncs := [] |})
                          (Some Samples.installed)).
Proof.
  assert (Hactions : forall I,
             In I (flowsOf (Some {| actions := [Samples.listCustomers]; syncs := [] |})) ->
             type I = ACTION).
  { intros I [<-|[]]. reflexivity. }
  assert (HT : In Samples.contactsSync (flowsOf (Some Samples.installed))).
  { simpl. now left. }
  apply (proj1 (installed_actions_hide_no_sync_template _ _ _ Hactions HT)).
  reflexivity.
Defined.

End FlowsMore.

(** ** The grouped endpoint presentation, continued *)

Module EndpointsMore.

Import Endpoints EndpointSpec MoreSpec.

Lemma pushToGroup_grouped R tmp name x :
  grouped R tmp -> R name x -> grouped R (pushToGroup tmp name x).
Proof.
  intros Htmp Hx. induction tmp as [|[g group] rest IH]; simpl.
  - intros g' [<-|[]]. split; [discriminate|]. intros y [<-|[]]. exact Hx.
  - assert (Hrest : grouped R rest) by (intros g' Hg'; apply Htmp; now right).
    destruct (String.eqb_spec g name) as [->|Hne].
    + intros g' [<-|Hg']; [|now apply Hrest]. simpl. split.
      * destruct group; discriminate.
      * intros y Hy. apply in_app_or in Hy. destruct Hy as [Hy|[<-|[]]]; [|exact Hx].
        now apply (proj2 (Htmp (name, group) (or_introl eq_refl))).
    + intros g' [<-|Hg']; [apply Htmp; now left | now apply (IH Hrest)].
Qed.

Lemma pushToGroup_keys tmp name x :
  map fst (pushToGroup tmp name x)
  = if existsb (String.eqb name) (map fst tmp) then map fst tmp else map fst tmp ++ [name].
Proof.
  induction tmp as [|[g group] rest IH]; simpl; [reflexivity|].
  rewrite (String.eqb_sym name g). destruct (String.eqb g name); simpl; [reflexivity|].
  rewrite IH. now destruct (existsb (String.eqb name) (map fst rest)).
Qed.

Lemma pushToGroup_present tmp name x y :
  (exists g, In g tmp /\ In y (snd g)) \/ y = x ->
  exists g, In g (pushToGroup tmp name x) /\ In y (snd g).
Proof.
  induction tmp as [|[g group] rest IH]; simpl.
  - intros [(g & [] & _) | ->]. exists (name, [x]). split; now left.
  - destruct (String.eqb g name).
    + intros [(g' & [<-|Hg'] & Hy) | ->].
      * exists (g, group ++ [x]). split; [now left|]. simpl. apply in_or_app. now left.
      * exists g'. split; [now right | exact Hy].
      * exists (g, group ++ [x]). split; [now left|]. simpl. apply in_or_app.
        right. now left.
    + intros H.
      assert (H' : In y group \/ ((exists g', In g' rest /\ In y (snd g')) \/ y = x)).
      { destruct H as [(g' & [<-|Hg'] & Hy) | ->].
        - now left.
        - right. left. now exists g'.
        - right. now right. }
      destruct H' as [Hy|H'].
      * exists (g, group). split; [now left | exact Hy].
      * destruct (IH H') as (g' & Hg' & Hy). exists g'. split; [now right | exact Hy].
Qed.

Lemma includes_In l s : includes l s = true <-> In s l.
Proof.
  unfold includes. rewrite existsb_exists. split.
  - intros (x & Hx & E). apply String.eqb_eq in E. now subst.
  - intros H. exists s. split; [exact H | apply String.eqb_refl].
Qed.

Lemma pushToGroup_keysOk tmp name x :
  keysOk tmp -> In name groupNames -> keysOk (pushToGroup tmp name x).
Proof.
  intros [Hnd Hincl] Hname. unfold keysOk. rewrite pushToGroup_keys.
  destruct (existsb (String.eqb name) (map fst tmp)) eqn:E; [now split|].
  split.
  - apply NoDup_app; [exact Hnd | constructor; [intros [] | constructor] |].
    intros k Hk [Hk'|[]]. subst k.
    assert (existsb (String.eqb name) (map fst tmp) = true).
    { apply existsb_exists. exists name. split; [exact Hk | apply String.eqb_refl]. }
    congruence.
  - intros k Hk. apply in_app_or in Hk. destruct Hk as [Hk|[<-|[]]]; [now apply Hincl|].
    exact Hname.
Qed.

Lemma chosen_name_allowed p :
  In (if includes allowedGroup p then p else "others") groupNames.
Proof.
  unfold groupNames. apply in_or_app.
  destruct (includes allowedGroup p) eqn:E.
  - left. now apply includes_In.
  - right. now left.
Qed.

Section Loops.

Variable fs : list NangoSyncConfig.

Lemma groupEndpoints_inv f eps tmp tmp' :
  In f fs ->
  (forall e, In e eps -> In e (endpoints f)) ->
  grouped (placed fs) tmp -> keysOk tmp ->
  groupEndpoints f eps tmp = Returned tmp' ->
  grouped (placed fs) tmp' /\ keysOk tmp'.
Proof.
  intros Hf. revert tmp. induction eps as [|e rest IH]; intros tmp Hsub Hg Hk Hrun.
  - simpl in Hrun. injection Hrun as <-. now split.
  - rewrite EndpointsFacts.groupEndpoints_step in Hrun.
    assert (Hrest : forall e', In e' rest -> In e' (endpoints f)).
    { intros e' He'. apply Hsub. now right. }
    destruct (Js.entries e) as [|[v p] others] eqn:Ee; [discriminate|].
    simpl snd in Hrun. simpl fst in Hrun.
    destruct (nth_error (Js.split "/" p) 1) as [seg|] eqn:Es; simpl in Hrun.
    + destruct (String.eqb seg "") eqn:Eseg; simpl in Hrun.
      * now apply (IH tmp).
      * apply (IH _ Hrest) in Hrun; [exact Hrun | |].
        -- apply pushToGroup_grouped; [exact Hg|].
           split; [|split].
           ++ unfold groupOf. cbn [path endpoint]. now rewrite Es.
           ++ exact Hf.
           ++ exists e. split; [apply Hsub; now left|]. now exists others.
        -- apply pushToGroup_keysOk; [exact Hk | apply chosen_name_allowed].
    + now apply (IH tmp).
Qed.

Lemma createGroups_inv gs tmp tmp' :
  (forall f, In f gs -> In f fs) ->
  grouped (placed fs) tmp -> keysOk tmp ->
  createGroups gs tmp = Returned tmp' ->
  grouped (placed fs) tmp' /\ keysOk tmp'.
Proof.
  revert tmp. induction gs as [|f rest IH]; intros tmp Hsub Hg Hk Hrun; simpl in Hrun.
  - injection Hrun as <-. now split.
  - destruct (groupEndpoints f (endpoints f) tmp) as [tmp1|] eqn:E1; [|discriminate].
    destruct (groupEndpoints_inv f (endpoints f) tmp tmp1) as [Hg1 Hk1]; try assumption.
    + apply Hsub. now left.
    + auto.
    + apply (IH tmp1); try assumption. intros f' Hf'. apply Hsub. now right.
Qed.

End Loops.

Lemma groupEndpoints_complete f eps tmp tmp' :
  groupEndpoints f eps tmp = Returned tmp' ->
  (forall x, present tmp x -> present tmp' x)
  /\ (forall e, In e eps -> emptyFirstSegment e = false -> present tmp' (entryOf f e)).
Proof.
  revert tmp. induction eps as [|e rest IH]; intros tmp Hrun.
  - simpl in Hrun. injection Hrun as <-. split; [auto | intros e []].
  - rewrite EndpointsFacts.groupEndpoints_step in Hrun.
    destruct (Js.entries e) as [|entries others] eqn:Ee; [discriminate|].
    destruct (negb (Js.truthyStr (nth_error (Js.split "/" (snd entries)) 1))) eqn:Et.
    + destruct (IH tmp Hrun) as [Hold Hnew]. split; [exact Hold|].
      intros e' [<-|He'] Hkept; [|now apply Hnew].
      unfold emptyFirstSegment in Hkept. rewrite Ee, Et in Hkept. discriminate.
    + destruct (IH _ Hrun) as [Hold Hnew]. split.
      * intros x Hx. apply Hold. apply pushToGroup_present. now left.
      * intros e' [<-|He'] Hkept; [|now apply Hnew].
        apply Hold. apply pushToGroup_present. right.
        unfold entryOf. now rewrite Ee.
Qed.

Lemma createGroups_complete gs tmp tmp' :
  createGroups gs tmp = Returned tmp' ->
  (forall x, present tmp x -> present tmp' x)
  /\ (forall f e, In f gs -> In e (endpoints f) -> emptyFirstSegment e = false ->
                  present tmp' (entryOf f e)).
Proof.
  revert tmp. induction gs as [|f rest IH]; intros tmp Hrun; simpl in Hrun.
  - injection Hrun as <-. split; [auto | intros f e []].
  - destruct (groupEndpoints f (endpoints f) tmp) as [tmp1|] eqn:E1; [|discriminate].
    destruct (groupEndpoints_complete _ _ _ _ E1) as [Hold1 Hnew1].
    destruct (IH tmp1 Hrun) as [Hold Hnew]. split.
    + intros x Hx. apply Hold. now apply Hold1.
    + intros f' e [<-|Hf'] He Hkept.
      * apply Hold. now apply Hnew1.
      * now apply (Hnew f' e).
Qed.

Lemma groupEndpoints_throws f eps tmp :
  groupEndpoints f eps tmp = TypeError <-> In [] eps.
Proof.
  revert tmp. induction eps as [|e rest IH]; intros tmp.
  - simpl. split; [discriminate | intros []].
  - rewrite EndpointsFacts.groupEndpoints_step. unfold Js.entries.
    destruct e as [|entries others].
    + split; [now left | reflexivity].
    + destruct (negb (Js.truthyStr (nth_error (Js.split "/" (snd entries)) 1)));
        rewrite IH; simpl; split; try tauto; intros [H|H]; try discriminate H; exact H.
Qed.

Lemma createGroups_throws gs tmp :
  createGroups gs tmp = TypeError <-> exists f, In f gs /\ In [] (endpoints f).
Proof.
  revert tmp. induction gs as [|f rest IH]; intros tmp; simpl.
  - split; [discriminate | intros (f & [] & _)].
  - destruct (groupEndpoints f (endpoints f) tmp) as [tmp1|] eqn:E1.
    + rewrite IH. split.
      * intros (f' & Hf' & He). exists f'. split; [now right | exact He].
      * intros (f' & [Hf'|Hf'] & He).
        -- subst f'. apply (groupEndpoints_throws f (endpoints f) tmp) in He. congruence.
        -- now exists f'.
    + split; [|reflexivity]. intros _. exists f. split; [now left|].
      now apply (groupEndpoints_throws f (endpoints f) tmp).
Qed.

Section Presentation.

Variable sort :
  (NangoSyncConfigWithEndpoint -> NangoSyncConfigWithEndpoint -> Z) ->
  list NangoSyncConfigWithEndpoint -> list NangoSyncConfigWithEndpoint.

Hypothesis sort_permutes : forall cmp l, Permutation (sort cmp l) l.

(** X6: the groups of the presentation bear distinct names, each one of
    customers, invoices, payments, tickets or others, so there are at most
    five. *)
Theorem group_names_distinct_and_allowed (fs : list NangoSyncConfig) (groups : list Group) :
  byGroup sort (Some fs) = Returned groups ->
  NoDup (map groupName groups)
  /\ (forall g, In g groups -> In (groupName g) groupNames)
  /\ List.length groups <= 5.
Proof.
  unfold byGroup. intros Hrun.
  destruct (createGroups fs []) as [tmp|] eqn:E; [|discriminate].
  injection Hrun as <-.
  destruct (createGroups_inv fs fs [] tmp) as [_ [Hnd Hincl]]; try assumption.
  - auto.
  - intros g [].
  - split; [constructor | intros k []].
  - assert (Hnames : map groupName (sortGroups sort tmp) = map fst tmp).
    { unfold sortGroups. rewrite map_map. reflexivity. }
    split; [|split].
    + now rewrite Hnames.
    + intros g Hg. apply Hincl. rewrite <- Hnames. now apply in_map.
    + rewrite <- (length_map groupName), Hnames.
      apply (NoDup_incl_length Hnd Hincl).
Qed.

(** X7: no group of the presentation is empty, and each of its entries
    sits in the group of the first segment of its path (that segment when
    it is an allowed name, others if not), belongs to a flow of the data and
    carries the verb and path which an endpoint object of that flow
    declares first. *)
Theorem entries_placed_by_first_segment (fs : list NangoSyncConfig) (groups : list Group)
        (g : Group) :
  byGroup sort (Some fs) = Returned groups ->
  In g groups ->
  flows g <> []
  /\ (forall x, In x (flows g) ->
        groupName g = groupOf x
        /\ In (flow x) fs
        /\ exists e, In e (endpoints (flow x))
                     /\ CurrentFlow.declares e (verb (endpoint x)) (path (endpoint x))).
Proof.
  unfold byGroup. intros Hrun Hg.
  destruct (createGroups fs []) as [tmp|] eqn:E; [|discriminate].
  injection Hrun as <-.
  destruct (createGroups_inv fs fs [] tmp) as [Hplaced _]; try assumption.
  - auto.
  - intros g' [].
  - split; [constructor | intros k []].
  - unfold sortGroups in Hg. apply in_map_iff in Hg. destruct Hg as (g0 & <- & Hg0).
    destruct (Hplaced g0 Hg0) as [Hne Hall]. simpl. split.
    + intros Hnil. apply Hne.
      apply Permutation_nil. rewrite <- Hnil. apply sort_permutes.
    + intros x Hx. apply (Permutation_in _ (sort_permutes compareFlows (snd g0))) in Hx.
      apply (Hall x Hx).
Qed.

(** X8: every endpoint object of every flow whose path has a first
    segment is presented: some group holds the entry of that flow with the
    verb and path the object declares first. *)
Theorem kept_endpoints_all_presented (fs : list NangoSyncConfig) (groups : list Group)
        (f : NangoSyncConfig) (e : Js.Obj) :
  byGroup sort (Some fs) = Returned groups ->
  In f fs -> In e (endpoints f) -> emptyFirstSegment e = false ->
  exists g, In g groups /\ In (entryOf f e) (flows g).
Proof.
  unfold byGroup. intros Hrun Hf He Hkept.
  destruct (createGroups fs []) as [tmp|] eqn:E; [|discriminate].
  injection Hrun as <-.
  destruct (createGroups_complete fs [] tmp E) as [_ Hnew].
  destruct (Hnew f e Hf He Hkept) as (g0 & Hg0 & Hx).
  exists {| groupName := fst g0; flows := sort compareFlows (snd g0) |}. split.
  - unfold sortGroups. apply in_map_iff. now exists g0.
  - simpl. apply (Permutation_in _ (Permutation_sym (sort_permutes compareFlows (snd g0)))).
    exact Hx.
Qed.

End Presentation.

(** X9: building the presentation raises exactly when some flow of the
    data has an endpoint object without any property, whatever the sort;
    without data it returns no group. *)
Theorem byGroup_raises_on_empty_endpoint_object
        (sort : (NangoSyncConfigWithEndpoint -> NangoSyncConfigWithEndpoint -> Z) ->
                list NangoSyncConfigWithEndpoint -> list NangoSyncConfigWithEndpoint)
        (fs : list NangoSyncConfig) :
  (byGroup sort (Some fs) = TypeError <-> exists f, In f fs /\ In [] (endpoints f))
  /\ byGroup sort None = Returned [].
Proof.
  split; [|reflexivity].
  unfold byGroup. rewrite <- (createGroups_throws fs []).
  destruct (createGroups fs []); split; try discriminate; reflexivity.
Qed.

Lemma group_names_distinct_and_allowed_witness :
  byGroup insertionSort (Some [Samples.rootOnly; Samples.listCustomers; Samples.contactsSync])
  = Returned [ {| groupName := "customers"; flows := [getCustomers] |};
               {| groupName := "others";
                  flows := [ {| flow := Samples.contactsSync;
                                endpoint := {| verb := "GET"; path := "/contacts" |} |} ] |} ]
  /\ NoDup ["customers"; "others"].
Proof.
  split; [reflexivity|].
  apply (proj1 (group_names_distinct_and_allowed insertionSort
                  [Samples.rootOnly; Samples.listCustomers; Samples.contactsSync] _ eq_refl)).
Defined.

Lemma entries_placed_by_first_segment_witness :
  groupOf getCustomers = "customers" /\ In (flow getCustomers) [Samples.listCustomers].
Proof.
  destruct (entries_placed_by_first_segment insertionSort EndpointsFacts.insertionSort_perm
              [Samples.listCustomers] _
              {| groupName := "customers"; flows := [getCustomers] |} eq_refl)
    as [_ H].
  - now left.
  - destruct (H getCustomers (or_introl eq_refl)) as (Hg & Hf & _).
    split; [now rewrite <- Hg | exact Hf].
Defined.

Lemma kept_endpoints_all_presented_witness :
  exists g,
    In g [ {| groupName := "customers"; flows := [getCustomers] |} ]
    /\ In getCustomers (flows g).
Proof.
  apply (kept_endpoints_all_presented insertionSort EndpointsFacts.insertionSort_perm
           [Samples.rootOnly; Samples.listCustomers] _
           Samples.listCustomers [("GET", "/customers")] eq_refl).
  - right. now left.
  - now left.
  - reflexivity.
Defined.

(** X10: the comparator answers 1 or -1 and never 0; handed the same entry
    twice it answers -1. *)
Theorem compareFlows_never_zero (a b : NangoSyncConfigWithEndpoint) :
  (compareFlows a b = 1%Z \/ compareFlows a b = (-1)%Z)
  /\ compareFlows a a = (-1)%Z.
Proof.
  split.
  - unfold compareFlows.
    repeat match goal with
           | |- context [if ?c then _ else _] => destruct c
           end; auto.
  - unfold compareFlows. rewrite Nat.ltb_irrefl.
    repeat match goal with
           | |- context [String.eqb ?x ?y] => destruct (String.eqb_spec x y)
           end; simpl; try congruence;
      unfold Js.gtStr;
      destruct (String.compare (path (endpoint a)) (path (endpoint a))) eqn:E;
      try reflexivity.
    all: pose proof (String.compare_antisym (path (endpoint a)) (path (endpoint a))) as H;
      rewrite E in H; discriminate H.
Qed.

(** X11: of two entries the one whose path has fewer separators is placed
    first, whichever of the two the comparator is handed first and whatever
    their verbs and paths otherwise. *)
Theorem fewer_separators_placed_first (a b : NangoSyncConfigWithEndpoint) :
  Js.countChar "/" (path (endpoint a)) < Js.countChar "/" (path (endpoint b)) ->
  compareFlows a b = (-1)%Z /\ compareFlows b a = 1%Z.
Proof.
  intros H. unfold compareFlows.
  destruct (Nat.ltb_spec (Js.countChar "/" (path (endpoint b)))
                         (Js.countChar "/" (path (endpoint a)))) as [Hlt|Hge]; [lia|].
  destruct (Nat.ltb_spec (Js.countChar "/" (path (endpoint a)))
                         (Js.countChar "/" (path (endpoint b)))) as [Hlt|Hge']; [|lia].
  now split.
Qed.

Lemma fewer_separators_placed_first_witness :
  compareFlows getCustomers
    {| flow := Samples.listCustomers;
       endpoint := {| verb := "DELETE"; path := "/customers/id" |} |} = (-1)%Z
  /\ compareFlows
       {| flow := Samples.listCustomers;
          endpoint := {| verb := "DELETE"; path := "/customers/id" |} |}
       getCustomers = 1%Z.
Proof.
  apply fewer_separators_placed_first. simpl. lia.
Defined.

(** X12: two entries with the same verb and as many separators, but
    different paths, are placed by path, the lesser first, whichever of the
    two the comparator is handed first. *)
Theorem compareFlows_same_verb_by_path (a b : NangoSyncConfigWithEndpoint) :
  verb (endpoint a) = verb (endpoint b) ->
  Js.countChar "/" (path (endpoint a)) = Js.countChar "/" (path (endpoint b)) ->
  path (endpoint a) <> path (endpoint b) ->
  (String.compare (path (endpoint a)) (path (endpoint b)) = Lt -> ordersBefore a b)
  /\ (String.compare (path (endpoint a)) (path (endpoint b)) = Gt -> ordersBefore b a)
  /\ (ordersBefore a b \/ ordersBefore b a).
Proof.
  intros Hv Hn Hp.
  assert (Hcmp : forall x y,
             verb (endpoint x) = verb (endpoint y) ->
             Js.countChar "/" (path (endpoint x)) = Js.countChar "/" (path (endpoint y)) ->
             compareFlows x y
             = if Js.gtStr (path (endpoint x)) (path (endpoint y)) then 1%Z else (-1)%Z).
  { intros x y Hxy Hxn. unfold compareFlows. rewrite Hxy, Hxn, Nat.ltb_irrefl.
    repeat match goal with
           | |- context [String.eqb ?s ?t] => destruct (String.eqb_spec s t)
           end; simpl; try reflexivity; congruence. }
  assert (Hlt : forall x y,
             verb (endpoint x) = verb (endpoint y) ->
             Js.countChar "/" (path (endpoint x)) = Js.countChar "/" (path (endpoint y)) ->
             String.compare (path (endpoint x)) (path (endpoint y)) = Lt ->
             ordersBefore x y).
  { intros x y Hxy Hxn Hc. unfold ordersBefore.
    rewrite (Hcmp x y Hxy Hxn), (Hcmp y x (eq_sym Hxy) (eq_sym Hxn)).
    unfold Js.gtStr. rewrite Hc.
    rewrite String.compare_antisym, Hc. simpl. lia. }
  split; [|split].
  - now apply Hlt.
  - intros Hc. apply Hlt; auto.
    rewrite String.compare_antisym, Hc. reflexivity.
  - destruct (String.compare (path (endpoint a)) (path (endpoint b))) eqn:Hc.
    + apply String.compare_eq_iff in Hc. contradiction.
    + left. now apply Hlt.
    + right. apply Hlt; auto. rewrite String.compare_antisym, Hc. reflexivity.
Qed.

Lemma compareFlows_same_verb_by_path_witness :
  ordersBefore
    {| flow := Samples.contactsSync;
       endpoint := {| verb := "GET"; path := "/contacts" |} |}
    getCustomers.
Proof.
  apply (proj1 (compareFlows_same_verb_by_path
                  {| flow := Samples.contactsSync;
                     endpoint := {| verb := "GET"; path := "/contacts" |} |}
                  getCustomers eq_refl eq_refl ltac:(discriminate))).
  reflexivity.
Defined.

End EndpointsMore.

(** ** The selected flow *)

Module CurrentFlowFacts.

Import Endpoints CurrentFlow.

Lemma findEndpoint_found f eps v p x :
  findEndpoint f eps v p = Returned (Some x) ->
  x = {| flow := f; endpoint := {| verb := v; path := p |} |}
  /\ exists e, In e eps /\ declares e v p.
Proof.
  induction eps as [|e rest IH]; simpl; [discriminate|].
  destruct (Js.entries e) as [|[k s] others] eqn:Ee; [discriminate|]. simpl.
  destruct (String.eqb_spec k v) as [->|Hk]; simpl.
  - destruct (String.eqb_spec s p) as [->|Hs].
    + intros H. injection H as <-. split; [reflexivity|].
      exists e. split; [now left | now exists others].
    + intros H. destruct (IH H) as (Hx & e' & He' & Hd).
      split; [exact Hx|]. exists e'. split; [now right | exact Hd].
  - intros H. destruct (IH H) as (Hx & e' & He' & Hd).
    split; [exact Hx|]. exists e'. split; [now right | exact Hd].
Qed.

Lemma findEndpoint_none f eps v p :
  ~ In [] eps ->
  (findEndpoint f eps v p = Returned None <-> forall e, In e eps -> ~ declares e v p)
  /\ findEndpoint f eps v p <> TypeError.
Proof.
  induction eps as [|e rest IH]; intros Hne; simpl.
  - split; [|discriminate]. split; [intros _ e [] | reflexivity].
  - assert (Hrest : ~ In [] rest) by (intros H; apply Hne; now right).
    destruct (IH Hrest) as [IH1 IH2].
    unfold Js.entries. destruct e as [|[k s] others]; [exfalso; apply Hne; now left|].
    simpl. destruct (String.eqb_spec k v) as [->|Hk]; simpl.
    + destruct (String.eqb_spec s p) as [->|Hs].
      * split; [|discriminate]. split; [discriminate|].
        intros H. exfalso. apply (H ((v, p) :: others)); [now left | now exists others].
      * split; [|exact IH2]. rewrite IH1. split.
        -- intros H e [<-|He]; [|now apply H]. intros (r & Er). injection Er as E1 E2.
           congruence.
        -- intros H e He. apply H. now right.
    + split; [|exact IH2]. rewrite IH1. split.
      * intros H e [<-|He]; [|now apply H]. intros (r & Er). injection Er as E1 E2.
        congruence.
      * intros H e He. apply H. now right.
Qed.

Lemma findFlow_found fs v p x :
  findFlow fs v p = Returned (Some x) ->
  In (flow x) fs
  /\ endpoint x = {| verb := v; path := p |}
  /\ exists e, In e (endpoints (flow x)) /\ declares e v p.
Proof.
  induction fs as [|f rest IH]; simpl; [discriminate|].
  destruct (findEndpoint f (endpoints f) v p) as [[y|]|] eqn:E; [| |discriminate].
  - intros H. injection H as <-. apply findEndpoint_found in E.
    destruct E as (-> & e & He & Hd). simpl. split; [now left|].
    split; [reflexivity|]. now exists e.
  - intros H. destruct (IH H) as (H1 & H2 & H3). split; [now right|]. now split.
Qed.

Lemma findFlow_none fs v p :
  (forall f, In f fs -> ~ In [] (endpoints f)) ->
  (findFlow fs v p = Returned None
   <-> forall f e, In f fs -> In e (endpoints f) -> ~ declares e v p)
  /\ findFlow fs v p <> TypeError.
Proof.
  induction fs as [|f rest IH]; intros Hne; simpl.
  - split; [|discriminate]. split; [intros _ f e [] | reflexivity].
  - assert (Hrest : forall f', In f' rest -> ~ In [] (endpoints f')).
    { intros f' Hf'. apply Hne. now right. }
    destruct (IH Hrest) as [IH1 IH2].
    destruct (findEndpoint_none f (endpoints f) v p (Hne f (or_introl eq_refl)))
      as [E1 E2].
    destruct (findEndpoint f (endpoints f) v p) as [[y|]|] eqn:E.
    + split; [|discriminate]. split; [discriminate|].
      intros H. exfalso. apply findEndpoint_found in E. destruct E as (_ & e & He & Hd).
      now apply (H f e (or_introl eq_refl) He).
    + split; [|exact IH2]. rewrite IH1. split.
      * intros H f' e [<-|Hf'] He; [|now apply (H f' e)].
        now apply (proj1 E1 eq_refl).
      * intros H f' e Hf'. apply H. now right.
    + now elim E2.
Qed.

(** X13: the flow the memo selects is a flow of the data, carries the verb
    and path of the query, both non-empty, and has an endpoint object that
    declares that pair first; without data, or without a non-empty verb or
    path in the query, nothing is selected. *)
Theorem currentFlow_selects_declared_pair
        (searchParams : SearchParams) (data : option (list NangoSyncConfig)) :
  (forall x, currentFlow searchParams data = Returned (Some x) ->
     exists fs, data = Some fs
       /\ In (flow x) fs
       /\ getParam searchParams "verb" = Some (verb (endpoint x))
       /\ getParam searchParams "path" = Some (path (endpoint x))
       /\ verb (endpoint x) <> "" /\ path (endpoint x) <> ""
       /\ exists e, In e (endpoints (flow x))
                    /\ declares e (verb (endpoint x)) (path (endpoint x)))
  /\ (data = None \/ Js.truthyStr (getParam searchParams "verb") = false
      \/ Js.truthyStr (getParam searchParams "path") = false ->
      currentFlow searchParams data = Returned None).
Proof.
  split.
  - intros x Hrun. unfold currentFlow in Hrun.
    destruct data as [fs|]; [|discriminate]. exists fs. split; [reflexivity|].
    destruct (Nat.leb (List.length searchParams) 0); [discriminate|].
    destruct (getParam searchParams "verb") as [v|]; [|discriminate].
    destruct (getParam searchParams "path") as [p|]; simpl in Hrun;
      [|destruct (negb (negb (v =? ""))); discriminate].
    destruct (String.eqb_spec v "") as [->|Hv]; simpl in Hrun; [discriminate|].
    destruct (String.eqb p "") eqn:Ep; simpl in Hrun; [discriminate|].
    apply String.eqb_neq in Ep.
    apply findFlow_found in Hrun. destruct Hrun as (Hin & He & e & Hie & Hd).
    rewrite He. simpl. repeat split; try assumption. now exists e.
  - unfold currentFlow. intros [->|[H|H]]; [reflexivity| |].
    + destruct data; [|reflexivity].
      destruct (Nat.leb (List.length searchParams) 0); [reflexivity|].
      now rewrite H.
    + destruct data; [|reflexivity].
      destruct (Nat.leb (List.length searchParams) 0); [reflexivity|].
      rewrite H. simpl. now rewrite orb_true_r.
Qed.

Lemma getParam_some_nonempty searchParams name v :
  getParam searchParams name = Some v -> Nat.leb (List.length searchParams) 0 = false.
Proof. destruct searchParams; [discriminate | reflexivity]. Qed.

(** X14: when no endpoint object of the data is without property, a query
    with a non-empty verb and path selects a flow exactly when some flow
    has an endpoint object declaring that pair first, and selects nothing
    otherwise; it does not raise. *)
Theorem currentFlow_finds_declared_pair
        (searchParams : SearchParams) (fs : list NangoSyncConfig) (v p : string) :
  (forall f, In f fs -> ~ In [] (endpoints f)) ->
  getParam searchParams "verb" = Some v -> v <> "" ->
  getParam searchParams "path" = Some p -> p <> "" ->
  ((exists x, currentFlow searchParams (Some fs) = Returned (Some x))
   <-> exists f e, In f fs /\ In e (endpoints f) /\ declares e v p)
  /\ (currentFlow searchParams (Some fs) = Returned None
      <-> forall f e, In f fs -> In e (endpoints f) -> ~ declares e v p).
Proof.
  intros Hne Hv Hvn Hp Hpn.
  assert (E : currentFlow searchParams (Some fs) = findFlow fs v p).
  { unfold currentFlow. rewrite (getParam_some_nonempty _ _ _ Hv), Hv, Hp. simpl.
    apply String.eqb_neq in Hvn, Hpn. now rewrite Hvn, Hpn. }
  rewrite E. destruct (findFlow_none fs v p Hne) as [Hnone Hok].
  split; [|exact Hnone]. split.
  - intros (x & Hx). apply findFlow_found in Hx. destruct Hx as (Hin & _ & e & He & Hd).
    now exists (flow x), e.
  - intros (f & e & Hf & He & Hd).
    destruct (findFlow fs v p) as [[x|]|] eqn:Ef.
    + now exists x.
    + exfalso. now apply (proj1 Hnone eq_refl f e).
    + now elim Hok.
Qed.

Lemma currentFlow_finds_declared_pair_witness :
  currentFlow [("verb", "GET"); ("path", "/")] (Some [Samples.listCustomers; Samples.rootOnly])
  = Returned (Some {| flow := Samples.rootOnly;
                      endpoint := {| verb := "GET"; path := "/" |} |})
  /\ exists f e, In f [Samples.listCustomers; Samples.rootOnly]
                 /\ In e (endpoints f) /\ declares e "GET" "/".
Proof.
  split; [reflexivity|].
  apply (proj1 (currentFlow_finds_declared_pair [("verb", "GET"); ("path", "/")]
                  [Samples.listCustomers; Samples.rootOnly] "GET" "/"
                  ltac:(intros f [<-|[<-|[]]] [H|[]]; discriminate H)
                  eq_refl ltac:(discriminate) eq_refl ltac:(discriminate))).
  eexists. reflexivity.
Defined.

End CurrentFlowFacts.

(** ** The provider-config registry, continued *)

Module ConfigServiceMore.

Import ConfigService ConfigServiceRest ServiceSpec MoreSpec.

Lemma filter_map_frame {A} (f : A -> bool) (g : A -> A) l :
  (forall c, In c l -> g c = c \/ (f c = false /\ f (g c) = false)) ->
  filter f (map g l) = filter f l.
Proof.
  induction l as [|x rest IH]; intros H; simpl; [reflexivity|].
  rewrite IH by (intros c Hc; apply H; now right).
  destruct (H x (or_introl eq_refl)) as [E|[E1 E2]].
  - now rewrite E.
  - now rewrite E1, E2.
Qed.

Lemma filter_narrow {A} (f g : A -> bool) l :
  (forall c, f c = true -> g c = true) -> filter f (filter g l) = filter f l.
Proof.
  intros H. induction l as [|x rest IH]; simpl; [reflexivity|].
  destruct (g x) eqn:Eg; simpl; rewrite IH; [reflexivity|].
  destruct (f x) eqn:Ef; [|reflexivity]. rewrite (H x Ef) in Eg. discriminate.
Qed.

Lemma filter_app_last {A} (f : A -> bool) l x :
  filter f l = [] -> f x = true -> filter f (l ++ [x]) = [x].
Proof.
  intros E Hx. rewrite filter_app, E. simpl. now rewrite Hx.
Qed.

Section Reads.

Variable decryptProviderConfig : Provider.Config -> option Provider.Config.

(** What [decryptAll] returns. *)
Lemma decryptAll_fst rows w :
  fst (decryptAll decryptProviderConfig rows w)
  = Ok (flat_map (fun row => match decryptProviderConfig row with
                             | Some c => [c]
                             | None => []
                             end) rows).
Proof.
  revert w. induction rows as [|row rest IH]; intros w; [reflexivity|].
  simpl. unfold decrypt at 1. unfold bind at 1. unfold bind at 1.
  specialize (IH (setCryptoCalls w (cryptoCalls w ++ [Decrypt row]))).
  destruct (decryptAll decryptProviderConfig rest _) as [[ds|e] w']; simpl in IH.
  - injection IH as ->. unfold ret. simpl.
    now destruct (decryptProviderConfig row).
  - discriminate IH.
Qed.

Lemma getProviderConfig_fst key env w :
  fst (getProviderConfig decryptProviderConfig key env w)
  = Ok (match filter (keyed key env) (configs w) with
        | row :: _ => decryptProviderConfig row
        | [] => None
        end).
Proof.
  unfold getProviderConfig, selectConfigs. run. fold (keyed key env).
  now destruct (filter (keyed key env) (configs w)).
Qed.

Lemma getById_fst id w :
  fst (getById decryptProviderConfig id w)
  = Ok (match filter (fun c => optZ_eqb (Provider.id c) id && negb (Provider.deleted c))
                     (configs w) with
        | row :: _ => decryptProviderConfig row
        | [] => None
        end).
Proof.
  unfold getById, selectConfigs. run.
  now destruct (filter _ (configs w)).
Qed.

(** X16: soft-deleted rows are invisible to the reads: each read answers
    on the store as it would with the deleted configuration rows taken
    out. *)
Theorem reads_ignore_deleted_rows (w : World) :
  (forall id, fst (getById decryptProviderConfig id w)
              = fst (getById decryptProviderConfig id (liveOnly w)))
  /\ (forall key, fst (getProviderName key w) = fst (getProviderName key (liveOnly w)))
  /\ (forall key env, fst (getProviderConfig decryptProviderConfig key env w)
                      = fst (getProviderConfig decryptProviderConfig key env (liveOnly w)))
  /\ (forall env, fst (listProviderConfigs decryptProviderConfig env w)
                  = fst (listProviderConfigs decryptProviderConfig env (liveOnly w)))
  /\ (forall env provider,
         fst (listProviderConfigsByProvider decryptProviderConfig env provider w)
         = fst (listProviderConfigsByProvider decryptProviderConfig env provider
                  (liveOnly w))).
Proof.
  assert (Hlive : forall f : Provider.Config -> bool,
             filter (fun c => f c && negb (Provider.deleted c))
                    (filter (fun c => negb (Provider.deleted c)) (configs w))
             = filter (fun c => f c && negb (Provider.deleted c)) (configs w)).
  { intros f. apply filter_narrow. intros c H. apply andb_true_iff in H. tauto. }
  split; [|split; [|split; [|split]]].
  - intros id. rewrite !getById_fst. simpl.
    now rewrite (Hlive (fun c => optZ_eqb (Provider.id c) id)).
  - intros key. unfold getProviderName, selectConfigs. run.
    rewrite (Hlive (fun c => String.eqb (Provider.unique_key c) key)).
    clear Hlive. destruct (filter _ (configs w)); reflexivity.
  - intros key env. rewrite !getProviderConfig_fst. unfold keyed. simpl.
    now rewrite (Hlive (fun c => String.eqb (Provider.unique_key c) key
                                 && Z.eqb (Provider.environment_id c) env)).
  - intros env. unfold listProviderConfigs, selectConfigs. run.
    rewrite !decryptAll_fst.
    now rewrite (Hlive (fun c => Z.eqb (Provider.environment_id c) env)).
  - intros env provider. unfold listProviderConfigsByProvider, selectConfigs. run.
    rewrite !decryptAll_fst.
    now rewrite (Hlive (fun c => Z.eqb (Provider.environment_id c) env
                                 && String.eqb (Provider.provider c) provider)).
Qed.

(** X23: when decryption keeps the key of a row, every name [getAllNames]
    lists for an environment is the key of a live row of that environment,
    and [getProviderName] resolves it. *)
Theorem listed_names_resolve (environment_id : Z) (w : World) (names : list string)
        (n : string) :
  (forall c d, decryptProviderConfig c = Some d ->
               Provider.unique_key d = Provider.unique_key c) ->
  fst (getAllNames decryptProviderConfig environment_id w) = Ok names ->
  In n names ->
  (exists row, In row (configs w) /\ live row
               /\ Provider.environment_id row = environment_id
               /\ Provider.unique_key row = n)
  /\ exists p, fst (getProviderName n w) = Ok (Some p).
Proof.
  intros Hkey Hrun Hn.
  assert (Hrow : exists row, In row (configs w) /\ live row
                             /\ Provider.environment_id row = environment_id
                             /\ Provider.unique_key row = n).
  { unfold getAllNames, bind in Hrun.
    pose proof (decryptAll_fst
                  (filter (fun c => Z.eqb (Provider.environment_id c) environment_id
                                    && negb (Provider.deleted c)) (configs w)) w) as Hd.
    unfold listProviderConfigs, selectConfigs, bind, gets in Hrun.
    destruct (decryptAll decryptProviderConfig _ w) as [[ds|e] w'] eqn:E;
      simpl in Hd, Hrun; [|discriminate Hd].
    injection Hd as ->. unfold ret in Hrun. simpl in Hrun. injection Hrun as <-.
    apply in_map_iff in Hn. destruct Hn as (d & <- & Hd).
    apply in_flat_map in Hd. destruct Hd as (row & Hrow & Hd).
    apply filter_In in Hrow. destruct Hrow as [Hin Hc].
    apply andb_true_iff in Hc. destruct Hc as [He Hl].
    destruct (decryptProviderConfig row) as [d'|] eqn:Edec; [|destruct Hd].
    destruct Hd as [<-|[]]. exists row. split; [exact Hin|]. split.
    - now apply negb_true_iff in Hl.
    - split; [now apply Z.eqb_eq | symmetry; now apply Hkey]. }
  split; [exact Hrow|].
  destruct Hrow as (row & Hin & Hlive & _ & Hk).
  unfold getProviderName, selectConfigs. run.
  destruct (filter _ (configs w)) as [|r rest] eqn:Ef.
  - exfalso. apply (filter_nil_none _ _ row Ef) in Hin. simpl in Hin.
    unfold live in Hlive. rewrite Hk, String.eqb_refl, Hlive in Hin. discriminate.
  - now exists (Provider.provider r).
Qed.

End Reads.

Lemma listed_names_resolve_witness :
  exists p, fst (getProviderName "private-api" ServiceSamples.world) = Ok (Some p).
Proof.
  apply (listed_names_resolve ServiceSamples.unseal 1%Z ServiceSamples.world
           ["github"; "private-api"] "private-api").
  - intros c d H. now injection H as <-.
  - reflexivity.
  - right. now left.
Defined.

Section Writes.

Variable encryptProviderConfig : Provider.Config -> Provider.Config.
Variable decryptProviderConfig : Provider.Config -> option Provider.Config.

Lemma createProviderConfig_run config w :
  let stored := assignId (nextConfigId w)
                  (if hasSecret config then encryptProviderConfig config else config) in
  fst (createProviderConfig encryptProviderConfig config w) = Ok (Some stored)
  /\ configs (snd (createProviderConfig encryptProviderConfig config w))
     = configs w ++ [stored]
  /\ connections (snd (createProviderConfig encryptProviderConfig config w))
     = connections w
  /\ nextConfigId (snd (createProviderConfig encryptProviderConfig config w))
     = (nextConfigId w + 1)%Z.
Proof.
  unfold createProviderConfig, insertConfig, encrypt, hasSecret.
  destruct (Js.truthyStr (Provider.oauth_client_secret config)); run; now repeat split.
Qed.

(** X15: a configuration that was just created is what the lookup by its
    key and environment decrypts and returns, provided the stored row is
    live and no live row had that key in that environment before. *)
Theorem created_config_is_found (config stored : Provider.Config) (w : World) :
  fst (createProviderConfig encryptProviderConfig config w) = Ok (Some stored) ->
  live stored ->
  (forall c, In c (configs w) ->
             keyed (Provider.unique_key stored) (Provider.environment_id stored) c = false) ->
  In stored (configs (snd (createProviderConfig encryptProviderConfig config w)))
  /\ fst (getProviderConfig decryptProviderConfig
            (Provider.unique_key stored) (Provider.environment_id stored)
            (snd (createProviderConfig encryptProviderConfig config w)))
     = Ok (decryptProviderConfig stored).
Proof.
  intros Hrun Hlive Hfree.
  destruct (createProviderConfig_run config w) as (Hr & Hc & _).
  rewrite Hr in Hrun. injection Hrun as Hs.
  rewrite getProviderConfig_fst, Hc, Hs. split.
  - apply in_or_app. right. now left.
  - rewrite filter_app_last; [reflexivity | |].
    + destruct (filter _ (configs w)) as [|c rest] eqn:E; [reflexivity|].
      apply filter_first_In in E. destruct E as [Hin Hk].
      rewrite (Hfree c Hin) in Hk. discriminate.
    + unfold keyed. unfold live in Hlive.
      now rewrite String.eqb_refl, Z.eqb_refl, Hlive.
Qed.

End Writes.

Lemma created_config_is_found_witness :
  fst (getProviderConfig ServiceSamples.unseal "hubspot" 1%Z
         (snd (createProviderConfig ServiceSamples.seal
                 (emptyConfig 1%Z "hubspot" "hubspot") ServiceSamples.world)))
  = Ok (Some (assignId 4%Z (emptyConfig 1%Z "hubspot" "hubspot"))).
Proof.
  apply (created_config_is_found ServiceSamples.seal ServiceSamples.unseal
           (emptyConfig 1%Z "hubspot" "hubspot")
           (assignId 4%Z (emptyConfig 1%Z "hubspot" "hubspot")) ServiceSamples.world).
  - reflexivity.
  - reflexivity.
  - intros c [<-|[<-|[<-|[]]]]; reflexivity.
Defined.

Lemma filter_map_none {A} (f : A -> bool) (g : A -> A) l :
  (forall c, In c l -> f (g c) = false) -> filter f (map g l) = [].
Proof.
  induction l as [|x rest IH]; intros H; simpl; [reflexivity|].
  rewrite (H x (or_introl eq_refl)). apply IH. intros c Hc. apply H. now right.
Qed.

Lemma deleteProviderConfig_snd (isCloud : bool) (id environmentId : Z)
      (providerConfigKey : string) (now : Z) (w : World) :
  let target := fun c => optZ_eqb (Provider.id c) id && negb (Provider.deleted c) in
  let w' := snd (deleteProviderConfig isCloud id environmentId providerConfigKey now w) in
  fst (deleteProviderConfig isCloud id environmentId providerConfigKey now w)
  = Ok (negb (Z.leb (Z.of_nat (List.length (filter target (configs w)))) 0))
  /\ configs w' = map (fun c => if target c then deleteConfigRow now c else c) (configs w)
  /\ connections w' =
     if Z.leb (Z.of_nat (List.length (filter target (configs w)))) 0
     then connections w
     else map (fun c => if under providerConfigKey environmentId c
                           && negb (Connection.deleted c)
                        then deleteConnectionRow now c else c) (connections w).
Proof.
  intros target w'. subst w'.
  destruct (ConfigServiceFacts.deleteProviderConfig_run isCloud id environmentId
              providerConfigKey now w) as (w1 & E & Hc & Hn).
  rewrite E. simpl. split; [reflexivity|]. split; [exact Hc|]. exact Hn.
Qed.

Lemma target_gone id now l :
  filter (fun c => optZ_eqb (Provider.id c) id && negb (Provider.deleted c))
         (map (fun c => if optZ_eqb (Provider.id c) id && negb (Provider.deleted c)
                        then deleteConfigRow now c else c) l) = [].
Proof.
  apply filter_map_none. intros c _.
  destruct (optZ_eqb (Provider.id c) id && negb (Provider.deleted c)) eqn:E.
  - simpl. apply andb_false_r.
  - exact E.
Qed.

(** X17: once [deleteProviderConfig] has run for an id, whether it
    answered true or false, no read by that id finds a configuration, and
    reads by any other id answer as before. *)
Theorem deleted_config_not_found_by_id
        (decryptProviderConfig : Provider.Config -> option Provider.Config)
        (isCloud : bool) (id environmentId : Z) (providerConfigKey : string) (now : Z)
        (w : World) :
  fst (getById decryptProviderConfig id
         (snd (deleteProviderConfig isCloud id environmentId providerConfigKey now w)))
  = Ok None
  /\ (forall id', id' <> id ->
        fst (getById decryptProviderConfig id'
               (snd (deleteProviderConfig isCloud id environmentId providerConfigKey now w)))
        = fst (getById decryptProviderConfig id' w)).
Proof.
  destruct (deleteProviderConfig_snd isCloud id environmentId providerConfigKey now w)
    as (_ & Hc & _).
  split.
  - rewrite getById_fst, Hc, target_gone. reflexivity.
  - intros id' Hne. rewrite !getById_fst, Hc. rewrite filter_map_frame; [reflexivity|].
    intros c _.
    destruct (optZ_eqb (Provider.id c) id && negb (Provider.deleted c)) eqn:E;
      [|now left].
    right. apply andb_true_iff in E. destruct E as [E _]. simpl.
    unfold optZ_eqb in *. destruct (Provider.id c) as [x|]; [|discriminate].
    apply Z.eqb_eq in E. subst x.
    assert (Z.eqb id id' = false) by (apply Z.eqb_neq; congruence).
    now rewrite H.
Qed.

(** X18: deleting the same configuration again answers false and leaves
    the configuration rows and the connection rows as the first deletion
    left them. *)
Theorem deleteProviderConfig_twice
        (isCloud : bool) (id environmentId : Z) (providerConfigKey : string) (now now' : Z)
        (w : World) :
  let w1 := snd (deleteProviderConfig isCloud id environmentId providerConfigKey now w) in
  fst (deleteProviderConfig isCloud id environmentId providerConfigKey now' w1) = Ok false
  /\ configs (snd (deleteProviderConfig isCloud id environmentId providerConfigKey now' w1))
     = configs w1
  /\ connections (snd (deleteProviderConfig isCloud id environmentId providerConfigKey
                         now' w1))
     = connections w1.
Proof.
  intros w1.
  destruct (deleteProviderConfig_snd isCloud id environmentId providerConfigKey now w)
    as (_ & Hc & _). fold w1 in Hc.
  destruct (deleteProviderConfig_snd isCloud id environmentId providerConfigKey now' w1)
    as (Hr2 & Hc2 & Hn2).
  assert (Hgone : filter (fun c => optZ_eqb (Provider.id c) id && negb (Provider.deleted c))
                         (configs w1) = []).
  { rewrite Hc. apply target_gone. }
  rewrite Hgone in Hr2, Hn2. simpl in Hr2, Hn2.
  split; [exact Hr2|]. split; [|exact Hn2].
  rewrite Hc2. now apply update_no_match.
Qed.

(** X19: the deletion removes no row: the configuration and connection
    rows keep their ids, in order. When it answers true, every connection
    row under the key and environment it was given is marked deleted, and
    the rows that were not under them, or were deleted already, are as they
    were. *)
Theorem deleteProviderConfig_soft
        (isCloud : bool) (id environmentId : Z) (providerConfigKey : string) (now : Z)
        (w w' : World) (r : Result bool) :
  deleteProviderConfig isCloud id environmentId providerConfigKey now w = (r, w') ->
  map Provider.id (configs w') = map Provider.id (configs w)
  /\ map Connection.id (connections w') = map Connection.id (connections w)
  /\ (r = Ok true ->
        (forall c, In c (connections w') ->
                   under providerConfigKey environmentId c = true ->
                   Connection.deleted c = true)
        /\ (forall c, In c (connections w) ->
                      under providerConfigKey environmentId c = false
                      \/ Connection.deleted c = true ->
                      In c (connections w'))).
Proof.
  intros Hrun.
  destruct (deleteProviderConfig_snd isCloud id environmentId providerConfigKey now w)
    as (Hr & Hc & Hn).
  rewrite Hrun in Hr, Hc, Hn. simpl in Hr, Hc, Hn.
  split; [|split].
  - rewrite Hc, map_map. apply map_ext. intros c.
    now destruct (optZ_eqb (Provider.id c) id && negb (Provider.deleted c)).
  - rewrite Hn.
    destruct (Z.leb _ 0); [reflexivity|]. rewrite map_map. apply map_ext. intros c.
    now destruct (under providerConfigKey environmentId c && negb (Connection.deleted c)).
  - intros ->. injection Hr as Hr. symmetry in Hr. apply negb_true_iff in Hr.
    rewrite Hr in Hn.
    rewrite Hn. split.
    + intros c Hin Hu. apply in_map_iff in Hin. destruct Hin as (c0 & <- & _).
      destruct (under providerConfigKey environmentId c0 && negb (Connection.deleted c0))
        eqn:E; [reflexivity|].
      unfold under in *. simpl in Hu.
      destruct (Connection.deleted c0); [reflexivity|].
      rewrite andb_true_r in E. congruence.
    + intros c Hin Hc0. apply in_map_iff. exists c. split; [|exact Hin].
      destruct Hc0 as [Hu|Hd]; [now rewrite Hu | rewrite Hd; now rewrite andb_false_r].
Qed.

Lemma deleteProviderConfig_soft_witness :
  map Connection.deleted
    (connections (snd (deleteProviderConfig false 1 1 "github" 20 ServiceSamples.world)))
  = [true; true; false].
Proof.
  destruct (deleteProviderConfig false 1 1 "github" 20 ServiceSamples.world)
    as [r w'] eqn:E.
  pose proof (deleteProviderConfig_soft _ _ _ _ _ _ _ _ E) as (_ & _ & H).
  assert (Hr : r = Ok true) by (injection E as <- _; reflexivity).
  destruct (H Hr) as [_ _].
  injection E as _ <-. reflexivity.
Defined.

Section Rename.

Variable decryptProviderConfig : Provider.Config -> option Provider.Config.

Lemma renamed_rows_found newUniqueKey providerConfigKey environment_id l :
  (forall c, In c l -> keyed newUniqueKey environment_id c = false) ->
  filter (keyed newUniqueKey environment_id)
         (map (fun c => if keyed providerConfigKey environment_id c
                        then renameConfigRow newUniqueKey c else c) l)
  = map (renameConfigRow newUniqueKey) (filter (keyed providerConfigKey environment_id) l).
Proof.
  induction l as [|x rest IH]; intros Hfree; simpl; [reflexivity|].
  rewrite IH by (intros c Hc; apply Hfree; now right).
  destruct (keyed providerConfigKey environment_id x) eqn:E.
  - assert (Hk : keyed newUniqueKey environment_id (renameConfigRow newUniqueKey x) = true).
    { unfold keyed in *. simpl. rewrite String.eqb_refl.
      apply andb_true_iff in E. destruct E as [E Hl].
      apply andb_true_iff in E. destruct E as [_ He]. now rewrite He, Hl. }
    now rewrite Hk.
  - now rewrite (Hfree x (or_introl eq_refl)).
Qed.

(** X20: renaming a key to one that no live row of the environment has
    answers the number of live rows that had the old key there, and leaves
    the connection rows and the configuration rows of other environments as
    they were; afterwards the new key resolves to the renamed row, and the
    old key, when it differs, to nothing. *)
Theorem editProviderConfigName_rekeys (providerConfigKey newUniqueKey : string)
        (environment_id : Z) (w : World) :
  (forall c, In c (configs w) -> keyed newUniqueKey environment_id c = false) ->
  let w' := snd (editProviderConfigName providerConfigKey newUniqueKey environment_id w) in
  fst (editProviderConfigName providerConfigKey newUniqueKey environment_id w)
  = Ok (Z.of_nat (List.length (filter (keyed providerConfigKey environment_id) (configs w))))
  /\ connections w' = connections w
  /\ (forall c, In c (configs w) -> Provider.environment_id c <> environment_id ->
                In c (configs w'))
  /\ (newUniqueKey <> providerConfigKey ->
      fst (getProviderConfig decryptProviderConfig providerConfigKey environment_id w')
      = Ok None)
  /\ fst (getProviderConfig decryptProviderConfig newUniqueKey environment_id w')
     = Ok (match filter (keyed providerConfigKey environment_id) (configs w) with
           | row :: _ => decryptProviderConfig (renameConfigRow newUniqueKey row)
           | [] => None
           end).
Proof.
  intros Hfree w'. subst w'. unfold editProviderConfigName, updateConfigs. simpl.
  fold (keyed providerConfigKey environment_id).
  split; [reflexivity|]. split; [reflexivity|]. split; [|split].
  - intros c Hin Henv. apply in_map_iff. exists c. split; [|exact Hin].
    apply Z.eqb_neq in Henv. rewrite Henv.
    now rewrite andb_false_r.
  - intros Hne. rewrite getProviderConfig_fst. simpl. rewrite filter_map_none; [reflexivity|].
    intros c _. fold (keyed providerConfigKey environment_id c).
    destruct (keyed providerConfigKey environment_id c) eqn:E; [|exact E].
    unfold keyed. simpl. apply String.eqb_neq in Hne. now rewrite Hne.
  - rewrite getProviderConfig_fst. simpl.
    change (fun c : Provider.Config =>
              if String.eqb (Provider.unique_key c) providerConfigKey
                 && Z.eqb (Provider.environment_id c) environment_id
                 && negb (Provider.deleted c)
              then renameConfigRow newUniqueKey c else c)
      with (fun c => if keyed providerConfigKey environment_id c
                     then renameConfigRow newUniqueKey c else c).
    rewrite (renamed_rows_found _ _ _ _ Hfree).
    now destruct (filter (keyed providerConfigKey environment_id) (configs w)).
Qed.

End Rename.

Lemma editProviderConfigName_rekeys_witness :
  fst (getProviderConfig ServiceSamples.unseal "github-main" 1%Z
         (snd (editProviderConfigName "github" "github-main" 1%Z ServiceSamples.world)))
  = Ok (Some (renameConfigRow "github-main" ServiceSamples.github)).
Proof.
  apply (editProviderConfigName_rekeys ServiceSamples.unseal "github" "github-main"
           1%Z ServiceSamples.world).
  intros c [<-|[<-|[<-|[]]]]; reflexivity.
Defined.

Section Copy.

Variable encryptProviderConfig : Provider.Config -> Provider.Config.
Variable decryptProviderConfig : Provider.Config -> option Provider.Config.

(** X21: copying the credentials of a key to another environment answers
    nothing, and stores nothing, when the source environment has no live
    row of that key, when the row does not decrypt, or when the decrypted
    configuration has no id or the id 0. Otherwise, the target environment
    having no live row of the key, it stores one more row, made of the
    decrypted configuration without its id, under the target environment and
    the same key, encrypted again when it holds a secret, and answers the id
    of that row and the id of the source. *)
Theorem copyProviderConfigCreds_outcomes (fromEnvironmentId toEnvironmentId : Z)
        (providerConfigKey : string) (w : World) :
  let run := copyProviderConfigCreds encryptProviderConfig decryptProviderConfig
               fromEnvironmentId toEnvironmentId providerConfigKey w in
  let source := match filter (keyed providerConfigKey fromEnvironmentId) (configs w) with
                | row :: _ => decryptProviderConfig row
                | [] => None
                end in
  (forall fromConfig foundId,
      source = Some fromConfig -> Provider.id fromConfig = Some foundId -> foundId <> 0%Z ->
      (forall c, In c (configs w) ->
                 keyed (Provider.unique_key fromConfig) toEnvironmentId c = false) ->
      let copy := copyOf fromConfig toEnvironmentId in
      let stored := assignId (nextConfigId w)
                      (if hasSecret copy then encryptProviderConfig copy else copy) in
      fst run = Ok (Some {| copiedToId := Provider.id stored; copiedFromId := foundId |})
      /\ configs (snd run) = configs w ++ [stored])
  /\ (source = None
      \/ (exists fromConfig, source = Some fromConfig
                             /\ (Provider.id fromConfig = None
                                 \/ Provider.id fromConfig = Some 0%Z)) ->
      fst run = Ok None /\ configs (snd run) = configs w).
Proof.
  intros run source.
  assert (Hget : exists w1,
             getProviderConfig decryptProviderConfig providerConfigKey fromEnvironmentId w
             = (Ok source, w1)
             /\ configs w1 = configs w /\ nextConfigId w1 = nextConfigId w).
  { unfold getProviderConfig, selectConfigs, source. run.
    fold (keyed providerConfigKey fromEnvironmentId).
    destruct (filter (keyed providerConfigKey fromEnvironmentId) (configs w)).
    - now exists w.
    - unfold decrypt. eexists. split; [reflexivity|]. now split. }
  destruct Hget as (w1 & Eget & Hc1 & Hn1).
  split.
  - intros fromConfig foundId Hs Hid Hnz _. cbv zeta.
    subst run. unfold copyProviderConfigCreds, bind. rewrite Eget, Hs, Hid.
    apply Z.eqb_neq in Hnz. unfold truthyNumber. rewrite Hnz. cbn [negb].
    destruct (createProviderConfig_run encryptProviderConfig
                (copyOf fromConfig toEnvironmentId) w1) as (Hr & Hc & _).
    destruct (createProviderConfig encryptProviderConfig
                (copyOf fromConfig toEnvironmentId) w1) as [res w2].
    cbn [fst snd] in Hr, Hc. subst res. unfold ret. cbn [fst snd].
    rewrite <- Hn1. split; [reflexivity|]. now rewrite Hc, Hc1.
  - intros Hnone. subst run. unfold copyProviderConfigCreds, bind. rewrite Eget.
    destruct Hnone as [->|(fromConfig & -> & [Hid|Hid])].
    + unfold ret. cbn [fst snd]. now split.
    + rewrite Hid. unfold ret. cbn [fst snd]. now split.
    + rewrite Hid. unfold ret. simpl. now split.
Qed.

End Copy.

Lemma copyProviderConfigCreds_outcomes_witness :
  fst (copyProviderConfigCreds ServiceSamples.seal ServiceSamples.unseal 1 2 "private-api"
         ServiceSamples.world)
  = Ok (Some {| copiedToId := Some 4%Z; copiedFromId := 2%Z |}).
Proof.
  apply (proj1 (copyProviderConfigCreds_outcomes ServiceSamples.seal ServiceSamples.unseal
                  1 2 "private-api" ServiceSamples.world)
           ServiceSamples.unauthenticated 2%Z eq_refl eq_refl ltac:(discriminate)).
  intros c [<-|[<-|[<-|[]]]]; reflexivity.
Defined.

Lemma suffixed_differs (s t : string) : s <> (s ++ "-" ++ t)%string.
Proof.
  induction s as [|a s IH]; simpl; [discriminate|].
  intros H. injection H as H. now apply IH.
Qed.

(** X22: [createEmptyProviderConfig] gives the new row the bare provider
    name as key exactly when [getConfigIdByProvider] finds no configuration
    of the provider in the environment. *)
Theorem bare_key_iff_no_config_of_provider
        (encryptProviderConfig : Provider.Config -> Provider.Config)
        (nanoid : nat -> string) (provider : string) (environment_id : Z) (w : World) :
  (exists row,
      fst (createEmptyProviderConfig encryptProviderConfig nanoid provider environment_id w)
      = Ok row /\ Provider.unique_key row = provider)
  <-> fst (getConfigIdByProvider provider environment_id w) = Ok None.
Proof.
  pose proof (suffixed_differs provider (toLocaleLowerCase (nanoid 4))) as Hsuffix.
  unfold createEmptyProviderConfig, createProviderConfig, getConfigIdByProvider,
    selectConfigs, insertConfig. run.
  rewrite countText_zero.
  destruct (filter _ (configs w)) as [|c rest]; simpl.
  - split; [reflexivity|]. intros _. eexists. split; reflexivity.
  - split; [|discriminate]. intros (row & E & Hk). injection E as <-.
    simpl in Hk. now elim Hsuffix.
Qed.

Lemma bare_key_iff_no_config_of_provider_witness :
  fst (getConfigIdByProvider "hubspot" 1%Z ServiceSamples.world) = Ok None.
Proof.
  apply (proj1 (bare_key_iff_no_config_of_provider ServiceSamples.seal
                  ServiceSamples.fixedId "hubspot" 1%Z ServiceSamples.world)).
  eexists. split; reflexivity.
Defined.

Section Secrets.

Variable encryptProviderConfig : Provider.Config -> Provider.Config.
Variable decryptProviderConfig : Provider.Config -> option Provider.Config.

(** X30: a create of a row the store takes hands the configuration to the
    encryption manager once when it holds a secret, and stores what comes
    back; without a secret it stores the configuration as given and asks
    nothing of the manager. A read by key or by id decrypts the row it
    finds once and returns the outcome; each of the two listings decrypts
    every row it selects once, in the order of the store. *)
Theorem create_guards_encryption_reads_decrypt_once (config : Provider.Config) (w : World) :
  (hasSecret config = true ->
   StoreSpec.idFree (encryptProviderConfig config) w ->
     fst (createProviderConfig encryptProviderConfig config w)
       = Ok (Some (assignId (nextConfigId w) (encryptProviderConfig config)))
     /\ configs (snd (createProviderConfig encryptProviderConfig config w))
        = configs w ++ [assignId (nextConfigId w) (encryptProviderConfig config)]
     /\ cryptoCalls (snd (createProviderConfig encryptProviderConfig config w))
        = cryptoCalls w ++ [Encrypt config])
  /\ (hasSecret config = false ->
      StoreSpec.idFree config w ->
        fst (createProviderConfig encryptProviderConfig config w)
          = Ok (Some (assignId (nextConfigId w) config))
        /\ configs (snd (createProviderConfig encryptProviderConfig config w))
           = configs w ++ [assignId (nextConfigId w) config]
        /\ cryptoCalls (snd (createProviderConfig encryptProviderConfig config w))
           = cryptoCalls w)
  /\ (forall key env row,
         find (fun c => String.eqb (Provider.unique_key c) key
                        && Z.eqb (Provider.environment_id c) env
                        && negb (Provider.deleted c)) (configs w) = Some row ->
         fst (getProviderConfig decryptProviderConfig key env w)
           = Ok (decryptProviderConfig row)
         /\ cryptoCalls (snd (getProviderConfig decryptProviderConfig key env w))
            = cryptoCalls w ++ [Decrypt row])
  /\ (forall id row,
         find (fun c => optZ_eqb (Provider.id c) id && negb (Provider.deleted c))
              (configs w) = Some row ->
         fst (getById decryptProviderConfig id w) = Ok (decryptProviderConfig row)
         /\ cryptoCalls (snd (getById decryptProviderConfig id w))
            = cryptoCalls w ++ [Decrypt row])
  /\ (forall env,
         cryptoCalls (snd (listProviderConfigs decryptProviderConfig env w))
         = cryptoCalls w
           ++ map Decrypt
                (filter (fun c => Z.eqb (Provider.environment_id c) env
                                  && negb (Provider.deleted c)) (configs w)))
  /\ (forall env provider,
         cryptoCalls (snd (listProviderConfigsByProvider decryptProviderConfig env provider w))
         = cryptoCalls w
           ++ map Decrypt
                (filter (fun c => Z.eqb (Provider.environment_id c) env
                                  && String.eqb (Provider.provider c) provider
                                  && negb (Provider.deleted c)) (configs w))).
Proof.
  unfold hasSecret.
  split; [|split; [|split; [|split; [|split]]]].
  - intros Hsecret _. unfold createProviderConfig, insertConfig, encrypt.
    rewrite Hsecret. now repeat split.
  - intros Hplain _. unfold createProviderConfig, insertConfig.
    rewrite Hplain. now repeat split.
  - intros key env row Hfind. rewrite <- hd_filter_find in Hfind.
    unfold getProviderConfig, selectConfigs. run.
    destruct (filter _ (configs w)) as [|c rest]; [discriminate Hfind|].
    injection Hfind as ->. now split.
  - intros id row Hfind. rewrite <- hd_filter_find in Hfind.
    unfold getById, selectConfigs. run.
    destruct (filter _ (configs w)) as [|c rest]; [discriminate Hfind|].
    injection Hfind as ->. now split.
  - intros env. unfold listProviderConfigs, selectConfigs. run.
    match goal with
    | |- context [decryptAll _ ?rows w] =>
        destruct (ConfigServiceFacts.decryptAll_run decryptProviderConfig rows w)
          as (ds & w' & E & Hc & _)
    end.
    rewrite E. exact Hc.
  - intros env provider. unfold listProviderConfigsByProvider, selectConfigs. run.
    match goal with
    | |- context [decryptAll _ ?rows w] =>
        destruct (ConfigServiceFacts.decryptAll_run decryptProviderConfig rows w)
          as (ds & w' & E & Hc & _)
    end.
    rewrite E. exact Hc.
Qed.

End Secrets.

Lemma create_guards_encryption_reads_decrypt_once_witness :
  (hasSecret MoreSamples.gitlab = true
   /\ configs (snd (createProviderConfig ServiceSamples.seal MoreSamples.gitlab
                      ServiceSamples.world))
      = configs ServiceSamples.world
        ++ [assignId 4%Z (ServiceSamples.seal MoreSamples.gitlab)]
   /\ cryptoCalls (snd (createProviderConfig ServiceSamples.seal MoreSamples.gitlab
                          ServiceSamples.world))
      = [Encrypt MoreSamples.gitlab])
  /\ (hasSecret MoreSamples.internalApi = false
      /\ configs (snd (createProviderConfig ServiceSamples.seal MoreSamples.internalApi
                         ServiceSamples.world))
         = configs ServiceSamples.world ++ [assignId 4%Z MoreSamples.internalApi]
      /\ cryptoCalls (snd (createProviderConfig ServiceSamples.seal MoreSamples.internalApi
                             ServiceSamples.world))
         = [])
  /\ cryptoCalls (snd (getProviderConfig ServiceSamples.unseal "github" 1%Z
                         ServiceSamples.world))
     = [Decrypt ServiceSamples.github]
  /\ cryptoCalls (snd (listProviderConfigsByProvider ServiceSamples.unseal 1%Z
                         "unauthenticated" ServiceSamples.world))
     = [Decrypt ServiceSamples.unauthenticated].
Proof.
  pose proof (create_guards_encryption_reads_decrypt_once ServiceSamples.seal
                ServiceSamples.unseal MoreSamples.gitlab ServiceSamples.world)
    as (Hsecret & _ & Hread & _ & _ & Hlist).
  pose proof (create_guards_encryption_reads_decrypt_once ServiceSamples.seal
                ServiceSamples.unseal MoreSamples.internalApi ServiceSamples.world)
    as (_ & Hplain & _).
  assert (Hfree1 : StoreSpec.idFree (ServiceSamples.seal MoreSamples.gitlab)
                     ServiceSamples.world).
  { intros i Hi. discriminate Hi. }
  assert (Hfree2 : StoreSpec.idFree MoreSamples.internalApi ServiceSamples.world).
  { intros i Hi. discriminate Hi. }
  split; [|split; [|split]].
  - split; [reflexivity|]. exact (proj2 (Hsecret eq_refl Hfree1)).
  - split; [reflexivity|]. exact (proj2 (Hplain eq_refl Hfree2)).
  - apply (Hread "github" 1%Z ServiceSamples.github). reflexivity.
  - apply (Hlist 1%Z "unauthenticated").
Defined.

End ConfigServiceMore.

(** ** The provider templates *)

Module TemplatesFacts.

Import Templates.

Section Loader.

Context {V : Type}.

Lemma lookup_setEntry_other (entries : Entries V) key k value :
  k <> key -> lookup (setEntry entries key value) k = lookup entries k.
Proof.
  intros Hne. induction entries as [|[k0 e0] rest IH]; simpl; [reflexivity|].
  destruct (String.eqb_spec k0 key) as [->|Hk0]; simpl.
  - destruct (String.eqb_spec key k); [congruence | reflexivity].
  - now rewrite IH.
Qed.

Lemma lookup_setEntry_same (entries : Entries V) key value :
  In key (map fst entries) -> lookup (setEntry entries key value) key = Some value.
Proof.
  induction entries as [|[k0 e0] rest IH]; simpl; [intros []|].
  destruct (String.eqb_spec k0 key) as [->|Hk0]; simpl.
  - intros _. now rewrite String.eqb_refl.
  - intros [E|Hin]; [congruence|].
    destruct (String.eqb_spec k0 key); [congruence | now apply IH].
Qed.

Lemma lookup_In (entries : Entries V) key e :
  lookup entries key = Some e -> In key (map fst entries).
Proof.
  induction entries as [|[k0 e0] rest IH]; simpl; [discriminate|].
  destruct (String.eqb_spec k0 key) as [->|Hk0]; [now left|].
  intros H. right. now apply IH.
Qed.

Lemma setEntry_keys (entries : Entries V) key value :
  map fst (setEntry entries key value) = map fst entries.
Proof.
  induction entries as [|[k0 e0] rest IH]; simpl; [reflexivity|].
  destruct (String.eqb k0 key); simpl; [reflexivity | now rewrite IH].
Qed.

Lemma resolveOne_keys (entries : Entries V) key :
  map fst (resolveOne entries key) = map fst entries.
Proof.
  unfold resolveOne. destruct (lookup entries key) as [entry|]; [|reflexivity].
  destruct (Js.truthyStr (alias entry)); [apply setEntry_keys | reflexivity].
Qed.

Lemma resolveOne_plain (entries : Entries V) key k e :
  lookup entries key = Some e -> plain e ->
  lookup (resolveOne entries k) key = Some e.
Proof.
  intros He Hp. unfold resolveOne.
  destruct (String.eqb_spec k key) as [->|Hne].
  - rewrite He. unfold plain in Hp. now rewrite Hp.
  - destruct (lookup entries k) as [entry|]; [|exact He].
    destruct (Js.truthyStr (alias entry)); [|exact He].
    rewrite lookup_setEntry_other; [exact He | congruence].
Qed.

Lemma resolveOne_missing (entries : Entries V) a k :
  lookup entries a = None -> lookup (resolveOne entries k) a = None.
Proof.
  intros Ha. unfold resolveOne.
  destruct (String.eqb_spec k a) as [->|Hne].
  - now rewrite Ha.
  - destruct (lookup entries k) as [entry|]; [|exact Ha].
    destruct (Js.truthyStr (alias entry)); [|exact Ha].
    rewrite lookup_setEntry_other; [exact Ha | congruence].
Qed.

Lemma fold_keys keys (entries : Entries V) :
  map fst (fold_left resolveOne keys entries) = map fst entries.
Proof.
  revert entries. induction keys as [|k rest IH]; intros entries; simpl; [reflexivity|].
  now rewrite IH, resolveOne_keys.
Qed.

Lemma fold_plain keys (entries : Entries V) key e :
  lookup entries key = Some e -> plain e ->
  lookup (fold_left resolveOne keys entries) key = Some e.
Proof.
  revert entries. induction keys as [|k rest IH]; intros entries He Hp; simpl.
  - exact He.
  - apply IH; [now apply resolveOne_plain | exact Hp].
Qed.

Lemma resolveOne_settled (entries : Entries V) a k (target : option (Template V)) :
  settled target -> lookup entries a = target ->
  lookup (resolveOne entries k) a = target.
Proof.
  intros Hs Ha. destruct target as [t|].
  - now apply resolveOne_plain.
  - now apply resolveOne_missing.
Qed.

Lemma resolved_plain (entry : Template V) (target : option (Template V)) : settled target -> plain (resolved entry target).
Proof.
  unfold plain, resolved. destruct target as [t|]; simpl; [auto | reflexivity].
Qed.

Lemma fold_alias keys (entries : Entries V) key (entry : Template V) a
      (target : option (Template V)) :
  alias entry = Some a -> a <> "" ->
  settled target -> lookup entries a = target ->
  lookup entries key = Some entry -> In key keys ->
  lookup (fold_left resolveOne keys entries) key = Some (resolved entry target).
Proof.
  intros Halias Hna Hs.
  revert entries. induction keys as [|k rest IH]; intros entries Ha He Hin; [destruct Hin|].
  simpl. destruct (String.eqb_spec k key) as [->|Hne].
  - apply fold_plain; [|now apply resolved_plain].
    unfold resolveOne. rewrite He, Halias. simpl.
    apply String.eqb_neq in Hna. rewrite Hna. simpl. rewrite Ha.
    apply lookup_setEntry_same. now apply (lookup_In entries key entry).
  - destruct Hin as [E|Hin]; [congruence|].
    apply IH; [now apply resolveOne_settled | | exact Hin].
    unfold resolveOne. destruct (lookup entries k) as [ek|]; [|exact He].
    destruct (Js.truthyStr (alias ek)); [|exact He].
    rewrite lookup_setEntry_other; [exact He | congruence].
Qed.

Lemma spread_nil_l (b : list (string * V)) : spread [] b = b.
Proof.
  unfold spread. simpl. induction b as [|kv rest IH]; simpl; [reflexivity|].
  now rewrite IH.
Qed.

(** X24: loading the templates keeps the provider names of the document,
    in order, and every entry that is not an alias as it is; when the file
    cannot be read or parsed, or holds nothing, there are no templates. *)
Theorem loader_keeps_names_and_plain_entries (fileEntries : Entries V) :
  (exists templates,
      getTemplatesFromFile (Document (Some fileEntries)) = Some templates
      /\ map fst templates = map fst fileEntries
      /\ forall key e, lookup fileEntries key = Some e -> plain e ->
                       lookup templates key = Some e)
  /\ getTemplatesFromFile (V := V) LoadFailed = None
  /\ getTemplatesFromFile (V := V) (Document None) = None.
Proof.
  split; [|split; reflexivity].
  exists (resolveAliases fileEntries). split; [reflexivity|]. split.
  - apply fold_keys.
  - intros key e He Hp. now apply fold_plain.
Qed.

(** X25: an entry that is an alias of a provider whose own entry is not an
    alias becomes that entry with the properties of the alias laid over it:
    the properties of the target in their order, valued by the alias where
    it has them, then the properties only the alias has. *)
Theorem alias_takes_target_with_overrides (fileEntries : Entries V) (key a : string)
        (entry target : Template V) :
  lookup fileEntries key = Some entry ->
  alias entry = Some a -> a <> "" ->
  lookup fileEntries a = Some target -> plain target ->
  lookup (resolveAliases fileEntries) key
  = Some {| alias := alias target; fields := spread (fields target) (fields entry) |}.
Proof.
  intros He Halias Hna Ht Hp.
  apply (fold_alias (map fst fileEntries) fileEntries key entry a (Some target));
    try assumption.
  now apply (lookup_In fileEntries key entry).
Qed.

(** X26: an entry that is an alias of a name the document has no entry
    for, or a null one, keeps its own properties and loses the alias: no
    error is raised. *)
Theorem alias_of_missing_provider_keeps_overrides (fileEntries : Entries V) (key a : string)
        (entry : Template V) :
  lookup fileEntries key = Some entry ->
  alias entry = Some a -> a <> "" ->
  lookup fileEntries a = None ->
  lookup (resolveAliases fileEntries) key
  = Some {| alias := None; fields := fields entry |}.
Proof.
  intros He Halias Hna Ht. unfold resolveAliases.
  rewrite (fold_alias (map fst fileEntries) fileEntries key entry a None);
    try assumption; try exact I.
  - unfold resolved. now rewrite spread_nil_l.
  - now apply (lookup_In fileEntries key entry).
Qed.

End Loader.

Lemma alias_takes_target_with_overrides_witness :
  lookup (resolveAliases TemplateSamples.document) "github-app"
  = Some {| alias := None;
            fields := [("auth_mode", "APP"); ("proxy", "https://api.github.com");
                       ("docs", "/github-app")] |}.
Proof.
  apply (alias_takes_target_with_overrides TemplateSamples.document "github-app" "github"
           {| alias := Some "github";
              fields := [("auth_mode", "APP"); ("docs", "/github-app")] |}
           {| alias := None;
              fields := [("auth_mode", "OAUTH2"); ("proxy", "https://api.github.com")] |}).
  - reflexivity.
  - reflexivity.
  - discriminate.
  - reflexivity.
  - reflexivity.
Defined.

Lemma alias_of_missing_provider_keeps_overrides_witness :
  lookup (resolveAliases TemplateSamples.document) "ghost"
  = Some {| alias := None; fields := [("auth_mode", "NONE")] |}.
Proof.
  apply (alias_of_missing_provider_keeps_overrides TemplateSamples.document "ghost"
           "nowhere" {| alias := Some "nowhere"; fields := [("auth_mode", "NONE")] |}).
  - reflexivity.
  - reflexivity.
  - discriminate.
  - reflexivity.
Defined.

End TemplatesFacts.

(** ** The sync lifecycle orchestrator, continued *)

Module OrchestratorMore.

Import Orchestrator ServiceSpec MoreSpec.

Lemma attempted_without_client name conns : attempted None name conns = conns.
Proof.
  induction conns as [|c rest IH]; simpl; [reflexivity | now rewrite IH].
Qed.

Lemma find_without_client name conns : find (raisesFor None name) conns = None.
Proof.
  induction conns as [|c rest IH]; simpl; [reflexivity | exact IH].
Qed.

Lemma attempted_started client name conns k :
  find (raisesFor (Some client) name) conns = Some k ->
  attempted (Some client) name conns = startedBefore client name conns ++ [k].
Proof.
  induction conns as [|c rest IH]; simpl; [discriminate|].
  destruct (raises client c name).
  - intros H. now injection H as <-.
  - intros H. now rewrite (IH H).
Qed.

Section Service.

Variable decryptProviderConfig : Provider.Config -> option Provider.Config.
Variable syncClient : option SyncClient.

Lemma forEach_started name syncConfig syncSpec debug conns w :
  started (snd (forEach conns (startFor syncClient name syncConfig syncSpec debug) w))
  = started w ++ map (commandOf name syncConfig syncSpec debug)
                     (startedOf syncClient name conns).
Proof.
  revert w. induction conns as [|c rest IH]; intros w.
  - simpl. unfold startedOf. destruct syncClient; simpl; now rewrite app_nil_r.
  - simpl. unfold bind at 1. unfold startFor, createSync, getInstance. run.
    unfold startedOf in *. destruct syncClient as [client|].
    + unfold startContinuous. simpl. destruct (raises client c name) eqn:Er; run.
      * now rewrite app_nil_r.
      * match goal with
        | |- context [forEach rest _ ?w1] => specialize (IH w1)
        end.
        destruct (forEach rest _ _) as [r w']. simpl in *.
        rewrite IH. simpl. now rewrite <- app_assoc.
    + match goal with
      | |- context [forEach rest _ ?w1] => specialize (IH w1)
      end.
      destruct (forEach rest _ _) as [r w']. simpl in *.
      rewrite IH. simpl. reflexivity.
Qed.

(** What one request leaves behind, the accepted commands included. *)
Lemma create_started (r : CreateSyncArgs) debug activityLogId w :
  started (snd (create decryptProviderConfig syncClient (connections r) (syncName r)
                       (providerConfigKey r) (environmentId r) (sync r)
                       debug activityLogId w))
  = started w
    ++ map (commandOf (syncName r)
              (lookedUp decryptProviderConfig (providerConfigKey r) (environmentId r) w)
              (sync r) debug)
           (startedOf syncClient (syncName r) (connections r)).
Proof.
  unfold create, tryCatch.
  assert (Hget : exists w1,
             ConfigService.getProviderConfig decryptProviderConfig
               (providerConfigKey r) (environmentId r) w
             = (Ok (lookedUp decryptProviderConfig (providerConfigKey r)
                      (environmentId r) w), w1)
             /\ started w1 = started w).
  { unfold ConfigService.getProviderConfig, ConfigService.selectConfigs, lookedUp. run.
    fold (keyed (providerConfigKey r) (environmentId r)).
    destruct (filter (keyed (providerConfigKey r) (environmentId r)) (configs w)).
    - now exists w.
    - unfold ConfigService.decrypt. eexists. split; reflexivity. }
  destruct Hget as (w1 & E1 & Hs1).
  unfold bind at 1. rewrite E1.
  set (syncConfig := lookedUp decryptProviderConfig (providerConfigKey r)
                       (environmentId r) w).
  set (traced := debug && truthyId activityLogId).
  assert (Hwhen : forall msg w0,
             exists w2, when traced (createActivityLogMessage msg) w0 = (Ok tt, w2)
                        /\ started w2 = started w0).
  { intros msg w0. destruct traced; unfold when, createActivityLogMessage; run.
    - eexists. split; reflexivity.
    - now exists w0. }
  unfold bind at 1.
  match goal with
  | |- context [when traced (createActivityLogMessage ?msg) w1] =>
      destruct (Hwhen msg w1) as (w2 & E2 & Hs2)
  end.
  rewrite E2. unfold bind at 1.
  pose proof (forEach_started (syncName r) syncConfig (sync r) debug (connections r) w2)
    as Hloop.
  destruct (forEach (connections r) _ w2) as [[[]|e] w3]; simpl in Hloop.
  - unfold bind at 1.
    match goal with
    | |- context [when traced (createActivityLogMessage ?msg) w3] =>
        destruct (Hwhen msg w3) as (w4 & E4 & Hs4)
    end.
    rewrite E4. unfold ret. simpl. now rewrite Hs4, Hloop, Hs2, Hs1.
  - unfold createActivityLogMessage. run. now rewrite Hloop, Hs2, Hs1.
Qed.

(** X28: the sync client accepts a command for each connection before the
    first one it raises for, and for no other; each command carries the
    Sync record just created, the flow name, the flow spec with [returns]
    set to its models, and what the lookup of the provider configuration
    gave, which is nothing when there is no such configuration. The
    connection the client raised for has its Sync record all the same. *)
Theorem create_starts_connections_before_failure
        (r : CreateSyncArgs) (debug : bool) (activityLogId : option Z) (w : World) :
  let w' := snd (create decryptProviderConfig syncClient (connections r) (syncName r)
                        (providerConfigKey r) (environmentId r) (sync r)
                        debug activityLogId w) in
  started w'
  = started w
    ++ map (commandOf (syncName r)
              (lookedUp decryptProviderConfig (providerConfigKey r) (environmentId r) w)
              (sync r) debug)
           (startedOf syncClient (syncName r) (connections r))
  /\ (forall k, find (raisesFor syncClient (syncName r)) (connections r) = Some k ->
        attempted syncClient (syncName r) (connections r)
        = startedOf syncClient (syncName r) (connections r) ++ [k]
        /\ In (syncOf (syncName r) k) (syncs w')).
Proof.
  intros w'. split; [apply create_started|].
  intros k Hfind.
  assert (Hatt : attempted syncClient (syncName r) (connections r)
                 = startedOf syncClient (syncName r) (connections r) ++ [k]).
  { unfold startedOf. destruct syncClient as [client|].
    - now apply attempted_started.
    - rewrite find_without_client in Hfind. discriminate Hfind. }
  split; [exact Hatt|].
  destruct (OrchestratorFacts.create_run decryptProviderConfig syncClient r debug
              activityLogId w) as (w1 & E & Hs & _).
  subst w'. rewrite E. simpl. rewrite Hs. apply in_or_app. right.
  unfold syncsOf. rewrite Hatt, map_app. apply in_or_app. right. now left.
Qed.

Lemma createSyncs_loop_app a b debug activityLogId success w :
  createSyncs_loop decryptProviderConfig syncClient (a ++ b) debug activityLogId success w
  = match createSyncs_loop decryptProviderConfig syncClient a debug activityLogId success w
    with
    | (Ok s, w1) =>
        createSyncs_loop decryptProviderConfig syncClient b debug activityLogId s w1
    | (Throw e, w1) => (Throw e, w1)
    end.
Proof.
  revert success w. induction a as [|r rest IH]; intros success w; [reflexivity|].
  simpl. unfold bind.
  destruct (create decryptProviderConfig syncClient (connections r) (syncName r)
                   (providerConfigKey r) (environmentId r) (sync r)
                   debug activityLogId w) as [[res|e] w1]; [apply IH | reflexivity].
Qed.

(** The variable [success] only gathers the answers: it has no part in
    what the loop does. *)
Lemma createSyncs_loop_acc l debug activityLogId success w :
  createSyncs_loop decryptProviderConfig syncClient l debug activityLogId success w
  = match createSyncs_loop decryptProviderConfig syncClient l debug activityLogId true w
    with
    | (Ok x, w') => (Ok (success && x), w')
    | (Throw e, w') => (Throw e, w')
    end.
Proof.
  revert success w. induction l as [|r rest IH]; intros success w.
  - simpl. unfold ret. now rewrite andb_true_r.
  - simpl. unfold bind.
    destruct (create decryptProviderConfig syncClient (connections r) (syncName r)
                     (providerConfigKey r) (environmentId r) (sync r)
                     debug activityLogId w) as [[res|e] w1]; [|reflexivity].
    rewrite IH. rewrite (IH (if negb res then false else true)).
    destruct (createSyncs_loop decryptProviderConfig syncClient rest debug activityLogId
                true w1) as [[x|e] w2]; [|reflexivity].
    destruct res, success; reflexivity.
Qed.

(** X29: handing [createSyncs] two lists of requests one after the other
    is handing it the two lists in turn, the second on the state the first
    left: the answer is the conjunction of the two answers and the final
    state is that of the second call. *)
Theorem createSyncs_of_appended_requests
        (a b : list CreateSyncArgs) (debug : bool) (activityLogId : option Z) (w : World) :
  exists ra wa rb wb,
    createSyncs decryptProviderConfig syncClient a debug activityLogId w = (Ok ra, wa)
    /\ createSyncs decryptProviderConfig syncClient b debug activityLogId wa = (Ok rb, wb)
    /\ createSyncs decryptProviderConfig syncClient (a ++ b) debug activityLogId w
       = (Ok (ra && rb), wb).
Proof.
  unfold createSyncs.
  destruct (OrchestratorFacts.createSyncs_loop_run decryptProviderConfig syncClient a
              debug activityLogId true w) as (wa & Ea & _).
  destruct (OrchestratorFacts.createSyncs_loop_run decryptProviderConfig syncClient b
              debug activityLogId true wa) as (wb & Eb & _).
  exists (true && forallb (requestSucceeds syncClient) a), wa,
         (true && forallb (requestSucceeds syncClient) b), wb.
  split; [exact Ea|]. split; [exact Eb|].
  rewrite createSyncs_loop_app, Ea, createSyncs_loop_acc, Eb. reflexivity.
Qed.

End Service.

(** X27: without a sync client the request succeeds all the same: a Sync
    record is created for every connection, no continuous sync is started
    and no error is logged. *)
Theorem create_without_client_starts_nothing
        (decryptProviderConfig : Provider.Config -> option Provider.Config)
        (r : CreateSyncArgs) (debug : bool) (activityLogId : option Z) (w : World) :
  exists w',
    create decryptProviderConfig None (connections r) (syncName r)
           (providerConfigKey r) (environmentId r) (sync r) debug activityLogId w
    = (Ok true, w')
    /\ syncs w' = syncs w ++ map (syncOf (syncName r)) (connections r)
    /\ started w' = started w
    /\ forall msg, In msg (activity w') -> level msg = LevelError -> In msg (activity w).
Proof.
  destruct (OrchestratorFacts.create_run decryptProviderConfig None r debug
              activityLogId w) as (w' & E & Hs & Ha).
  pose proof (create_started decryptProviderConfig None r debug activityLogId w) as Hst.
  rewrite E in Hst. simpl in Hst. exists w'.
  pose proof (find_without_client (syncName r) (connections r)) as Hfind.
  split; [|split; [|split]].
  - rewrite E. f_equal. f_equal. now apply OrchestratorFacts.requestSucceeds_find.
  - rewrite Hs. unfold syncsOf. now rewrite attempted_without_client.
  - rewrite Hst. now rewrite app_nil_r.
  - intros msg Hin Hlevel. rewrite Ha in Hin. apply in_app_or in Hin.
    destruct Hin as [Hin|Hin]; [exact Hin|]. exfalso.
    unfold entriesOf in Hin. rewrite Hfind in Hin.
    destruct (debug && truthyId activityLogId); simpl in Hin.
    + destruct Hin as [<-|[<-|[]]]; discriminate Hlevel.
    + destruct Hin.
Qed.

End OrchestratorMore.
